(** * NexusCollectionBatch: the acquisition orchestration engine

    A shallow embedding of [nexus_browser_first.py], [auto_que.py] and
    [v3_install.py], and the properties of the URL normalizer, the
    per-target download resolver and the run orchestrator.

    Conventions of the embedding.
    - A Python [str] is a [string]; its characters are code points below
      256, which covers every URL and file name the program builds itself.
    - A Python [int] is a [Z]; a [pathlib.Path] is the [string] that
      [str(path)] returns.
    - Wall-clock time is counted in whole milliseconds ([nat]); the
      program's timeouts (seconds, as floats) are given in milliseconds.
    - The browser, the network and the file system are an abstract world
      [W] with one oracle per external call (record [Env]); every oracle may
      raise, as every Python call may.  Statements quantify over the world.
    - [print] calls are omitted: nothing reads the console. *)

From Stdlib Require Import ZArith Lia Ascii String DecimalString DecimalPos DecimalZ.
From stdpp Require Import base list strings gmap.

Open Scope Z_scope.

(** ** Python strings *)

Module Py.

Definition code (c : ascii) : nat := nat_of_ascii c.

Definition between (lo hi : nat) (c : ascii) : bool :=
  (lo <=? code c)%nat && (code c <=? hi)%nat.

Definition is_digit : ascii -> bool := between 48 57.
Definition is_upper_az : ascii -> bool := between 65 90.
Definition is_lower_az : ascii -> bool := between 97 122.

(** [str.isspace] on code points below 256: TAB..CR, FS..US, space, NEL and
    the no-break space. *)
Definition is_space (c : ascii) : bool :=
  between 9 13 c || between 28 32 c || (code c =? 133)%nat || (code c =? 160)%nat.

(** [str.lower] character by character: A-Z, and the Latin-1 capitals
    192..222 without the multiplication sign 215. *)
Definition lower_char (c : ascii) : ascii :=
  if is_upper_az c || (between 192 222 c && negb (code c =? 215)%nat)
  then ascii_of_nat (code c + 32)
  else c.

Fixpoint lower (s : string) : string :=
  match s with
  | EmptyString => EmptyString
  | String c s' => String (lower_char c) (lower s')
  end.

(** [s.startswith(p)] *)
Fixpoint startswith (s p : string) {struct p} : bool :=
  match p with
  | EmptyString => true
  | String a p' =>
      match s with
      | EmptyString => false
      | String b s' => Ascii.eqb a b && startswith s' p'
      end
  end.

(** [s.endswith(suf)]: some suffix of [s] is [suf]. *)
Fixpoint endswith (s suf : string) : bool :=
  String.eqb s suf ||
  match s with
  | EmptyString => false
  | String _ s' => endswith s' suf
  end.

(** [s.endswith((a, b, ...))] *)
Definition endswith_any (s : string) (sufs : list string) : bool :=
  existsb (endswith s) sufs.

(** [sub in s] *)
Fixpoint contains (s sub : string) : bool :=
  startswith s sub ||
  match s with
  | EmptyString => false
  | String _ s' => contains s' sub
  end.

(** [s.lstrip(chars)], [s.rstrip(chars)] and [s.strip()], the set of
    characters given as a predicate. *)
Fixpoint lstrip_set (p : ascii -> bool) (s : string) : string :=
  match s with
  | EmptyString => EmptyString
  | String c s' => if p c then lstrip_set p s' else s
  end.

Fixpoint rstrip_set (p : ascii -> bool) (s : string) : string :=
  match s with
  | EmptyString => EmptyString
  | String c s' =>
      match rstrip_set p s' with
      | EmptyString => if p c then EmptyString else String c EmptyString
      | r => String c r
      end
  end.

Definition strip (s : string) : string := rstrip_set is_space (lstrip_set is_space s).

Definition is_char (a : ascii) (c : ascii) : bool := Ascii.eqb a c.

(** [s.split(sep)] for a one-character separator. *)
Fixpoint split_on (sep : ascii -> bool) (s : string) : list string :=
  match s with
  | EmptyString => [EmptyString]
  | String c s' =>
      let r := split_on sep s' in
      if sep c then EmptyString :: r
      else match r with
           | h :: t => String c h :: t
           | [] => [String c EmptyString]
           end
  end.

(** [s.split(sep, 1)]: the text before the first separator and, when
    there is one, the text after it. *)
Fixpoint split_once (sep : ascii -> bool) (s : string) : string * option string :=
  match s with
  | EmptyString => (EmptyString, None)
  | String c s' =>
      if sep c then (EmptyString, Some s')
      else let '(a, b) := split_once sep s' in (String c a, b)
  end.

(** The text up to and including the last character of the set, and the
    text after it ([s[:i+1]] and [s[i+1:]] for [i = s.rfind(c)]). *)
Fixpoint rsplit_last (p : ascii -> bool) (s : string) : string * string :=
  match s with
  | EmptyString => (EmptyString, EmptyString)
  | String c s' =>
      match rsplit_last p s' with
      | (EmptyString, t) =>
          if p c then (String c EmptyString, t) else (EmptyString, String c t)
      | (h, t) => (String c h, t)
      end
  end.

(** [s.replace(c, "")] for a set of characters. *)
Fixpoint remove_chars (p : ascii -> bool) (s : string) : string :=
  match s with
  | EmptyString => EmptyString
  | String c s' => if p c then remove_chars p s' else String c (remove_chars p s')
  end.

Fixpoint forallb_str (p : ascii -> bool) (s : string) : bool :=
  match s with
  | EmptyString => true
  | String c s' => p c && forallb_str p s'
  end.

Fixpoint existsb_str (p : ascii -> bool) (s : string) : bool :=
  match s with
  | EmptyString => false
  | String c s' => p c || existsb_str p s'
  end.

(** [s[n:]] *)
Fixpoint drop (n : nat) (s : string) : string :=
  match n, s with
  | O, _ => s
  | S n', String _ s' => drop n' s'
  | S _, EmptyString => EmptyString
  end.

(** [sep.join(l)] *)
Definition join (sep : string) (l : list string) : string := String.concat sep l.

(** [str(n)] *)
Definition str_of_Z (n : Z) : string := NilZero.string_of_int (Z.to_int n).

(** Truthiness of a [str] and of an [int]. *)
Definition truthy_str (s : string) : bool := negb (String.eqb s EmptyString).
Definition truthy_int (n : Z) : bool := negb (n =? 0).

End Py.

(** ** Regular expressions

    The three patterns the classification and the normalizer use need no
    groups: they are matched by derivatives, and [re_match] is Python's
    [re.match] for a pattern written [^r$], where [$] also matches just
    before a final newline. *)

Module Re.

Inductive regex : Type :=
| Never
| Eps
| Class (p : ascii -> bool)
| Seq (r1 r2 : regex)
| Alt (r1 r2 : regex)
| Star (r : regex).

Fixpoint nullable (r : regex) : bool :=
  match r with
  | Never => false
  | Eps => true
  | Class _ => false
  | Seq r1 r2 => nullable r1 && nullable r2
  | Alt r1 r2 => nullable r1 || nullable r2
  | Star _ => true
  end.

Fixpoint deriv (c : ascii) (r : regex) : regex :=
  match r with
  | Never => Never
  | Eps => Never
  | Class p => if p c then Eps else Never
  | Seq r1 r2 =>
      if nullable r1 then Alt (Seq (deriv c r1) r2) (deriv c r2)
      else Seq (deriv c r1) r2
  | Alt r1 r2 => Alt (deriv c r1) (deriv c r2)
  | Star r1 => Seq (deriv c r1) (Star r1)
  end.

Fixpoint accepts (r : regex) (s : string) : bool :=
  match s with
  | EmptyString => nullable r
  | String c s' => accepts (deriv c r) s'
  end.

Definition Plus (r : regex) : regex := Seq r (Star r).
Definition Opt (r : regex) : regex := Alt Eps r.

Fixpoint Rep (n : nat) (r : regex) : regex :=
  match n with
  | O => Eps
  | S n' => Seq r (Rep n' r)
  end.

(** A literal, matched letter by letter without regard to case
    ([re.IGNORECASE]). *)
Definition ichar (a : ascii) : regex :=
  Class (fun c => Ascii.eqb (Py.lower_char c) (Py.lower_char a)).

Fixpoint ilit (s : string) : regex :=
  match s with
  | EmptyString => Eps
  | String a s' => Seq (ichar a) (ilit s')
  end.

Definition newline : ascii := ascii_of_nat 10.

(** [s] without its last character, when that is a newline. *)
Fixpoint chop_newline (s : string) : option string :=
  match s with
  | EmptyString => None
  | String c EmptyString => if Ascii.eqb c newline then Some EmptyString else None
  | String c s' => option_map (String c) (chop_newline s')
  end.

Definition re_match (r : regex) (s : string) : bool :=
  accepts r s ||
  match chop_newline s with
  | Some s' => accepts r s'
  | None => false
  end.

End Re.

(** ** [pathlib] on path strings

    The tool drives Brave or Chrome on Windows ([candidate_browser_paths]),
    so both slashes separate components. *)

Module Path.

Definition backslash : ascii := ascii_of_nat 92.

Definition is_sep (c : ascii) : bool := Ascii.eqb c "/" || Ascii.eqb c backslash.

Definition is_component (s : string) : bool :=
  negb (String.eqb s EmptyString) && negb (String.eqb s ".").

(** [Path(p).name]: the last component, empty when there is none. *)
Definition name (p : string) : string :=
  List.last (List.filter is_component (Py.split_on is_sep p)) EmptyString.

(** The text from the last dot of [s] on. *)
Fixpoint from_last_dot (s : string) : option string :=
  match s with
  | EmptyString => None
  | String c s' =>
      match from_last_dot s' with
      | Some r => Some r
      | None => if Ascii.eqb c "." then Some s else None
      end
  end.

(** [Path(p).suffix]: [name[i:]] for the last dot [i] of the name when
    [0 < i < len(name) - 1], else empty. *)
Definition suffix (p : string) : string :=
  match name p with
  | EmptyString => EmptyString
  | String _ rest =>
      match from_last_dot rest with
      | Some suf => if (1 <? String.length suf)%nat then suf else EmptyString
      | None => EmptyString
      end
  end.

(** [Path(p).stem]: the name without its suffix. *)
Definition stem (p : string) : string :=
  let n := name p in
  String.substring 0 (String.length n - String.length (suffix p)) n.

(** [Path(p).with_name(n)]: the parent's text, then [n]. *)
Definition with_name (p n : string) : string :=
  fst (Py.rsplit_last is_sep p) +:+ n.

(** [dir / name] *)
Definition join (dir file : string) : string := dir +:+ String backslash file.

End Path.

(** ** Download candidates: temporary and suspicious names *)

Definition TEMP_DOWNLOAD_EXTENSIONS : list string := [".crdownload"; ".part"; ".tmp"].

Definition hex_digit : Re.regex :=
  Re.Class (fun c => Py.is_digit c || Py.between 97 102 (Py.lower_char c)).

Definition dash : Re.regex := Re.Class (Py.is_char "-").

(** [^[0-9a-f]{8}-[0-9a-f]{4}-[0-9a-f]{4}-[0-9a-f]{4}-[0-9a-f]{12}$],
    [re.IGNORECASE] *)
Definition SUSPICIOUS_FILENAME_RE : Re.regex :=
  Re.Seq (Re.Rep 8 hex_digit) (Re.Seq dash
  (Re.Seq (Re.Rep 4 hex_digit) (Re.Seq dash
  (Re.Seq (Re.Rep 4 hex_digit) (Re.Seq dash
  (Re.Seq (Re.Rep 4 hex_digit) (Re.Seq dash
  (Re.Rep 12 hex_digit)))))))).

Definition is_temp_download (path : string) : bool :=
  bool_decide (Py.lower (Path.suffix path) ∈ TEMP_DOWNLOAD_EXTENSIONS).

Definition is_good_archive_name (name : string) : bool :=
  let lower := Py.lower name in
  if Py.endswith_any lower [".zip"; ".7z"; ".rar"] then true
  else
    let stem := Path.name name in
    if Re.re_match SUSPICIOUS_FILENAME_RE stem then false
    else false.

(** ** [urllib.parse] on URL strings

    [urlparse] follows CPython 3.11: leading control characters and spaces
    are stripped, TAB, CR and LF are removed, then scheme, netloc,
    fragment, query and the parameters of the last path segment are split
    off in that order.  [None] stands for the [ValueError] of an unmatched
    bracket in the netloc. *)

Module Url.

Record ParseResult : Type := {
  scheme : string;
  netloc : string;
  path : string;
  params : string;
  query : string;
  fragment : string
}.

Definition is_c0_or_space (c : ascii) : bool := (Py.code c <=? 32)%nat.

Definition is_unsafe (c : ascii) : bool :=
  (Py.code c =? 9)%nat || (Py.code c =? 10)%nat || (Py.code c =? 13)%nat.

Definition is_ascii_alpha (c : ascii) : bool := Py.is_upper_az c || Py.is_lower_az c.

Definition scheme_char (c : ascii) : bool :=
  is_ascii_alpha c || Py.is_digit c ||
  Py.is_char "+" c || Py.is_char "-" c || Py.is_char "." c.

Definition uses_params : list string :=
  [""; "ftp"; "hdl"; "prospero"; "http"; "imap"; "https"; "shttp"; "rtsp";
   "rtspu"; "sip"; "sips"; "mms"; "sftp"; "tel"].

(** The scheme before the first colon, lower-cased, when it starts with a
    letter and holds scheme characters only. *)
Definition split_scheme (url : string) : string * string :=
  match Py.split_once (Py.is_char ":") url with
  | (String c0 pre, Some rest) =>
      if is_ascii_alpha c0 && Py.forallb_str scheme_char (String c0 pre)
      then (Py.lower (String c0 pre), rest)
      else (EmptyString, url)
  | _ => (EmptyString, url)
  end.

(** The text before the first character in the set, and the text from it on. *)
Fixpoint span_until (p : ascii -> bool) (s : string) : string * string :=
  match s with
  | EmptyString => (EmptyString, EmptyString)
  | String c s' =>
      if p c then (EmptyString, s)
      else let '(a, b) := span_until p s' in (String c a, b)
  end.

Definition netloc_end (c : ascii) : bool :=
  Py.is_char "/" c || Py.is_char "?" c || Py.is_char "#" c.

(** [if url[:2] == '//': netloc, url = _splitnetloc(url, 2)] *)
Definition split_netloc (url : string) : string * string :=
  if Py.startswith url "//" then span_until netloc_end (Py.drop 2 url)
  else (EmptyString, url).

Definition bad_brackets (netloc : string) : bool :=
  xorb (Py.existsb_str (Py.is_char "[") netloc) (Py.existsb_str (Py.is_char "]") netloc).

(** [_splitparams]: the first semicolon of the last path segment. *)
Definition split_params (url : string) : string * string :=
  let '(h, t) := Py.rsplit_last (Py.is_char "/") url in
  match Py.split_once (Py.is_char ";") t with
  | (a, Some b) => (h +:+ a, b)
  | (_, None) => (url, EmptyString)
  end.

(** [urlsplit(url)]: scheme, netloc, path, query and fragment; [None] is
    the [ValueError] for a netloc with one bracket only. *)
Definition urlsplit (url0 : string)
  : option (string * string * string * string * string) :=
  let url := Py.lstrip_set is_c0_or_space url0 in
  let url := Py.remove_chars is_unsafe url in
  let '(scheme, url) := split_scheme url in
  let '(netloc, url) := split_netloc url in
  if bad_brackets netloc then None
  else
    let '(url, fragment) :=
      match Py.split_once (Py.is_char "#") url with
      | (a, Some b) => (a, b)
      | (a, None) => (a, EmptyString)
      end in
    let '(url, query) :=
      match Py.split_once (Py.is_char "?") url with
      | (a, Some b) => (a, b)
      | (a, None) => (a, EmptyString)
      end in
    Some (scheme, netloc, url, query, fragment).

Definition urlparse (url0 : string) : option ParseResult :=
  match urlsplit url0 with
  | None => None
  | Some (scheme, netloc, url, query, fragment) =>
      let '(url, params) :=
        if bool_decide (scheme ∈ uses_params) && Py.existsb_str (Py.is_char ";") url
        then split_params url
        else (url, EmptyString) in
      Some {| scheme := scheme; netloc := netloc; path := url;
              params := params; query := query; fragment := fragment |}
  end.

(** Percent-decoding.  An escape [%XX] below [%80] becomes its character;
    escapes from [%80] on, which Python decodes as UTF-8, stay as written:
    the characters they stand for are outside this model of [str]. *)
Definition hex_value (c : ascii) : option nat :=
  if Py.is_digit c then Some (Py.code c - 48)%nat
  else if Py.between 97 102 c then Some (Py.code c - 87)%nat
  else if Py.between 65 70 c then Some (Py.code c - 55)%nat
  else None.

Definition escape_value (h l : ascii) : option ascii :=
  match hex_value h, hex_value l with
  | Some a, Some b => if (a <? 8)%nat then Some (ascii_of_nat (16 * a + b)) else None
  | _, _ => None
  end.

Fixpoint unquote (s : string) : string :=
  match s with
  | EmptyString => EmptyString
  | String c s' =>
      match s' with
      | String h (String l s'') =>
          match (if Py.is_char "%" c then escape_value h l else None) with
          | Some ch => String ch (unquote s'')
          | None => String c (unquote s')
          end
      | _ => String c (unquote s')
      end
  end.

Definition plus_to_space (c : ascii) : ascii := if Py.is_char "+" c then " "%char else c.

Fixpoint map_chars (f : ascii -> ascii) (s : string) : string :=
  match s with
  | EmptyString => EmptyString
  | String c s' => String (f c) (map_chars f s')
  end.

(** [parse_qsl(qs)]: the decoded [name=value] fields with a non-empty value,
    in order. *)
Definition parse_qsl (qs : string) : list (string * string) :=
  omap (fun name_value =>
          let '(name, value) := Py.split_once (Py.is_char "=") name_value in
          match value with
          | Some (String c v) =>
              Some (unquote (map_chars plus_to_space name),
                    unquote (map_chars plus_to_space (String c v)))
          | _ => None
          end)
       (Py.split_on (Py.is_char "&") qs).

(** [parse_qs(qs).get(key, [])] *)
Definition parse_qs_get (qs key : string) : list string :=
  omap (fun nv => if String.eqb (fst nv) key then Some (snd nv) else None) (parse_qsl qs).

(** [urlencode({'tab': 'files', 'file_id': n})] *)
Definition urlencode_tab_file_id (n : Z) : string :=
  "tab=files&file_id=" +:+ Py.str_of_Z n.

End Url.

(** ** [int(s)] for a [str]

    White space at both ends, one sign, then decimal digits that single
    underscores may separate.  The white space that [int] skips is TAB..CR
    and the space and, of the code points from 128 on, NEL and the no-break
    space; FS..US, which [str.strip] removes, are not skipped.  A text of
    more than 4300 digits is refused: the interpreter's default limit on
    conversions between [str] and [int]. *)

Definition is_int_space (c : ascii) : bool :=
  Py.between 9 13 c || (Py.code c =? 32)%nat || (Py.code c =? 133)%nat ||
  (Py.code c =? 160)%nat.

Definition int_max_str_digits : nat := 4300.

Fixpoint int_body_ok (prev_digit : bool) (s : string) : bool :=
  match s with
  | EmptyString => prev_digit
  | String c s' =>
      if Py.is_digit c then int_body_ok true s'
      else if Py.is_char "_" c then prev_digit && int_body_ok false s'
      else false
  end.

Definition int_of_body (body : string) : option Z :=
  if int_body_ok false body
  then
    let digits := Py.remove_chars (Py.is_char "_") body in
    if (int_max_str_digits <? String.length digits)%nat then None
    else option_map Z.of_uint (NilEmpty.uint_of_string digits)
  else None.

Definition py_int (s : string) : option Z :=
  match Py.rstrip_set is_int_space (Py.lstrip_set is_int_space s) with
  | String "+" body => int_of_body body
  | String "-" body => option_map Z.opp (int_of_body body)
  | body => int_of_body body
  end.

(** ** URL Normalizer *)

Definition slash : Re.regex := Re.Class (Py.is_char "/").
Definition not_slash : Re.regex := Re.Class (fun c => negb (Py.is_char "/" c)).
Definition digit : Re.regex := Re.Class Py.is_digit.

(** [^/[^/]+/mods/\d+/?$], [re.IGNORECASE] *)
Definition MOD_PATH_RE : Re.regex :=
  Re.Seq slash (Re.Seq (Re.Plus not_slash) (Re.Seq slash (Re.Seq (Re.ilit "mods")
  (Re.Seq slash (Re.Seq (Re.Plus digit) (Re.Opt slash)))))).

Definition site_base : string := "https://www.nexusmods.com".

Definition normalize_mod_target_url (url : string) : option string :=
  match Url.urlparse url with
  | None => None
  | Some parsed =>
      if negb (bool_decide (Url.scheme parsed ∈ ["http"; "https"])) then None
      else if negb (bool_decide (Py.lower (Url.netloc parsed) ∈ ["www.nexusmods.com"; "nexusmods.com"]))
      then None
      else
        let path := Py.rstrip_set (Py.is_char "/") (Url.path parsed) in
        if negb (Re.re_match MOD_PATH_RE path) then None
        else
          let file_id_values := Url.parse_qs_get (Url.query parsed) "file_id" in
          let file_id :=
            match file_id_values with
            | v :: _ => py_int v
            | [] => None
            end in
          let base := site_base +:+ path in
          match file_id with
          | Some n =>
              if 0 <? n then Some (base +:+ "?" +:+ Url.urlencode_tab_file_id n)
              else Some base
          | None => Some base
          end
  end.

(** The three results of [parse_mod_target]. *)
Definition target : Type := option string * option Z * option Z.

Definition no_target : target := (None, None, None).

(** [None] stands for the [ValueError] of the unguarded [urlparse] call;
    [parse_mod_target_returns] below shows that it never happens. *)
Definition parse_mod_target (url : string) : option target :=
  match normalize_mod_target_url url with
  | None => Some no_target
  | Some normalized =>
      if negb (Py.truthy_str normalized) then Some no_target
      else
        match Url.urlparse normalized with
        | None => None
        | Some parsed =>
            let strip_slash s :=
              Py.rstrip_set (Py.is_char "/") (Py.lstrip_set (Py.is_char "/") s) in
            match Py.split_on (Py.is_char "/") (strip_slash (Url.path parsed)) with
            | p0 :: p1 :: p2 :: _ =>
                if negb (String.eqb p1 "mods") then Some no_target
                else
                  let domain := Py.lower p0 in
                  match py_int p2 with
                  | None => Some no_target
                  | Some mod_id =>
                      let file_id :=
                        match Url.parse_qs_get (Url.query parsed) "file_id" with
                        | v :: _ => py_int v
                        | [] => None
                        end in
                      Some (Some domain, Some mod_id, file_id)
                  end
            | _ => Some no_target
            end
        end
  end.

Fixpoint dedupe_loop (links : list string) (seen : gset string) (out : list string)
  : list string :=
  match links with
  | [] => out
  | link :: rest =>
      match normalize_mod_target_url link with
      | None => dedupe_loop rest seen out
      | Some canonical =>
          if bool_decide (canonical ∈ seen) then dedupe_loop rest seen out
          else dedupe_loop rest ({[canonical]} ∪ seen) (out ++ [canonical])
      end
  end.

Definition dedupe_links (links : list string) : list string :=
  dedupe_loop links ∅ [].

(** ** Run data *)

Record ItemResult : Type := {
  index : Z;
  mod_url : string;
  status : string;
  reason : string
}.

Definition set_index (idx : Z) (item : ItemResult) : ItemResult :=
  {| index := idx; mod_url := mod_url item; status := status item; reason := reason item |}.

(** [details] of the network strategy; its [domain] entry is left out. *)
Record ExtractionDetails : Type := {
  payload_candidates_seen : nat;
  payloads_parsed : nat
}.

Record ExtractionResult : Type := {
  links : list string;
  strategy : string;
  details : ExtractionDetails
}.

(** One entry of the install stage's [results]. *)
Record InstallItem : Type := {
  archive : string;
  install_status : string;
  install_reason : string;
  copied_files : option Z
}.

Record InstallSummary : Type := {
  installed : Z;
  failed : Z;
  install_results : list InstallItem
}.

(** The [run_data] dictionary: the keys that change during a run, and the
    run id and collection URL the summary prints. *)
Record RunData : Type := {
  run_id : string;
  collection_url : string;
  queue_count : nat;
  queue_first_5 : list string;
  results : list ItemResult;
  extraction_network : option ExtractionDetails;
  extraction_dom_links_found : option nat;
  extraction_zero_queue : bool;
  game_id : option Z;
  interrupted : bool;
  fatal_error : option string;
  install_summary : option InstallSummary
}.

(** ** Effects: exceptions, the world, and the monad of the program *)

(** The part of Python's exception hierarchy the program distinguishes:
    Playwright's errors (its timeout error is one of them) and every other
    [Exception]; [KeyboardInterrupt] and [asyncio.CancelledError] are
    [BaseException]s that [except Exception] lets through. *)
Inductive exn_class : Type :=
| PlaywrightError
| OtherException
| KeyboardInterrupt
| CancelledError.

Record exn : Type := { exn_cls : exn_class; exn_str : string }.

Definition is_Exception (e : exn) : bool :=
  match exn_cls e with
  | PlaywrightError | OtherException => true
  | KeyboardInterrupt | CancelledError => false
  end.

Definition is_PlaywrightError (e : exn) : bool :=
  match exn_cls e with
  | PlaywrightError => true
  | _ => false
  end.

Definition is_KeyboardInterrupt (e : exn) : bool :=
  match exn_cls e with
  | KeyboardInterrupt => true
  | _ => false
  end.

Definition is_CancelledError (e : exn) : bool :=
  match exn_cls e with
  | CancelledError => true
  | _ => false
  end.

Definition is_BaseException (e : exn) : bool := true.

Definition RuntimeError (msg : string) : exn := {| exn_cls := OtherException; exn_str := msg |}.

(** What a computation comes to: a value, a raised exception, or a polling
    loop that ran out of iterations ([Diverge]; the [tame_...] lemmas show
    that the loops of the program never do). *)
Inductive outcome (A : Type) : Type :=
| Ok (a : A)
| Raise (e : exn)
| Diverge.

Arguments Ok {A} a.
Arguments Raise {A} e.
Arguments Diverge {A}.

(** What a call into the world, or a part of the program that is not
    embedded, comes to. *)
Inductive reply (A : Type) : Type :=
| Returned (a : A)
| Raised (e : exn).

Arguments Returned {A} a.
Arguments Raised {A} e.

Inductive ssl_context : Type :=
| DefaultContext
| UnverifiedContext.

Inductive locator : Type :=
| Locator (selector : string)
| Nth (selector : string) (i : nat)
| First (selector : string).

(** The calls that leave the program. *)
Inductive request : Type :=
(* urllib, through the two [..._with_context] helpers *)
| ResolveDownloadUrl (cookie_header referer : string) (game file : Z) (ctx : ssl_context)
| DirectDownloadToFolder (url download_dir fallback_name : string) (ctx : ssl_context)
(* Playwright *)
| ConnectOverCdp (cdp_url : string)
| Cookies
| BrowserClose
| ObserveCollectionResponses (url : string)
| PageContentGameId
| ModHrefs
| ZeroQueueArtifacts
| Goto (url : string)
| WaitForTimeout (ms : nat)
| Count (l : locator)
| IsVisible (l : locator)
| Click (l : locator) (timeout_ms : nat)
| OnDownload
| RemoveListener
| SuggestedFilename (download : nat)
| SaveAs (download : nat) (target : string)
(* time and the file system *)
| Sleep (ms : nat)
| Exists (p : string)
| IsFile (p : string)
| IterDir (p : string)
| Mkdir (p : string)
| StatSize (p : string)
| StatMtime (p : string)
| WriteJson (p : string) (data : RunData)
| WriteText (p : string) (lines : list string)
(* the install stage and the runner's start-up *)
| ExtractArchive (archive_path stage_root : string)
| MergeTree (archive_path stage_root install_dir : string)
| WriteInstallJson (p : string) (summary : InstallSummary)
| SaveConfig
| EnsureCdpReachable (cdp_url : string)
| TryLaunchBrowser (cdp_url : string).

(** What a call answers.  [VBodies] is the answer of the response listener
    of [collect_links_via_network]: one entry per payload candidate, [None]
    for a candidate without a body, else the links that the walk of
    [links_from_collection_payload] over the body builds before it
    de-duplicates them. *)
Inductive value : Type :=
| VNone
| VBool (b : bool)
| VInt (n : Z)
| VStr (s : string)
| VStrs (l : list string)
| VOptStrs (l : list (option string))
| VPairs (l : list (string * string))
| VBodies (l : list (option (list string)))
| VResult (ok : bool) (detail : string).

(** The world: what each call answers and how the world changes, how long
    the call took beyond any requested wait, and which download events fired
    while a Playwright call was running. *)
Record Env (W : Type) : Type := {
  perform : W -> request -> reply value * W;
  lag : W -> nat;
  downloads_fired : W -> list nat * W
}.

Arguments perform {W} _ _ _.
Arguments lag {W} _ _.
Arguments downloads_fired {W} _ _.

(** The variables of one [process_mod] activation that its download
    listener and its handlers share with the main line: the lists the
    closure appends to, the downloads directory it captured ([listener],
    set while it is registered), and [manual_retry_used]. *)
Record Locals : Type := {
  listener : option string;
  seen_downloads : list string;
  saved_downloads : list string;
  download_errors : list string;
  manual_retry_used : bool
}.

Definition fresh_locals : Locals :=
  {| listener := None; seen_downloads := []; saved_downloads := [];
     download_errors := []; manual_retry_used := false |}.

Section Program.

Context {W : Type} (env : Env W).

(** The state the program threads: the world, the clock, the calls made so
    far, the shared variables of the current target, and [run_data]. *)
Record St : Type := {
  world : W;
  clock : nat;
  trace : list request;
  locals : Locals;
  run_data : RunData
}.

Definition M (A : Type) : Type := St -> outcome A * St.

Definition ret {A} (a : A) : M A := fun st => (Ok a, st).

Definition bind {A B} (m : M A) (k : A -> M B) : M B :=
  fun st =>
    match m st with
    | (Ok a, st') => k a st'
    | (Raise e, st') => (Raise e, st')
    | (Diverge, st') => (Diverge, st')
    end.

Definition raise {A} (e : exn) : M A := fun st => (Raise e, st).

Definition diverge {A} : M A := fun st => (Diverge, st).

(** [try: m except <caught> as e: h e] *)
Definition try_except {A} (m : M A) (caught : exn -> bool) (h : exn -> M A) : M A :=
  fun st =>
    match m st with
    | (Raise e, st') => if caught e then h e st' else (Raise e, st')
    | r => r
    end.

(** [try: m except <c1> as e: h1 e except <c2> as e: h2 e]: the first
    clause that catches the exception handles it, outside the [try]. *)
Definition try_except2 {A} (m : M A) (c1 : exn -> bool) (h1 : exn -> M A)
    (c2 : exn -> bool) (h2 : exn -> M A) : M A :=
  fun st =>
    match m st with
    | (Raise e, st') =>
        if c1 e then h1 e st'
        else if c2 e then h2 e st'
        else (Raise e, st')
    | r => r
    end.

Definition get {A} (f : St -> A) : M A := fun st => (Ok (f st), st).

Definition modify (f : St -> St) : M unit := fun st => (Ok tt, f st).

#[local] Notation "'let*' x ':=' m 'in' k" := (bind m (fun x => k))
  (at level 10, x name, m at level 100, k at level 200).
#[local] Notation "'let*' ' p ':=' m 'in' k" := (bind m (fun x => let 'p := x in k))
  (at level 10, p pattern, m at level 100, k at level 200).
#[local] Notation "m ;; k" := (bind m (fun _ => k))
  (at level 100, k at level 200, right associativity).

Definition with_locals (f : Locals -> Locals) (st : St) : St :=
  {| world := world st; clock := clock st; trace := trace st;
     locals := f (locals st); run_data := run_data st |}.

Definition with_run_data (f : RunData -> RunData) (st : St) : St :=
  {| world := world st; clock := clock st; trace := trace st;
     locals := locals st; run_data := f (run_data st) |}.

Definition advance (ms : nat) : M unit :=
  modify (fun st =>
    {| world := world st; clock := (clock st + ms)%nat; trace := trace st;
       locals := locals st; run_data := run_data st |}).

(** One call into the world: it is recorded, answered, and takes time. *)
Definition call (req : request) : M value :=
  fun st =>
    let '(r, w') := perform env (world st) req in
    (match r with Returned v => Ok v | Raised e => Raise e end,
     {| world := w'; clock := (clock st + lag env w')%nat; trace := trace st ++ [req];
        locals := locals st; run_data := run_data st |}).

(** [time.time()] *)
Definition time_time : M nat := get clock.

Definition type_error {A} : M A :=
  raise {| exn_cls := OtherException; exn_str := "TypeError" |}.

Definition as_bool (v : value) : M bool :=
  match v with VBool b => ret b | _ => type_error end.
Definition as_int (v : value) : M Z :=
  match v with VInt n => ret n | _ => type_error end.
Definition as_str (v : value) : M string :=
  match v with VStr s => ret s | _ => type_error end.
Definition as_strs (v : value) : M (list string) :=
  match v with VStrs l => ret l | _ => type_error end.

(** [time.sleep(ms)] *)
Definition time_sleep (ms : nat) : M unit :=
  call (Sleep ms) ;; advance ms.

Definition path_exists (p : string) : M bool := let* v := call (Exists p) in as_bool v.
Definition path_is_file (p : string) : M bool := let* v := call (IsFile p) in as_bool v.
Definition path_iterdir (p : string) : M (list string) := let* v := call (IterDir p) in as_strs v.
Definition path_mkdir (p : string) : M unit := call (Mkdir p) ;; ret tt.
Definition stat_size (p : string) : M Z := let* v := call (StatSize p) in as_int v.
Definition stat_mtime (p : string) : M Z := let* v := call (StatMtime p) in as_int v.

(** *** The download listener *)

Definition set_listener (l : option string) : M unit :=
  modify (with_locals (fun x =>
    {| listener := l; seen_downloads := seen_downloads x;
       saved_downloads := saved_downloads x; download_errors := download_errors x;
       manual_retry_used := manual_retry_used x |})).

Definition append_seen (name : string) : M unit :=
  modify (with_locals (fun x =>
    {| listener := listener x; seen_downloads := seen_downloads x ++ [name];
       saved_downloads := saved_downloads x; download_errors := download_errors x;
       manual_retry_used := manual_retry_used x |})).

Definition append_saved (target : string) : M unit :=
  modify (with_locals (fun x =>
    {| listener := listener x; seen_downloads := seen_downloads x;
       saved_downloads := saved_downloads x ++ [target];
       download_errors := download_errors x;
       manual_retry_used := manual_retry_used x |})).

Definition append_error (msg : string) : M unit :=
  modify (with_locals (fun x =>
    {| listener := listener x; seen_downloads := seen_downloads x;
       saved_downloads := saved_downloads x;
       download_errors := download_errors x ++ [msg];
       manual_retry_used := manual_retry_used x |})).

Definition set_manual_retry_used (b : bool) : M unit :=
  modify (with_locals (fun x =>
    {| listener := listener x; seen_downloads := seen_downloads x;
       saved_downloads := saved_downloads x; download_errors := download_errors x;
       manual_retry_used := b |})).

(** [for i in range(i, i + n)]: the first candidate that does not exist. *)
Fixpoint unique_path_scan (n i : nat) (path : string) : M string :=
  match n with
  | O => raise (RuntimeError ("Could not create unique path for " +:+ path))
  | S n' =>
      let candidate :=
        Path.with_name path
          (Path.stem path +:+ " (" +:+ Py.str_of_Z (Z.of_nat i) +:+ ")" +:+ Path.suffix path) in
      let* e := path_exists candidate in
      if negb e then ret candidate
      else unique_path_scan n' (S i) path
  end.

Definition unique_path (path : string) : M string :=
  let* e := path_exists path in
  if negb e then ret path
  else unique_path_scan (9 * 1111) 1 path.

(** The closure [on_download] of [process_mod]. *)
Definition on_download (downloads_dir : string) (download : nat) : M unit :=
  let* name :=
    try_except (let* v := call (SuggestedFilename download) in as_str v)
               is_Exception (fun _ => ret "unknown") in
  append_seen name ;;
  try_except
    (path_mkdir downloads_dir ;;
     let* target := unique_path (Path.join downloads_dir name) in
     call (SaveAs download target) ;;
     append_saved target)
    is_BaseException
    (fun exc =>
       if is_CancelledError exc then append_error (name +:+ ": cancelled")
       else append_error (name +:+ ": " +:+ exn_str exc)).

Fixpoint for_each {A} (f : A -> M unit) (l : list A) : M unit :=
  match l with
  | [] => ret tt
  | x :: rest => f x ;; for_each f rest
  end.

(** The download events that fired during a Playwright call reach the
    listener before the call returns. *)
Definition deliver : M unit :=
  let* l := get (fun st => listener (locals st)) in
  match l with
  | None => ret tt
  | Some downloads_dir =>
      fun st =>
        let '(ds, w') := downloads_fired env (world st) in
        for_each (on_download downloads_dir) ds
          {| world := w'; clock := clock st; trace := trace st;
             locals := locals st; run_data := run_data st |}
  end.

(** A call on the page, the locators or the browser. *)
Definition page_call (req : request) : M value :=
  fun st =>
    let '(r, st1) := call req st in
    match deliver st1 with
    | (Ok _, st2) => (r, st2)
    | (Raise e, st2) => (Raise e, st2)
    | (Diverge, st2) => (Diverge, st2)
    end.

(** [page.wait_for_timeout(ms)] *)
Definition wait_for_timeout (ms : nat) : M unit :=
  page_call (WaitForTimeout ms) ;; advance ms.

(** [page.on("download", on_download)] *)
Definition page_on_download (downloads_dir : string) : M unit :=
  page_call OnDownload ;; set_listener (Some downloads_dir).

(** [try: page.remove_listener("download", on_download) except Exception: pass] *)
Definition remove_download_listener : M unit :=
  try_except (page_call RemoveListener ;; set_listener None) is_Exception (fun _ => ret tt).

(** *** Selectors *)

Definition COOKIE_SELECTORS : list string :=
  ["button:has-text('Accept')"; "button:has-text('Accept all')"; "button:has-text('I agree')"].

Definition MANUAL_SELECTORS : list string :=
  ["button:has-text('Manual'):visible"; "a:has-text('Manual'):visible";
   "button:has-text('Manual download'):visible"; "a:has-text('Manual download'):visible"].

Definition SLOW_SELECTORS : list string :=
  ["button:has-text('Slow download'):visible"; "a:has-text('Slow download'):visible";
   "text=Slow download"; "button:has-text('Free download'):visible";
   "a:has-text('Free download'):visible"].

Definition MANUAL_LINK_SELECTORS : list string :=
  ["a:has-text('click here to download manually'):visible";
   "a:has-text('download manually'):visible"].

(** *** [click_first_visible] *)

(** [for i in range(i, i + n)]: click the first visible target. *)
Fixpoint click_first_target (selector : string) (n i : nat) : M bool :=
  match n with
  | O => ret false
  | S n' =>
      let* v := page_call (IsVisible (Nth selector i)) in
      let* visible := as_bool v in
      if visible then page_call (Click (Nth selector i) 1500) ;; ret true
      else click_first_target selector n' (S i)
  end.

(** The body of [for selector in selectors], [true] for [return selector]. *)
Definition try_selector (selector : string) : M bool :=
  try_except
    (let* v := page_call (Count (Locator selector)) in
     let* count := as_int v in
     if count <=? 0 then ret false
     else
       let limit := Z.min count 8 in
       click_first_target selector (Z.to_nat limit) 0)
    is_PlaywrightError
    (fun _ => ret false).

Fixpoint try_selectors (selectors : list string) : M (option string) :=
  match selectors with
  | [] => ret None
  | selector :: rest =>
      let* clicked := try_selector selector in
      if clicked then ret (Some selector) else try_selectors rest
  end.

(** [while time.time() < deadline], at most [fuel] times. *)
Fixpoint click_poll (fuel deadline : nat) (selectors : list string) : M (option string) :=
  let* now := time_time in
  if (now <? deadline)%nat then
    match fuel with
    | O => diverge
    | S fuel' =>
        let* r := try_selectors selectors in
        match r with
        | Some selector => ret (Some selector)
        | None => wait_for_timeout 250 ;; click_poll fuel' deadline selectors
        end
    end
  else ret None.

Definition click_first_visible (selectors : list string) (timeout : nat) : M (option string) :=
  let* now := time_time in
  let deadline := (now + timeout)%nat in
  click_poll (timeout / 250 + 1) deadline selectors.

(** *** Watching the downloads directory *)

Fixpoint filter_files (l : list string) : M (list string) :=
  match l with
  | [] => ret []
  | p :: rest =>
      let* f := path_is_file p in
      let* r := filter_files rest in
      ret (if f then p :: r else r)
  end.

Definition list_candidate_files (download_dir : string) : M (list string) :=
  let* e := path_exists download_dir in
  if negb e then ret []
  else
    let* entries := path_iterdir download_dir in
    filter_files entries.

(** [for _ in range(n)]: sample the size, sleep. *)
Fixpoint sample_sizes (path : string) (n interval : nat) (sizes : list Z)
  : M (option (list Z)) :=
  match n with
  | O => ret (Some sizes)
  | S n' =>
      let* e := path_exists path in
      if negb e then ret None
      else
        let* size := stat_size path in
        time_sleep interval ;;
        sample_sizes path n' interval (sizes ++ [size])
  end.

Definition wait_until_file_is_stable (path : string) (checks interval : nat) : M bool :=
  let* e := path_exists path in
  if negb e || is_temp_download path then ret false
  else
    let* r := sample_sizes path checks interval [] in
    match r with
    | None => ret false
    | Some sizes => ret (bool_decide (size (list_to_set sizes : gset Z) = 1%nat))
    end.

(** [sorted(..., key=mtime, reverse=True)]: the keys are read first, and
    files of equal key keep their order. *)
Fixpoint with_mtimes (l : list string) : M (list (Z * string)) :=
  match l with
  | [] => ret []
  | p :: rest =>
      let* t := stat_mtime p in
      let* r := with_mtimes rest in
      ret ((t, p) :: r)
  end.

Fixpoint insert_by_mtime (x : Z * string) (l : list (Z * string)) : list (Z * string) :=
  match l with
  | [] => [x]
  | y :: r => if fst y <? fst x then x :: l else y :: insert_by_mtime x r
  end.

Definition sort_newest_first (l : list (Z * string)) : list string :=
  List.map snd (List.fold_left (fun acc x => insert_by_mtime x acc) l []).

Fixpoint first_stable (l : list string) : M (option string) :=
  match l with
  | [] => ret None
  | path :: rest =>
      let* stable := wait_until_file_is_stable path 3 1000 in
      if stable then ret (Some path) else first_stable rest
  end.

(** [while True], at most [fuel] times. *)
Fixpoint download_poll (fuel : nat) (download_dir : string) (baseline : gset string)
    (start timeout : nat) : M (option string) :=
  match fuel with
  | O => diverge
  | S fuel' =>
      let* files := list_candidate_files download_dir in
      let current : gset string := list_to_set files in
      let new_files :=
        List.filter (fun p => negb (is_temp_download p)) (elements (current ∖ baseline)) in
      let* keyed := with_mtimes new_files in
      let* found := first_stable (sort_newest_first keyed) in
      match found with
      | Some path => ret (Some path)
      | None =>
          let* now := time_time in
          if (timeout <? now - start)%nat then ret None
          else time_sleep 1000 ;; download_poll fuel' download_dir baseline start timeout
      end
  end.

Definition wait_for_new_completed_download (download_dir : string) (baseline : gset string)
    (timeout : nat) : M (option string) :=
  let* start := time_time in
  download_poll (timeout / 1000 + 2) download_dir baseline start timeout.

(** *** Download Resolver: [process_mod] *)

Definition is_ssl_verify_error (exc : exn) : bool :=
  let text := Py.lower (exn_str exc) in
  Py.contains text "certificate verify failed" || Py.contains text "self-signed certificate".

Definition item_result (mod_url status reason : string) : ItemResult :=
  {| index := 0; mod_url := mod_url; status := status; reason := reason |}.

(** The two calls of the direct path under one transport context. *)
Definition direct_attempt (cookie_header files_url : string) (game file : Z)
    (downloads_dir fallback_name : string) (ctx : ssl_context) : M string :=
  let* v := call (ResolveDownloadUrl cookie_header files_url game file ctx) in
  let* direct_url := as_str v in
  let* v := call (DirectDownloadToFolder direct_url downloads_dir fallback_name ctx) in
  as_str v.

(** The direct path: [Some] for an item it returns, [None] when control
    goes on to the click flow. *)
Definition direct_path (mod_url cookie_header files_url : string) (game file : Z)
    (downloads_dir fallback_name : string) : M (option ItemResult) :=
  try_except
    (let* downloaded :=
       direct_attempt cookie_header files_url game file downloads_dir fallback_name
         DefaultContext in
     if is_good_archive_name (Path.name downloaded)
     then ret (Some (item_result mod_url "ok" ("direct_download:" +:+ downloaded)))
     else ret (Some (item_result mod_url "partial"
                       ("direct_download_suspicious:" +:+ Path.name downloaded))))
    is_Exception
    (fun e =>
       if is_ssl_verify_error e then
         try_except
           (let insecure_ctx := UnverifiedContext in
            let* downloaded :=
              direct_attempt cookie_header files_url game file downloads_dir fallback_name
                insecure_ctx in
            if is_good_archive_name (Path.name downloaded)
            then ret (Some (item_result mod_url "ok"
                              ("direct_download_insecure_ssl:" +:+ downloaded)))
            else ret (Some (item_result mod_url "partial"
                              ("direct_download_suspicious:" +:+ Path.name downloaded))))
           is_Exception
           (fun _ => ret None)
       else ret None).

(** [for _ in range(n)]: go to the files tab; the error of the last failed
    try, if none succeeded. *)
Fixpoint navigate (n : nat) (files_url : string) (nav_error : option string)
  : M (option string) :=
  match n with
  | O => ret nav_error
  | S n' =>
      try_except
        (page_call (Goto files_url) ;; ret None)
        is_Exception
        (fun e => wait_for_timeout 1200 ;; navigate n' files_url (Some (exn_str e)))
  end.

(** Where a step of the completion loop leaves control: at the next
    statement, at the next iteration, or out of [process_mod]. *)
Inductive flow : Type :=
| Go
| Continue
| Return (item : ItemResult).

Definition manual_retry : M flow :=
  set_manual_retry_used true ;;
  click_first_visible MANUAL_LINK_SELECTORS 5000 ;;
  wait_for_timeout 1000 ;;
  ret Continue.

(** [if saved_downloads: ...] *)
Definition saved_step (mod_url : string) : M flow :=
  let* saved := get (fun st => saved_downloads (locals st)) in
  match last saved with
  | Some target =>
      remove_download_listener ;;
      ret (Return (item_result mod_url "ok" ("download_saved:" +:+ target)))
  | None => ret Go
  end.

(** [if seen_downloads: ...] *)
Definition seen_step (mod_url : string) : M flow :=
  let* seen := get (fun st => seen_downloads (locals st)) in
  match last seen with
  | Some last_name =>
      if is_good_archive_name last_name then ret Go
      else
        let* used := get (fun st => manual_retry_used (locals st)) in
        if negb used then manual_retry
        else
          remove_download_listener ;;
          ret (Return (item_result mod_url "partial"
                         ("suspicious_download_filename:" +:+ last_name)))
  | None => ret Go
  end.

(** [try: started_text = ... except Exception: pass] *)
Definition started_step : M flow :=
  try_except
    (let started_text := First "text=Your download has started" in
     let* v := page_call (Count started_text) in
     let* count := as_int v in
     let* visible :=
       if 0 <? count then let* v := page_call (IsVisible started_text) in as_bool v
       else ret false in
     if visible then
       let* used := get (fun st => manual_retry_used (locals st)) in
       if negb used then manual_retry else ret Go
     else ret Go)
    is_Exception
    (fun _ => ret Go).

(** [downloaded = wait_for_new_completed_download(...)] and what follows. *)
Definition detect_step (mod_url downloads_dir : string) (baseline : gset string) : M flow :=
  let* downloaded := wait_for_new_completed_download downloads_dir baseline 1000 in
  match downloaded with
  | Some path =>
      remove_download_listener ;;
      ret (Return (item_result mod_url "ok" ("download_file_detected:" +:+ Path.name path)))
  | None => wait_for_timeout 500 ;; ret Continue
  end.

Definition and_then (m : M flow) (k : M flow) : M flow :=
  let* f := m in
  match f with
  | Go => k
  | other => ret other
  end.

Definition completion_body (mod_url downloads_dir : string) (baseline : gset string) : M flow :=
  and_then (saved_step mod_url)
    (and_then (seen_step mod_url)
       (and_then started_step (detect_step mod_url downloads_dir baseline))).

(** [while time.time() < deadline], at most [fuel] times, and the
    statements after the loop. *)
Fixpoint completion_loop (fuel deadline : nat) (mod_url downloads_dir : string)
    (baseline : gset string) : M ItemResult :=
  let* now := time_time in
  if (now <? deadline)%nat then
    match fuel with
    | O => diverge
    | S fuel' =>
        let* f := completion_body mod_url downloads_dir baseline in
        match f with
        | Return item => ret item
        | _ => completion_loop fuel' deadline mod_url downloads_dir baseline
        end
    end
  else
    remove_download_listener ;;
    let* errors := get (fun st => download_errors (locals st)) in
    match last errors with
    | Some e => ret (item_result mod_url "partial" ("download_save_error:" +:+ e))
    | None => ret (item_result mod_url "partial" "download_signal_not_detected_in_time")
    end.

(** The click flow from the first search for a slow/free download control
    on: the part of [process_mod] after [page.on("download", ...)]. *)
Definition click_sequence (mod_url : string) (click_timeout : nat) (verify_downloads : bool)
    (downloads_dir : string) (download_timeout : nat) (baseline : gset string)
  : M ItemResult :=
  let* slow_selector := click_first_visible SLOW_SELECTORS click_timeout in
  let* slow_selector :=
    match slow_selector with
    | Some s => ret (inl s)
    | None =>
        let* manual_selector := click_first_visible MANUAL_SELECTORS click_timeout in
        match manual_selector with
        | None =>
            remove_download_listener ;;
            ret (inr (item_result mod_url "fallback_needed" "manual_button_not_found"))
        | Some _ =>
            let* slow_selector := click_first_visible SLOW_SELECTORS click_timeout in
            match slow_selector with
            | None =>
                remove_download_listener ;;
                ret (inr (item_result mod_url "partial"
                            "download_confirmation_button_not_found"))
            | Some s => ret (inl s)
            end
        end
    end in
  match slow_selector with
  | inr item => ret item
  | inl _ =>
      if verify_downloads then
        let* now := time_time in
        let deadline := (now + Nat.max 3000 download_timeout)%nat in
        set_manual_retry_used false ;;
        completion_loop (Nat.max 3000 download_timeout / 500 + 1) deadline
          mod_url downloads_dir baseline
      else
        remove_download_listener ;;
        ret (item_result mod_url "ok" "manual_and_slow_clicked")
  end.

Definition reset_download_lists : M unit :=
  modify (with_locals (fun x =>
    {| listener := listener x; seen_downloads := []; saved_downloads := [];
       download_errors := []; manual_retry_used := manual_retry_used x |})).

(** The click fallback: the part of [process_mod] from the navigation on. *)
Definition click_fallback (mod_url files_url : string) (click_timeout : nat)
    (dry_run verify_downloads : bool) (downloads_dir : string) (download_timeout : nat)
  : M ItemResult :=
  let* nav_error := navigate 2 files_url None in
  match nav_error with
  | Some e => ret (item_result mod_url "fail" ("navigation_error: " +:+ e))
  | None =>
      click_first_visible COOKIE_SELECTORS 2000 ;;
      if dry_run then ret (item_result mod_url "dry_run" "navigation_only")
      else
        let* baseline :=
          if verify_downloads then
            path_mkdir downloads_dir ;;
            let* files := list_candidate_files downloads_dir in
            ret (list_to_set files : gset string)
          else ret (∅ : gset string) in
        reset_download_lists ;;
        page_on_download downloads_dir ;;
        click_sequence mod_url click_timeout verify_downloads downloads_dir
          download_timeout baseline
  end.

(** [verify_downloads and cookie_header and game_id and file_id and mod_id
    and domain_name]: the values the direct path runs with, when all are
    true. *)
Definition direct_guard (verify_downloads : bool) (cookie_header : option string)
    (game_id : option Z) (t : target) : option (string * Z * Z * Z * string) :=
  match cookie_header, game_id, t with
  | Some cookie, Some game, (Some domain_name, Some mod_id, Some file_id) =>
      if verify_downloads && Py.truthy_str cookie && Py.truthy_int game
         && Py.truthy_int file_id && Py.truthy_int mod_id && Py.truthy_str domain_name
      then Some (cookie, game, file_id, mod_id, domain_name)
      else None
  | _, _, _ => None
  end.

(** [mod_url if "file_id=" in mod_url else f"{mod_url}?tab=files"] *)
Definition files_tab_url (mod_url : string) : string :=
  if Py.contains mod_url "file_id=" then mod_url else mod_url +:+ "?tab=files".

(** [f"{domain_name}-{mod_id}-{file_id}.zip"] *)
Definition fallback_archive_name (domain_name : string) (mod_id file_id : Z) : string :=
  domain_name +:+ "-" +:+ Py.str_of_Z mod_id +:+ "-" +:+ Py.str_of_Z file_id +:+ ".zip".

Definition process_mod (mod_url : string) (click_timeout : nat)
    (dry_run verify_downloads : bool) (downloads_dir : string) (download_timeout : nat)
    (cookie_header : option string) (game_id : option Z) : M ItemResult :=
  let files_url := files_tab_url mod_url in
  let* t :=
    match parse_mod_target mod_url with
    | Some t => ret t
    | None => raise {| exn_cls := OtherException; exn_str := "Invalid IPv6 URL" |}
    end in
  let* direct :=
    match direct_guard verify_downloads cookie_header game_id t with
    | Some (cookie, game, file_id, mod_id, domain_name) =>
        direct_path mod_url cookie files_url game file_id downloads_dir
          (fallback_archive_name domain_name mod_id file_id)
    | None => ret None
    end in
  match direct with
  | Some item => ret item
  | None =>
      click_fallback mod_url files_url click_timeout dry_run verify_downloads
        downloads_dir download_timeout
  end.

(** *** Link Extractor *)

(** [links_from_collection_payload(body, domain)] for a body given by the
    links its walk builds (see [VBodies]). *)
Definition links_from_collection_payload (body_links : list string) : list string :=
  dedupe_links body_links.

(** [for candidate in payload_candidates]: the bodies parsed and the links
    gathered. *)
Fixpoint gather_links (candidates : list (option (list string))) (matched : nat)
    (links : list string) : nat * list string :=
  match candidates with
  | [] => (matched, links)
  | None :: rest => gather_links rest matched links
  | Some body :: rest =>
      gather_links rest (S matched) (links ++ links_from_collection_payload body)
  end.

(** The listener, the navigation and the scrolling of
    [collect_links_via_network] are one call that answers with the payload
    candidates the listener collected. *)
Definition collect_links_via_network (collection_url : string) : M ExtractionResult :=
  let* v := page_call (ObserveCollectionResponses collection_url) in
  let* payload_candidates :=
    match v with VBodies l => ret l | _ => type_error end in
  let '(matched_payloads, links) := gather_links payload_candidates 0 [] in
  let links := dedupe_links links in
  ret {| links := links; strategy := "network_graphql";
         details := {| payload_candidates_seen := length payload_candidates;
                       payloads_parsed := matched_payloads |} |}.

Definition extract_game_id : M (option Z) :=
  let* v := page_call PageContentGameId in
  match v with
  | VInt n => ret (Some n)
  | VNone => ret None
  | _ => type_error
  end.

(** [for href in links] of [extract_mod_links]; [None] is an [href] that is
    not a [str]. *)
Fixpoint normalized_hrefs (hrefs : list (option string)) : list string :=
  match hrefs with
  | [] => []
  | None :: rest => normalized_hrefs rest
  | Some href :: rest =>
      match normalize_mod_target_url href with
      | Some target => target :: normalized_hrefs rest
      | None => normalized_hrefs rest
      end
  end.

Definition extract_mod_links : M (list string) :=
  let* v := page_call ModHrefs in
  let* hrefs := match v with VOptStrs l => ret l | _ => type_error end in
  ret (dedupe_links (normalized_hrefs hrefs)).

(** [context.cookies(...)] joined into a header, empty on an [Exception]. *)
Definition cookie_header_of_session : M string :=
  try_except
    (let* v := page_call Cookies in
     let* cookies := match v with VPairs l => ret l | _ => type_error end in
     ret (Py.join "; " (List.map (fun c => fst c +:+ "=" +:+ snd c) cookies)))
    is_Exception
    (fun _ => ret "").

(** *** Updates of [run_data] *)

Definition set_extraction_network (d : ExtractionDetails) (r : RunData) : RunData :=
  {| run_id := run_id r; collection_url := collection_url r; queue_count := queue_count r;
     queue_first_5 := queue_first_5 r; results := results r;
     extraction_network := Some d;
     extraction_dom_links_found := extraction_dom_links_found r;
     extraction_zero_queue := extraction_zero_queue r; game_id := game_id r;
     interrupted := interrupted r; fatal_error := fatal_error r;
     install_summary := install_summary r |}.

Definition set_dom_links_found (n : nat) (r : RunData) : RunData :=
  {| run_id := run_id r; collection_url := collection_url r; queue_count := queue_count r;
     queue_first_5 := queue_first_5 r; results := results r;
     extraction_network := extraction_network r;
     extraction_dom_links_found := Some n;
     extraction_zero_queue := extraction_zero_queue r; game_id := game_id r;
     interrupted := interrupted r; fatal_error := fatal_error r;
     install_summary := install_summary r |}.

Definition set_zero_queue (r : RunData) : RunData :=
  {| run_id := run_id r; collection_url := collection_url r; queue_count := queue_count r;
     queue_first_5 := queue_first_5 r; results := results r;
     extraction_network := extraction_network r;
     extraction_dom_links_found := extraction_dom_links_found r;
     extraction_zero_queue := true; game_id := game_id r;
     interrupted := interrupted r; fatal_error := fatal_error r;
     install_summary := install_summary r |}.

Definition set_game_id (g : option Z) (r : RunData) : RunData :=
  {| run_id := run_id r; collection_url := collection_url r; queue_count := queue_count r;
     queue_first_5 := queue_first_5 r; results := results r;
     extraction_network := extraction_network r;
     extraction_dom_links_found := extraction_dom_links_found r;
     extraction_zero_queue := extraction_zero_queue r; game_id := g;
     interrupted := interrupted r; fatal_error := fatal_error r;
     install_summary := install_summary r |}.

Definition set_queue (links : list string) (r : RunData) : RunData :=
  {| run_id := run_id r; collection_url := collection_url r; queue_count := length links;
     queue_first_5 := take 5 links; results := results r;
     extraction_network := extraction_network r;
     extraction_dom_links_found := extraction_dom_links_found r;
     extraction_zero_queue := extraction_zero_queue r; game_id := game_id r;
     interrupted := interrupted r; fatal_error := fatal_error r;
     install_summary := install_summary r |}.

Definition append_result (item : ItemResult) (r : RunData) : RunData :=
  {| run_id := run_id r; collection_url := collection_url r; queue_count := queue_count r;
     queue_first_5 := queue_first_5 r; results := results r ++ [item];
     extraction_network := extraction_network r;
     extraction_dom_links_found := extraction_dom_links_found r;
     extraction_zero_queue := extraction_zero_queue r; game_id := game_id r;
     interrupted := interrupted r; fatal_error := fatal_error r;
     install_summary := install_summary r |}.

Definition set_interrupted (r : RunData) : RunData :=
  {| run_id := run_id r; collection_url := collection_url r; queue_count := queue_count r;
     queue_first_5 := queue_first_5 r; results := results r;
     extraction_network := extraction_network r;
     extraction_dom_links_found := extraction_dom_links_found r;
     extraction_zero_queue := extraction_zero_queue r; game_id := game_id r;
     interrupted := true; fatal_error := fatal_error r;
     install_summary := install_summary r |}.

Definition set_fatal_error (msg : string) (r : RunData) : RunData :=
  {| run_id := run_id r; collection_url := collection_url r; queue_count := queue_count r;
     queue_first_5 := queue_first_5 r; results := results r;
     extraction_network := extraction_network r;
     extraction_dom_links_found := extraction_dom_links_found r;
     extraction_zero_queue := extraction_zero_queue r; game_id := game_id r;
     interrupted := interrupted r; fatal_error := Some msg;
     install_summary := install_summary r |}.

Definition set_install_summary (s : InstallSummary) (r : RunData) : RunData :=
  {| run_id := run_id r; collection_url := collection_url r; queue_count := queue_count r;
     queue_first_5 := queue_first_5 r; results := results r;
     extraction_network := extraction_network r;
     extraction_dom_links_found := extraction_dom_links_found r;
     extraction_zero_queue := extraction_zero_queue r; game_id := game_id r;
     interrupted := interrupted r; fatal_error := fatal_error r;
     install_summary := Some s |}.

Definition initial_run_data (run_id collection_url : string) : RunData :=
  {| run_id := run_id; collection_url := collection_url; queue_count := 0;
     queue_first_5 := []; results := []; extraction_network := None;
     extraction_dom_links_found := None; extraction_zero_queue := false;
     game_id := None; interrupted := false; fatal_error := None;
     install_summary := None |}.

Definition update_run_data (f : RunData -> RunData) : M unit := modify (with_run_data f).

Definition count_status (s : string) (r : RunData) : Z :=
  Z.of_nat (length (List.filter (fun item => String.eqb (status item) s) (results r))).

(** [run_data.get("fatal_error")] as a condition: the key is there and its
    text is not empty. *)
Definition fatal_error_truthy (r : RunData) : bool :=
  match fatal_error r with
  | Some msg => Py.truthy_str msg
  | None => false
  end.

(** *** Install Stager (interface) *)

(** [key in seen], [seen.add(key)], [unique_downloads.append(p)] *)
Fixpoint unique_loop (downloaded_paths : list string) (seen : gset string)
    (unique_downloads : list string) : list string :=
  match downloaded_paths with
  | [] => unique_downloads
  | p :: rest =>
      let key := p in
      if bool_decide (key ∈ seen) then unique_loop rest seen unique_downloads
      else unique_loop rest ({[key]} ∪ seen) (unique_downloads ++ [p])
  end.

Definition unique_downloads (downloaded_paths : list string) : list string :=
  unique_loop downloaded_paths ∅ [].

(** [for archive in unique_downloads]; the extraction directory
    [stage_root / _safe_stem(archive.name)] is left to the world. *)
Fixpoint install_loop (archives : list string) (stage_root install_dir : string)
    (acc : InstallSummary) : M InstallSummary :=
  match archives with
  | [] => ret acc
  | archive :: rest =>
      let record st reason copied :=
        {| installed := installed acc + (if String.eqb st "installed" then 1 else 0);
           failed := failed acc + (if String.eqb st "failed" then 1 else 0);
           install_results := install_results acc ++
             [{| archive := archive; install_status := st; install_reason := reason;
                 copied_files := copied |}] |} in
      let* e := path_exists archive in
      if negb e then install_loop rest stage_root install_dir (record "failed" "archive_not_found" None)
      else
        let* v := call (ExtractArchive archive stage_root) in
        let* '(ok, method) :=
          match v with VResult ok detail => ret (ok, detail) | _ => type_error end in
        if negb ok then install_loop rest stage_root install_dir (record "failed" method None)
        else
          let* v := call (MergeTree archive stage_root install_dir) in
          let* copied := as_int v in
          install_loop rest stage_root install_dir
            (record "installed" ("method:" +:+ method) (Some copied))
  end.

Definition install_downloaded_archives (downloaded_paths : list string)
    (install_dir log_dir run_id : string) : M InstallSummary :=
  path_mkdir install_dir ;;
  let stage_root := Path.join log_dir ("nexus-collection-batch-install-" +:+ run_id) in
  path_mkdir stage_root ;;
  let* payload :=
    install_loop (unique_downloads downloaded_paths) stage_root install_dir
      {| installed := 0; failed := 0; install_results := [] |} in
  call (WriteInstallJson
          (Path.join log_dir ("nexus-collection-batch-install-" +:+ run_id +:+ ".json"))
          payload) ;;
  ret payload.

(** *** Run Orchestrator: the V3 runner ([auto_que.py]) *)

Record StageSettings : Type := {
  s_collection_url : string;
  s_downloads_dir : string;
  s_install_dir : string;
  s_cdp_url : string;
  s_log_dir : string;
  s_dry_run : bool;
  s_verify_downloads : bool;
  s_max_mods : Z;
  s_click_timeout : nat;
  s_delay : nat;
  s_download_timeout : nat;
  s_skip_install : bool
}.

Definition find_download_path (reason : string) : option string :=
  match
    List.find (fun prefix => Py.startswith reason prefix)
      ["download_saved:"; "direct_download:"; "direct_download_insecure_ssl:"]
  with
  | Some prefix => Some (Py.strip (Py.drop (String.length prefix) reason))
  | None => None
  end.

(** [for idx, mod_url in enumerate(links, start=idx)] of
    [run_download_stage]; [total] is [len(links)]. *)
Fixpoint download_loop (settings : StageSettings) (cookie_header : string)
    (game : option Z) (total : nat) (idx : nat) (links : list string)
    (downloaded_files : list string) : M (list string) :=
  match links with
  | [] => ret downloaded_files
  | mod_url :: rest =>
      let* item :=
        process_mod mod_url (s_click_timeout settings) (s_dry_run settings)
          (s_verify_downloads settings) (s_downloads_dir settings)
          (s_download_timeout settings) (Some cookie_header) game in
      let item := set_index (Z.of_nat idx) item in
      update_run_data (append_result item) ;;
      let saved := find_download_path (reason item) in
      let downloaded_files :=
        match saved with
        | Some p => downloaded_files ++ [p]
        | None => downloaded_files
        end in
      (if (idx <? total)%nat then wait_for_timeout (s_delay settings) else ret tt) ;;
      download_loop settings cookie_header game total (S idx) rest downloaded_files
  end.

(** The extraction, the fallback to the rendered links and the cap that
    both runners apply before they queue the links. *)
Definition extract_queue (collection_url : string) (max_mods : Z) : M (list string * option Z) :=
  let* extraction := collect_links_via_network collection_url in
  let links := links extraction in
  update_run_data (set_extraction_network (details extraction)) ;;
  let* game := extract_game_id in
  update_run_data (set_game_id game) ;;
  let* links :=
    match links with
    | [] =>
        let* dom_links := extract_mod_links in
        update_run_data (set_dom_links_found (length dom_links)) ;;
        ret dom_links
    | _ => ret links
    end in
  let links := if 0 <? max_mods then take (Z.to_nat max_mods) links else links in
  update_run_data (set_queue links) ;;
  ret (links, game).

Definition write_zero_queue_artifacts : M unit :=
  page_call ZeroQueueArtifacts ;; update_run_data set_zero_queue.

Definition run_download_stage (settings : StageSettings) : M (list string) :=
  let downloaded_files : list string := [] in
  page_call (ConnectOverCdp (s_cdp_url settings)) ;;
  let* cookie_header := cookie_header_of_session in
  let* '(links, game) := extract_queue (s_collection_url settings) (s_max_mods settings) in
  match links with
  | [] => write_zero_queue_artifacts ;; ret downloaded_files
  | _ =>
      let* downloaded_files :=
        download_loop settings cookie_header game (length links) 1 links downloaded_files in
      wait_for_timeout 400 ;;
      ret downloaded_files
  end.

Definition runner_summary (log_dir : string) (r : RunData) : list string :=
  [ "run_id: " +:+ run_id r;
    "collection_url: " +:+ collection_url r;
    "queue_count: " +:+ Py.str_of_Z (Z.of_nat (queue_count r));
    "ok: " +:+ Py.str_of_Z (count_status "ok" r);
    "partial: " +:+ Py.str_of_Z (count_status "partial" r);
    "fallback_needed: " +:+ Py.str_of_Z (count_status "fallback_needed" r);
    "fail: " +:+ Py.str_of_Z (count_status "fail" r);
    "dry_run: " +:+ Py.str_of_Z (count_status "dry_run" r);
    "install_ok: " +:+ Py.str_of_Z (from_option installed 0 (install_summary r));
    "install_fail: " +:+ Py.str_of_Z (from_option failed 0 (install_summary r));
    "json_log: " +:+ Path.join log_dir ("nexus-collection-batch-" +:+ run_id r +:+ ".json") ].

(** [write_run_logs] of [auto_que.py] *)
Definition runner_write_run_logs (log_dir : string) : M unit :=
  path_mkdir log_dir ;;
  let* r := get run_data in
  call (WriteJson (Path.join log_dir ("nexus-collection-batch-" +:+ run_id r +:+ ".json")) r) ;;
  call (WriteText (Path.join log_dir ("nexus-collection-batch-" +:+ run_id r +:+ ".txt"))
          (runner_summary log_dir r)) ;;
  ret tt.

(** Stage 1 of [auto_que.main]: the browser must answer on its debugging
    port, after a launch if need be. *)
Definition ensure_browser (settings : StageSettings) : M unit :=
  let* v := call (EnsureCdpReachable (s_cdp_url settings)) in
  let* '(ok, _) := match v with VResult ok d => ret (ok, d) | _ => type_error end in
  if ok then ret tt
  else
    let* v := call (TryLaunchBrowser (s_cdp_url settings)) in
    let* '(launched, launch_detail) :=
      match v with VResult ok d => ret (ok, d) | _ => type_error end in
    if negb launched then raise (RuntimeError launch_detail) else ret tt.

(** Stage 4: the handoff to the Install Stager. *)
Definition install_stage (settings : StageSettings) (downloaded_paths : list string) : M unit :=
  if s_skip_install settings || s_dry_run settings then ret tt
  else
    let* r := get run_data in
    let* install_summary :=
      install_downloaded_archives downloaded_paths (s_install_dir settings)
        (s_log_dir settings) (run_id r) in
    update_run_data (set_install_summary install_summary).

(** The body of the [try] of [auto_que.main]. *)
Definition runner_stages (settings : StageSettings) : M unit :=
  ensure_browser settings ;;
  let* downloaded_paths := run_download_stage settings in
  install_stage settings downloaded_paths.

(** The [try] statement of [auto_que.main] and what follows it; the value
    is the exit code. *)
Definition runner_guarded (settings : StageSettings) : M Z :=
  try_except2 (runner_stages settings)
    is_KeyboardInterrupt
    (fun _ => update_run_data (set_fatal_error "Interrupted by user (Ctrl+C)"))
    is_Exception
    (fun exc => update_run_data (set_fatal_error (exn_str exc))) ;;
  runner_write_run_logs (s_log_dir settings) ;;
  let* r := get run_data in
  if fatal_error_truthy r then ret 1 else ret 0.

(** [auto_que.main] from the resolved settings on ([resolved] is what
    [resolve_settings] came to; [stamp] is [now_stamp()]). *)
Definition runner_main (resolved : reply StageSettings) (stamp : string) : M Z :=
  match resolved with
  | Raised e =>
      if is_KeyboardInterrupt e then ret 130
      else if is_Exception e then ret 2
      else raise e
  | Returned settings =>
      call SaveConfig ;;
      update_run_data (fun _ => initial_run_data stamp (s_collection_url settings)) ;;
      runner_guarded settings
  end.

(** *** Run Orchestrator: the browser-first script ([nexus_browser_first.py]) *)

Record Args : Type := {
  a_collection_url : string;
  a_cdp_url : string;
  a_max_mods : Z;
  a_click_timeout : nat;
  a_delay : nat;
  a_dry_run : bool;
  a_log_dir : string;
  a_verify_downloads : bool;
  a_downloads_dir : string;
  a_download_timeout : nat
}.

(** [^https?://(?:www\.)?nexusmods\.com/games/[^/]+/collections/[^/?#]+(?:/mods)?/?$],
    [re.IGNORECASE] *)
Definition COLLECTION_URL_RE : Re.regex :=
  Re.Seq (Re.ilit "http") (Re.Seq (Re.Opt (Re.ichar "s")) (Re.Seq (Re.ilit "://")
  (Re.Seq (Re.Opt (Re.ilit "www.")) (Re.Seq (Re.ilit "nexusmods.com/games/")
  (Re.Seq (Re.Plus not_slash) (Re.Seq (Re.ilit "/collections/")
  (Re.Seq (Re.Plus (Re.Class (fun c => negb (Url.netloc_end c))))
  (Re.Seq (Re.Opt (Re.ilit "/mods")) (Re.Opt slash))))))))).

(** [None] stands for the [ValueError] of [urlparse]. *)
Definition clean_collection_url (url : string) : option string :=
  match Url.urlparse (Py.strip url) with
  | None => None
  | Some parsed =>
      let base :=
        Py.rstrip_set (Py.is_char "/")
          (Url.scheme parsed +:+ "://" +:+ Url.netloc parsed +:+ Url.path parsed) in
      if negb (Py.endswith base "/mods") then Some (base +:+ "/mods") else Some base
  end.

Definition build_summary_lines (json_log : string) (r : RunData) : list string :=
  [ "run_id: " +:+ run_id r;
    "collection_url: " +:+ collection_url r;
    "queue_count: " +:+ Py.str_of_Z (Z.of_nat (queue_count r));
    "ok: " +:+ Py.str_of_Z (count_status "ok" r);
    "fallback_needed: " +:+ Py.str_of_Z (count_status "fallback_needed" r);
    "partial: " +:+ Py.str_of_Z (count_status "partial" r);
    "fail: " +:+ Py.str_of_Z (count_status "fail" r);
    "dry_run: " +:+ Py.str_of_Z (count_status "dry_run" r);
    "json_log: " +:+ json_log ].

(** [write_run_logs] of [nexus_browser_first.py] *)
Definition write_run_logs (json_log txt_log : string) : M unit :=
  let* r := get run_data in
  let summary_lines := build_summary_lines json_log r in
  call (WriteJson json_log r) ;;
  call (WriteText txt_log summary_lines) ;;
  ret tt.

(** [for idx, mod_url in enumerate(links, start=idx)] of [main]. *)
Fixpoint main_loop (args : Args) (json_log txt_log cookie_header : string)
    (game : option Z) (total : nat) (idx : nat) (links : list string) : M unit :=
  match links with
  | [] => ret tt
  | mod_url :: rest =>
      let* item :=
        process_mod mod_url (a_click_timeout args) (a_dry_run args)
          (a_verify_downloads args) (a_downloads_dir args) (a_download_timeout args)
          (Some cookie_header) game in
      let item := set_index (Z.of_nat idx) item in
      update_run_data (append_result item) ;;
      write_run_logs json_log txt_log ;;
      (if (idx <? total)%nat then wait_for_timeout (a_delay args) else ret tt) ;;
      main_loop args json_log txt_log cookie_header game total (S idx) rest
  end.

(** The body of the [try] of [main]. *)
Definition main_body (args : Args) (json_log txt_log : string) : M unit :=
  page_call (ConnectOverCdp (a_cdp_url args)) ;;
  let* cookie_header := cookie_header_of_session in
  let* r := get run_data in
  let* '(links, game) := extract_queue (collection_url r) (a_max_mods args) in
  (match links with
   | [] => write_zero_queue_artifacts
   | _ => ret tt
   end) ;;
  main_loop args json_log txt_log cookie_header game (length links) 1 links ;;
  try_except (page_call BrowserClose ;; ret tt) is_Exception (fun _ => ret tt).

(** The [try] statement of [main] and what follows it; the value is the
    exit code. *)
Definition main_guarded (args : Args) (json_log txt_log : string) : M Z :=
  try_except2 (main_body args json_log txt_log)
    is_KeyboardInterrupt
    (fun _ =>
       update_run_data set_interrupted ;;
       update_run_data (set_fatal_error "Interrupted by user (Ctrl+C)"))
    is_Exception
    (fun e => update_run_data (set_fatal_error (exn_str e))) ;;
  write_run_logs json_log txt_log ;;
  let* r := get run_data in
  if interrupted r then ret 130
  else if fatal_error_truthy r then ret 1
  else ret 0.

(** [main]; [stamp] is [now_stamp()]. *)
Definition main (args : Args) (stamp : string) : M Z :=
  if negb (Re.re_match COLLECTION_URL_RE (Py.strip (a_collection_url args))) then ret 2
  else
    let log_dir := a_log_dir args in
    path_mkdir log_dir ;;
    let json_log := Path.join log_dir ("browser-first-" +:+ stamp +:+ ".json") in
    let txt_log := Path.join log_dir ("browser-first-" +:+ stamp +:+ ".txt") in
    let* cleaned :=
      match clean_collection_url (a_collection_url args) with
      | Some u => ret u
      | None => raise {| exn_cls := OtherException; exn_str := "Invalid IPv6 URL" |}
      end in
    update_run_data (fun _ => initial_run_data stamp cleaned) ;;
    main_guarded args json_log txt_log.

End Program.

Arguments St : clear implicits.
Arguments M : clear implicits.

(** ** Scripted worlds

    A world that counts the calls made so far and answers by a fixed table;
    every call takes no time beyond the waits, and [fired] lists the
    download events that fire during each Playwright call. *)

Definition scripted (answer : nat -> request -> reply value) (fired : nat -> list nat)
  : Env nat :=
  {| perform := fun w req => (answer w req, S w);
     lag := fun _ => O;
     downloads_fired := fun w => (fired w, w) |}.

Definition start (w : nat) : St nat :=
  {| world := w; clock := 0; trace := []; locals := fresh_locals;
     run_data := initial_run_data "" "" |}.

(** A page without any of the controls, on an empty disk. *)
Definition quiet (req : request) : reply value :=
  match req with
  | Count _ => Returned (VInt 0)
  | IsVisible _ => Returned (VBool false)
  | Exists _ => Returned (VBool false)
  | IsFile _ => Returned (VBool false)
  | IterDir _ => Returned (VStrs [])
  | StatSize _ | StatMtime _ => Returned (VInt 0)
  | SuggestedFilename _ => Returned (VStr "download")
  | ResolveDownloadUrl _ _ _ _ _ => Returned (VStr "https://files.example/mod.zip")
  | DirectDownloadToFolder _ dir name _ => Returned (VStr (Path.join dir name))
  | Cookies => Returned (VPairs [])
  | ObserveCollectionResponses _ => Returned (VBodies [])
  | ModHrefs => Returned (VOptStrs [])
  | ExtractArchive _ _ => Returned (VResult true "unpack_archive")
  | MergeTree _ _ _ => Returned (VInt 0)
  | EnsureCdpReachable _ | TryLaunchBrowser _ => Returned (VResult true "")
  | _ => Returned VNone
  end.

Definition stateless (answer : request -> reply value) : Env nat :=
  scripted (fun _ => answer) (fun _ => []).

(** The direct download stores its file under the name [file]. *)
Definition direct_world (file : string) : Env nat :=
  stateless (fun req =>
    match req with
    | DirectDownloadToFolder _ dir _ _ => Returned (VStr (Path.join dir file))
    | _ => quiet req
    end).

(** The links of a collection of two entries for one mod. *)
Definition collection_world : Env nat :=
  stateless (fun req =>
    match req with
    | ObserveCollectionResponses _ =>
        Returned (VBodies [Some ["https://nexusmods.com/skyrim/mods/10/";
                                 "http://www.nexusmods.com/skyrim/mods/10"]])
    | _ => quiet req
    end).

(** The first call of the run raises. *)
Definition raising_world (cls : exn_class) (msg : string) : Env nat :=
  stateless (fun req =>
    match req with
    | ConnectOverCdp _ => Raised {| exn_cls := cls; exn_str := msg |}
    | _ => quiet req
    end).

(** A collection of one mod whose page shows a slow download button. *)
Definition slow_button_world : Env nat :=
  stateless (fun req =>
    match req with
    | ObserveCollectionResponses _ =>
        Returned (VBodies [Some ["https://www.nexusmods.com/skyrim/mods/10"]])
    | Count (Locator "button:has-text('Slow download'):visible") => Returned (VInt 1)
    | IsVisible (Nth "button:has-text('Slow download'):visible" _) => Returned (VBool true)
    | _ => quiet req
    end).

(** A page that shows a manual download button and no slow/free one. *)
Definition manual_button_world : Env nat :=
  stateless (fun req =>
    match req with
    | Count (Locator "a:has-text('Manual download'):visible") => Returned (VInt 3)
    | IsVisible (Nth "a:has-text('Manual download'):visible" i) => Returned (VBool (1 <? i)%nat)
    | _ => quiet req
    end).

(** A page that shows a manual download button, and a slow download link
    once that button has been clicked: the world is whether it has been. *)
Definition manual_then_slow_world : Env bool :=
  {| perform := fun (clicked : bool) req =>
       match req with
       | Count (Locator "button:has-text('Manual'):visible") => (Returned (VInt 1), clicked)
       | IsVisible (Nth "button:has-text('Manual'):visible" _) => (Returned (VBool true), clicked)
       | Click (Nth "button:has-text('Manual'):visible" _) _ => (Returned VNone, true)
       | Count (Locator "a:has-text('Slow download'):visible") =>
           (Returned (VInt (if clicked then 1 else 0)), clicked)
       | IsVisible (Nth "a:has-text('Slow download'):visible" _) =>
           (Returned (VBool clicked), clicked)
       | _ => (quiet req, clicked)
       end;
     lag := fun _ => O;
     downloads_fired := fun clicked => ([], clicked) |}.

(** The state at the start of a run in the world [w]. *)
Definition start_in {W} (w : W) : St W :=
  {| world := w; clock := 0; trace := []; locals := fresh_locals;
     run_data := initial_run_data "" "" |}.

(** The same page; the browser stores [mod.zip] in the downloads directory
    after the baseline is taken, and no download event reaches the listener. *)
Definition file_appears_world : Env nat :=
  scripted (fun w req =>
    match req with
    | ObserveCollectionResponses _ =>
        Returned (VBodies [Some ["https://www.nexusmods.com/skyrim/mods/10"]])
    | Count (Locator "button:has-text('Slow download'):visible") => Returned (VInt 1)
    | IsVisible (Nth "button:has-text('Slow download'):visible" _) => Returned (VBool true)
    | Exists _ | IsFile _ => Returned (VBool true)
    | IterDir dir =>
        Returned (VStrs (if (w <? 60)%nat then [] else [Path.join dir "mod.zip"]))
    | _ => quiet req
    end) (fun _ => []).

Definition example_url : string :=
  "https://www.nexusmods.com/skyrim/mods/10?tab=files&file_id=5".

Definition certificate_error : exn :=
  {| exn_cls := OtherException;
     exn_str := "<urlopen error [SSL: CERTIFICATE_VERIFY_FAILED] certificate verify failed: unable to get local issuer certificate (_ssl.c:1007)>" |}.

(** The certificate of the download server does not verify. *)
Definition ssl_world : Env nat :=
  stateless (fun req =>
    match req with
    | ResolveDownloadUrl _ _ _ _ DefaultContext => Raised certificate_error
    | _ => quiet req
    end).

(** A downloads directory that holds [report.crdownload] and nothing else. *)
Definition crdownload_world : Env nat :=
  stateless (fun req =>
    match req with
    | Exists _ | IsFile _ => Returned (VBool true)
    | IterDir dir => Returned (VStrs [Path.join dir "report.crdownload"])
    | _ => quiet req
    end).

Definition example_settings (verify_downloads : bool) : StageSettings :=
  {| s_collection_url := "https://www.nexusmods.com/games/skyrim/collections/abc/mods";
     s_downloads_dir := "downloads"; s_install_dir := "mods";
     s_cdp_url := "http://127.0.0.1:9222"; s_log_dir := "logs";
     s_dry_run := false; s_verify_downloads := verify_downloads; s_max_mods := 0;
     s_click_timeout := 1000; s_delay := 1500; s_download_timeout := 5000;
     s_skip_install := false |}.

Definition example_args : Args :=
  {| a_collection_url := "https://www.nexusmods.com/games/skyrim/collections/abc";
     a_cdp_url := "http://127.0.0.1:9222"; a_max_mods := 0; a_click_timeout := 1000;
     a_delay := 1500; a_dry_run := false; a_log_dir := "logs";
     a_verify_downloads := true; a_downloads_dir := "downloads";
     a_download_timeout := 5000 |}.

(** A signed-in session on a collection of two mods whose direct downloads
    both store [mod.zip]. *)
Definition signed_in_world : Env nat :=
  stateless (fun req =>
    match req with
    | ObserveCollectionResponses _ =>
        Returned (VBodies [Some ["https://www.nexusmods.com/skyrim/mods/10?tab=files&file_id=5";
                                 "https://www.nexusmods.com/skyrim/mods/20?tab=files&file_id=6"]])
    | Cookies => Returned (VPairs [("sid", "1")])
    | PageContentGameId => Returned (VInt 110)
    | DirectDownloadToFolder _ dir _ _ => Returned (VStr (Path.join dir "mod.zip"))
    | _ => quiet req
    end).

(** ** Definitions the statements use *)

(** The classification the data model describes: a name of random-identifier
    shape that has no recognized archive extension. *)
Definition has_archive_extension (name : string) : bool :=
  Py.endswith_any (Py.lower name) [".zip"; ".7z"; ".rar"].

Definition suspicious_by_spec (name : string) : bool :=
  Re.re_match SUSPICIOUS_FILENAME_RE (Path.name name) && negb (has_archive_extension name).

(** The first occurrence of each element, in order. *)
Fixpoint keep_first (l : list string) : list string :=
  match l with
  | [] => []
  | x :: r => x :: filter (fun y => y <> x) (keep_first r)
  end.

(** What the canonical form of an accepted URL is built from: the path as
    the URL spells it, without trailing slashes, and the file id when it is
    positive. *)
Definition target_parts (url : string) : option (string * option Z) :=
  match Url.urlparse url with
  | None => None
  | Some parsed =>
      if bool_decide (Url.scheme parsed ∈ ["http"; "https"])
         && bool_decide (Py.lower (Url.netloc parsed) ∈ ["www.nexusmods.com"; "nexusmods.com"])
         && Re.re_match MOD_PATH_RE (Py.rstrip_set (Py.is_char "/") (Url.path parsed))
      then
        Some (Py.rstrip_set (Py.is_char "/") (Url.path parsed),
              match Url.parse_qs_get (Url.query parsed) "file_id" with
              | v :: _ =>
                  match py_int v with
                  | Some n => if 0 <? n then Some n else None
                  | None => None
                  end
              | [] => None
              end)
      else None
  end.

Definition canonical_of (parts : string * option Z) : string :=
  match snd parts with
  | Some n => site_base +:+ fst parts +:+ "?" +:+ Url.urlencode_tab_file_id n
  | None => site_base +:+ fst parts
  end.

(** The parts of an accepted URL: a path that matches [MOD_PATH_RE] as it
    stands, and a file id that is positive and within the limit of [int]. *)
Record canonical_parts (path : string) (fid : option Z) : Prop := {
  parts_match : Re.re_match MOD_PATH_RE path = true;
  parts_stripped : Py.rstrip_set (Py.is_char "/") path = path;
  parts_no_query : Py.existsb_str (Py.is_char "?") path = false;
  parts_no_hash : Py.existsb_str (Py.is_char "#") path = false;
  parts_safe : Py.existsb_str Url.is_unsafe path = false;
  parts_positive : match fid with Some n => 0 < n | None => True end;
  parts_short : match fid with
                | Some n => (String.length (Py.str_of_Z n) <= int_max_str_digits)%nat
                | None => True
                end
}.

(** [tame m]: [m] never turns the clock back, only adds to the record of
    calls, leaves [run_data] alone, and never runs out of iterations. *)
Definition tame {W A} (m : M W A) : Prop :=
  forall st r st', m st = (r, st') ->
    (clock st <= clock st')%nat /\ trace st `prefix_of` trace st' /\
    run_data st' = run_data st /\ r <> Diverge.

(** [yields m P]: every value that [m] returns satisfies [P]. *)
Definition yields {W A} (m : M W A) (P : A -> Prop) : Prop :=
  forall st a st', m st = (Ok a, st') -> P a.

(** [paced n m]: when the step [m] asks for the next iteration, at least
    [n] milliseconds have passed. *)
Definition paced {W} (n : nat) (m : M W flow) : Prop :=
  forall st st', m st = (Ok Continue, st') -> (clock st + n <= clock st')%nat.

(** The status and reason pairs that [process_mod] returns, one constructor
    per [return] statement. *)
Inductive resolution (verify_downloads dry_run : bool) : string -> string -> Prop :=
| direct_ok (downloaded : string) :
    verify_downloads = true ->
    is_good_archive_name (Path.name downloaded) = true ->
    resolution verify_downloads dry_run "ok" ("direct_download:" +:+ downloaded)
| direct_insecure_ok (downloaded : string) :
    verify_downloads = true ->
    is_good_archive_name (Path.name downloaded) = true ->
    resolution verify_downloads dry_run "ok" ("direct_download_insecure_ssl:" +:+ downloaded)
| direct_suspicious (downloaded : string) :
    verify_downloads = true ->
    is_good_archive_name (Path.name downloaded) = false ->
    resolution verify_downloads dry_run "partial"
      ("direct_download_suspicious:" +:+ Path.name downloaded)
| navigation_failed (nav_error : string) :
    resolution verify_downloads dry_run "fail" ("navigation_error: " +:+ nav_error)
| navigation_only :
    dry_run = true ->
    resolution verify_downloads dry_run "dry_run" "navigation_only"
| manual_button_not_found :
    dry_run = false ->
    resolution verify_downloads dry_run "fallback_needed" "manual_button_not_found"
| confirmation_button_not_found :
    dry_run = false ->
    resolution verify_downloads dry_run "partial" "download_confirmation_button_not_found"
| download_saved (target : string) :
    verify_downloads = true -> dry_run = false ->
    resolution verify_downloads dry_run "ok" ("download_saved:" +:+ target)
| suspicious_filename (last_name : string) :
    verify_downloads = true -> dry_run = false ->
    is_good_archive_name last_name = false ->
    resolution verify_downloads dry_run "partial"
      ("suspicious_download_filename:" +:+ last_name)
| file_detected (path : string) :
    verify_downloads = true -> dry_run = false ->
    is_temp_download path = false ->
    resolution verify_downloads dry_run "ok" ("download_file_detected:" +:+ Path.name path)
| save_error (e : string) :
    verify_downloads = true -> dry_run = false ->
    resolution verify_downloads dry_run "partial" ("download_save_error:" +:+ e)
| signal_not_detected :
    verify_downloads = true -> dry_run = false ->
    resolution verify_downloads dry_run "partial" "download_signal_not_detected_in_time"
| clicked_unverified :
    verify_downloads = false -> dry_run = false ->
    resolution verify_downloads dry_run "ok" "manual_and_slow_clicked".

(** An item of [process_mod] for [url]. *)
Definition resolved (url : string) (verify_downloads dry_run : bool) (item : ItemResult)
  : Prop :=
  index item = 0 /\ mod_url item = url /\
  resolution verify_downloads dry_run (status item) (reason item).

Definition resolved_flow (url : string) (verify_downloads dry_run : bool) (f : flow) : Prop :=
  match f with
  | Return item => resolved url verify_downloads dry_run item
  | _ => True
  end.

Definition resolved_option (url : string) (verify_downloads dry_run : bool)
    (o : option ItemResult) : Prop :=
  match o with
  | Some item => resolved url verify_downloads dry_run item
  | None => True
  end.

Definition STATUSES : list string := ["ok"; "partial"; "fail"; "fallback_needed"; "dry_run"].

(** [emits P m]: every call that [m] makes satisfies [P]. *)
Definition emits {W A} (P : request -> Prop) (m : M W A) : Prop :=
  forall st r st', m st = (r, st') -> exists t, trace st' = trace st ++ t /\ Forall P t.

(** A request that does not touch a locator, or touches one of the given
    selectors. *)
Definition searches (selectors : list string) (req : request) : Prop :=
  match req with
  | Count (Locator s) | IsVisible (Nth s _) | Click (Nth s _) _ => s ∈ selectors
  | Count _ | IsVisible _ | Click _ _ => False
  | _ => True
  end.

(** A request of the direct path. *)
Definition direct_request (ctx : ssl_context) (req : request) : Prop :=
  match req with
  | ResolveDownloadUrl _ _ _ _ c | DirectDownloadToFolder _ _ _ c => c = ctx
  | _ => False
  end.

(** The requests that the download listener makes. *)
Definition listener_request (req : request) : Prop :=
  match req with
  | SuggestedFilename _ | Mkdir _ | Exists _ | SaveAs _ _ => True
  | _ => False
  end.

(** The selectors whose locators a record of calls counts, in order. *)
Definition counted (t : list request) : list string :=
  omap (fun req => match req with Count (Locator s) => Some s | _ => None end) t.

(** [k] rounds over the selectors, each in the order of the list. *)
Definition rounds (k : nat) (selectors : list string) : list string :=
  mjoin (replicate k selectors).

(** What a search for a control among [selectors] that ran from [st] to
    [st1] and came to [r] has done on the page: it touched the locators of
    these selectors only, and counted them in the order of the list, round
    after round.  A search that found nothing made whole rounds, at least
    one when the timeout is not zero, and lasted for the timeout; a search
    that returns a selector stopped the last round at it, and ended with a
    click on one of its first eight targets, after which only the download
    listener was at work. *)
Definition searched {W} (selectors : list string) (timeout : nat) (st st1 : St W)
    (r : outcome (option string)) : Prop :=
  exists t,
    trace st1 = trace st ++ t /\ Forall (searches selectors) t /\
    match r with
    | Ok None =>
        (exists k, counted t = rounds k selectors /\ (0 < timeout -> 0 < k)%nat) /\
        (clock st + timeout <= clock st1)%nat
    | Ok (Some s) =>
        exists k pre post j,
          selectors = pre ++ s :: post /\
          counted t = rounds k selectors ++ pre ++ [s] /\
          (j < 8)%nat /\
          exists t0 tl, t = t0 ++ Click (Nth s j) 1500 :: tl /\ Forall listener_request tl
    | Raise _ => True
    | Diverge => False
    end.

(** A predicate on requests that lets the listener's requests pass. *)
Definition passes_listener (P : request -> Prop) : Prop :=
  forall req, listener_request req -> P req.

(** [keeps_results m]: [m] leaves the results of the run alone. *)
Definition keeps_results {W A} (m : M W A) : Prop :=
  forall st r st', m st = (r, st') -> results (run_data st') = results (run_data st).

(** The paths that the download stage gathers from the reasons of its items. *)
Definition gathered_paths (items : list ItemResult) : list string :=
  omap (fun item => find_download_path (reason item)) items.

(** ** More of the program *)

(** What the install loop keeps: every entry is [installed] with a count of
    copied files or [failed] without one, and the two counters count the
    entries of each kind. *)
Definition install_counted (s : InstallSummary) : Prop :=
  Forall (fun item =>
            install_status item = "installed" /\ is_Some (copied_files item) \/
            install_status item = "failed" /\ copied_files item = None)
         (install_results s) /\
  installed s
  = Z.of_nat (length (filter (fun item => install_status item = "installed")
                        (install_results s))) /\
  failed s
  = Z.of_nat (length (filter (fun item => install_status item = "failed")
                        (install_results s))).


(** [requested st st' req]: [req] is among the calls made from [st] to
    [st']. *)
Definition requested {W} (st st' : St W) (req : request) : Prop :=
  exists t, trace st' = trace st ++ t /\ req ∈ t.

(** The calls of a search for a control among [selectors]: on the locators
    of these selectors, and the wait between two rounds. *)
Definition polls (selectors : list string) (req : request) : Prop :=
  match req with
  | Count (Locator s) | IsVisible (Nth s _) | Click (Nth s _) _ => s ∈ selectors
  | WaitForTimeout _ => True
  | _ => False
  end.

(** [calm P m]: run without a registered download listener, [m] registers
    none and makes calls of [P] only. *)
Definition calm {W A} (P : request -> Prop) (m : M W A) : Prop :=
  forall st r st', listener (locals st) = None -> m st = (r, st') ->
    listener (locals st') = None /\
    exists t, trace st' = trace st ++ t /\ Forall P t.

(** The calls that [process_mod] makes before it registers its download
    listener: the direct path, the navigation to [files_url], the search
    for a cookie banner, and the baseline of the downloads directory. *)
Definition opening_request (files_url downloads_dir : string) (req : request) : Prop :=
  match req with
  | ResolveDownloadUrl _ referer _ _ _ => referer = files_url
  | DirectDownloadToFolder _ dir _ _ => dir = downloads_dir
  | Goto u => u = files_url
  | WaitForTimeout _ => True
  | Count (Locator s) | IsVisible (Nth s _) | Click (Nth s _) _ => s ∈ COOKIE_SELECTORS
  | Mkdir p | Exists p | IterDir p => p = downloads_dir
  | IsFile _ => True
  | _ => False
  end.

(** The calls of a dry run: as before the listener, and nothing in the
    downloads directory beyond what the direct path stores when it is
    open. *)
Definition dry_run_request (direct : bool) (files_url : string) (req : request) : Prop :=
  match req with
  | ResolveDownloadUrl _ referer _ _ _ => direct = true /\ referer = files_url
  | DirectDownloadToFolder _ _ _ _ => direct = true
  | Goto u => u = files_url
  | WaitForTimeout _ => True
  | Count (Locator s) | IsVisible (Nth s _) | Click (Nth s _) _ => s ∈ COOKIE_SELECTORS
  | _ => False
  end.

(** Whether [process_mod] takes the direct path for [mod_url]. *)
Definition direct_path_open (verify_downloads : bool) (cookie_header : option string)
    (game_id : option Z) (mod_url : string) : bool :=
  match parse_mod_target mod_url with
  | Some t =>
      match direct_guard verify_downloads cookie_header game_id t with
      | Some _ => true
      | None => false
      end
  | None => false
  end.

(** What one download event leaves in the lists of [process_mod]. *)
Definition recorded (d : nat) (before after : Locals) (last_call : option request) : Prop :=
  listener after = listener before /\
  manual_retry_used after = manual_retry_used before /\
  exists name,
    seen_downloads after = seen_downloads before ++ [name] /\
    ((exists target,
        saved_downloads after = saved_downloads before ++ [target] /\
        download_errors after = download_errors before /\
        last_call = Some (SaveAs d target)) \/
     (exists msg,
        saved_downloads after = saved_downloads before /\
        download_errors after = download_errors before ++ [name +:+ ": " +:+ msg])).


(** A collection of seven mods, and a dry run over it. *)
Definition seven_mods : list string :=
  map (fun n => "https://www.nexusmods.com/skyrim/mods/" +:+ Py.str_of_Z n)
    [11; 12; 13; 14; 15; 16; 17].

Definition seven_mods_world : Env nat :=
  stateless (fun req =>
    match req with
    | ObserveCollectionResponses _ => Returned (VBodies [Some seven_mods])
    | _ => quiet req
    end).

Definition dry_run_settings : StageSettings :=
  {| s_collection_url := "https://www.nexusmods.com/games/skyrim/collections/abc/mods";
     s_downloads_dir := "downloads"; s_install_dir := "mods";
     s_cdp_url := "http://127.0.0.1:9222"; s_log_dir := "logs";
     s_dry_run := true; s_verify_downloads := false; s_max_mods := 0;
     s_click_timeout := 1000; s_delay := 1500; s_download_timeout := 5000;
     s_skip_install := false |}.

(** A site whose name does not resolve at first and that refuses the
    connection from the third call of the run on. *)
Definition flaky_site_world : Env nat :=
  scripted (fun w req =>
    match req with
    | Goto _ =>
        Raised {| exn_cls := PlaywrightError;
                  exn_str := if (w <? 2)%nat then "net::ERR_NAME_NOT_RESOLVED"
                             else "net::ERR_CONNECTION_REFUSED" |}
    | _ => quiet req
    end) (fun _ => []).

(** [unhooked env st]: no download listener is left, unless the request to
    remove it failed with an [Exception] (which the code lets pass). *)
Definition unhooked {W} (env : Env W) (st : St W) : Prop :=
  listener (locals st) = None \/
  exists w w' e, perform env w RemoveListener = (Raised e, w') /\ is_Exception e = true.

(** The page of [slow_button_world], where the listener cannot be removed. *)
Definition stuck_listener_world : Env nat :=
  stateless (fun req =>
    match req with
    | Count (Locator "button:has-text('Slow download'):visible") => Returned (VInt 1)
    | IsVisible (Nth "button:has-text('Slow download'):visible" _) => Returned (VBool true)
    | RemoveListener =>
        Raised {| exn_cls := PlaywrightError; exn_str := "Target page has been closed" |}
    | _ => quiet req
    end).

(** A site that cannot be reached: every navigation fails. *)
Definition unreachable_world : Env nat :=
  stateless (fun req =>
    match req with
    | Goto _ => Raised {| exn_cls := PlaywrightError; exn_str := "net::ERR_CONNECTION_REFUSED" |}
    | _ => quiet req
    end).

(** *** Install Stager: [_safe_stem] *)

(** [str.isalnum] on code points below 256: the ASCII digits and letters,
    the ordinal indicators and the micro sign, the superscript digits and
    the vulgar fractions, and the Latin-1 letters. *)
Definition is_alnum (c : ascii) : bool :=
  Py.is_digit c || Py.is_upper_az c || Py.is_lower_az c ||
  (Py.code c =? 170)%nat || Py.between 178 179 c || (Py.code c =? 181)%nat ||
  Py.between 185 186 c || Py.between 188 190 c ||
  Py.between 192 214 c || Py.between 216 246 c || Py.between 248 255 c.

(** [ch.isalnum() or ch in ("-", "_", ".")] *)
Definition stem_char (c : ascii) : bool :=
  is_alnum c || Py.is_char "-" c || Py.is_char "_" c || Py.is_char "." c.

Definition dot_or_underscore (c : ascii) : bool := Py.is_char "." c || Py.is_char "_" c.

(** [_safe_stem(name)] of [v3_install.py] *)
Definition safe_stem (name : string) : string :=
  let keep := Url.map_chars (fun ch => if stem_char ch then ch else "_"%char) name in
  let stripped := Py.rstrip_set dot_or_underscore (Py.lstrip_set dot_or_underscore keep) in
  if Py.truthy_str stripped then stripped else "archive".

(** The first and the last character of a string. *)
Definition first_char (s : string) : option ascii :=
  match s with
  | EmptyString => None
  | String c _ => Some c
  end.

Fixpoint last_char (s : string) : option ascii :=
  match s with
  | EmptyString => None
  | String c EmptyString => Some c
  | String _ s' => last_char s'
  end.

(** What a safe stem is: not empty, made of letters, digits, hyphens,
    underscores and dots, with a letter, a digit or a hyphen at both
    ends. *)
Record is_safe_stem (s : string) : Prop := {
  stem_chars : Py.forallb_str stem_char s = true;
  stem_first : exists c, first_char s = Some c /\ dot_or_underscore c = false;
  stem_last : exists c, last_char s = Some c /\ dot_or_underscore c = false
}.

(** The candidates of [unique_path]: the path itself, then
    [stem (i)suffix] beside it, for [i] = 1, 2, ... *)
Definition unique_candidate (path : string) (i : nat) : string :=
  match i with
  | O => path
  | S _ =>
      Path.with_name path
        (Path.stem path +:+ " (" +:+ Py.str_of_Z (Z.of_nat i) +:+ ")" +:+ Path.suffix path)
  end.

(** A downloads directory that holds [mod.zip] and [mod (1).zip]. *)
Definition taken_world : Env nat :=
  stateless (fun req =>
    match req with
    | Exists "downloads/mod.zip" | Exists "downloads/mod (1).zip" => Returned (VBool true)
    | _ => quiet req
    end).

(** [steady m]: [m] only adds to the record of calls, and leaves the marks
    [interrupted] and [fatal_error] of the report alone. *)
Definition steady {W A} (m : M W A) : Prop :=
  forall st r st', m st = (r, st') ->
    trace st `prefix_of` trace st' /\
    interrupted (run_data st') = interrupted (run_data st) /\
    fatal_error (run_data st') = fatal_error (run_data st).

(** *** Configuration ([user_config.py]) *)

Module Config.

(** A value as [json.loads] returns it; a number is kept as its text. *)
#[local] Unset Elimination Schemes.
Inductive json : Type :=
| JNull
| JBool (b : bool)
| JNumber (text : string)
| JString (s : string)
| JArray (items : list json)
| JObject (fields : gmap string json).
#[local] Set Elimination Schemes.

Record AppConfig : Type := {
  collection_url : option string;
  downloads_dir : option string;
  install_dir : option string;
  cdp_url : string
}.

(** [AppConfig()] *)
Definition default : AppConfig :=
  {| collection_url := None; downloads_dir := None; install_dir := None;
     cdp_url := "http://127.0.0.1:9222" |}.

(** [_path_or_none(value)]; [value] is [None] when the key is missing. *)
Definition path_or_none (value : option json) : option string :=
  match value with
  | Some (JString s) =>
      let text := Py.strip s in
      if negb (Py.truthy_str text) then None else Some text
  | _ => None
  end.

(** [raw.get(key) if isinstance(raw.get(key), str) else fallback] *)
Definition str_or (value : option json) (fallback : option string) : option string :=
  match value with
  | Some (JString s) => Some s
  | _ => fallback
  end.

(** [load_config(path)]: [found] is [path.exists()], and [content] is what
    [json.loads(path.read_text(...))] returns, [None] when it raises an
    [Exception].  The result [None] stands for the [AttributeError] of
    [raw.get] on a value that is not a [dict]. *)
Definition load_config (found : bool) (content : option json) : option AppConfig :=
  if negb found then Some default
  else
    match content with
    | None => Some default
    | Some (JObject raw) =>
        Some {| collection_url := str_or (raw !! "collection_url") None;
                downloads_dir := path_or_none (raw !! "downloads_dir");
                install_dir := path_or_none (raw !! "install_dir");
                cdp_url := from_option id "http://127.0.0.1:9222"
                             (str_or (raw !! "cdp_url") None) |}
    | Some _ => None
    end.

(** [payload] of [save_config]; a path is always truthy. *)
Definition payload (config : AppConfig) : gmap string json :=
  <["collection_url" :=
      JString (match collection_url config with
               | Some u => if Py.truthy_str u then u else ""
               | None => ""
               end)]>
  (<["downloads_dir" :=
      JString (match downloads_dir config with Some p => p | None => "" end)]>
  (<["install_dir" :=
      JString (match install_dir config with Some p => p | None => "" end)]>
  (<["cdp_url" := JString (cdp_url config)]> ∅))).

End Config.

(** * Properties *)

(** ** Strings *)

#[local] Arguments String.append !s1 s2 /.

Lemma append_nil_r (s : string) : s +:+ "" = s.
Proof. induction s as [|c s IH]; simpl; [done | by rewrite IH]. Qed.

Lemma append_assoc (a b c : string) : (a +:+ b) +:+ c = a +:+ (b +:+ c).
Proof. induction a as [|x a IH]; simpl; [done | by rewrite IH]. Qed.

Lemma append_inv_head (a b c : string) : a +:+ b = a +:+ c -> b = c.
Proof. induction a as [|x a IH]; simpl; [done | intros [= H]; auto]. Qed.

Lemma existsb_str_app (p : ascii -> bool) (a b : string) :
  Py.existsb_str p (a +:+ b) = Py.existsb_str p a || Py.existsb_str p b.
Proof. induction a as [|x a IH]; simpl; [done | by rewrite IH, orb_assoc]. Qed.

Lemma startswith_app (p s : string) : Py.startswith (p +:+ s) p = true.
Proof.
  induction p as [|c p IH]; simpl; [done |]. by rewrite Ascii.eqb_refl, IH.
Qed.

Lemma drop_app (p s : string) : Py.drop (String.length p) (p +:+ s) = s.
Proof. induction p as [|c p IH]; simpl; [by destruct s | done]. Qed.

(** A run that comes to [a] has come to [a] in its final state. *)
Lemma run_eq {A B} (x : A * B) (a : A) : fst x = a -> x = (a, snd x).
Proof. destruct x. simpl. by intros ->. Qed.

Lemma run_eq2 {A B} (x : A * B) (a : A) (b : B) : fst x = a -> snd x = b -> x = (a, b).
Proof. destruct x. simpl. congruence. Qed.

(** ** C3: suspicious file names *)

Lemma is_good_archive_name_ext (name : string) :
  is_good_archive_name name = has_archive_extension name.
Proof.
  unfold is_good_archive_name, has_archive_extension.
  destruct (Py.endswith_any _ _); [done |].
  by destruct (Re.re_match _ _).
Qed.

(** A file name that the direct path stores is good exactly when it has
    an archive extension. *)
Lemma direct_path_classifies {W} (env : Env W) url cookie files_url game file dir fallback
    st downloaded st1 :
  direct_attempt env cookie files_url game file dir fallback DefaultContext st
    = (Ok downloaded, st1) ->
  direct_path env url cookie files_url game file dir fallback st =
    (Ok (Some (if has_archive_extension (Path.name downloaded)
               then item_result url "ok" ("direct_download:" +:+ downloaded)
               else item_result url "partial"
                      ("direct_download_suspicious:" +:+ Path.name downloaded))), st1).
Proof.
  intros H. unfold direct_path, try_except, bind. rewrite H.
  rewrite is_good_archive_name_ext. by destruct (has_archive_extension _).
Qed.

(** C3 (as stated, refuted): [readme.txt] is not of random-identifier shape,
    yet it is not a good archive name, and the direct path returns it as
    [partial] with the suspicious-filename reason. *)
Lemma C3_counterexample :
  suspicious_by_spec "readme.txt" = false /\
  is_good_archive_name "readme.txt" = false /\
  fst (direct_path (direct_world "readme.txt") "u" "c" "f" 1 2 "downloads" "x.zip" (start 0))
  = Ok (Some (item_result "u" "partial" "direct_download_suspicious:readme.txt")).
Proof. repeat split; vm_compute; reflexivity. Qed.

(** C3 (amended): a file name is treated as suspicious exactly when it has
    no recognized archive extension (.zip, .7z, .rar, in any letter case),
    whether or not it has the shape of a random identifier; in the direct
    path a resulting name with such an extension gives [ok] and every other
    name gives [partial] with the suspicious-filename reason. *)
Theorem C3_suspicious_iff_no_archive_extension {W} (env : Env W) :
  (forall name, is_good_archive_name name = has_archive_extension name) /\
  (forall url cookie files_url game file dir fallback st downloaded st1,
     direct_attempt env cookie files_url game file dir fallback DefaultContext st
       = (Ok downloaded, st1) ->
     direct_path env url cookie files_url game file dir fallback st =
       (Ok (Some (if has_archive_extension (Path.name downloaded)
                  then item_result url "ok" ("direct_download:" +:+ downloaded)
                  else item_result url "partial"
                         ("direct_download_suspicious:" +:+ Path.name downloaded))), st1)).
Proof.
  split; [apply is_good_archive_name_ext |].
  intros. by apply direct_path_classifies.
Qed.

Lemma C3_witness :
  fst (direct_path (direct_world "Mod.ZIP") "u" "c" "f" 1 2 "downloads" "x.zip" (start 0))
  = Ok (Some (item_result "u" "ok" ("direct_download:" +:+ Path.join "downloads" "Mod.ZIP"))).
Proof.
  rewrite (proj2 (C3_suspicious_iff_no_archive_extension (direct_world "Mod.ZIP"))
             "u" "c" "f" 1 2 "downloads" "x.zip" (start 0)
             (Path.join "downloads" "Mod.ZIP")
             (snd (direct_attempt (direct_world "Mod.ZIP") "c" "f" 1 2 "downloads" "x.zip"
                     DefaultContext (start 0)))).
  - vm_compute. reflexivity.
  - apply run_eq. vm_compute. reflexivity.
Defined.

(** ** C8: de-duplication *)

Lemma filter_all {A} (P : A -> Prop) `{!forall x, Decision (P x)} (l : list A) :
  Forall P l -> filter P l = l.
Proof.
  induction 1 as [|x l Hx _ IH]; [done |].
  by rewrite filter_cons, decide_True, IH.
Qed.

Lemma keep_first_filter (P : string -> Prop) `{!forall x, Decision (P x)} (l : list string) :
  keep_first (filter P l) = filter P (keep_first l).
Proof.
  induction l as [|x l IH]; [done |].
  rewrite filter_cons. destruct (decide (P x)) as [HP|HP]; simpl.
  - rewrite filter_cons, decide_True by done. f_equal.
    rewrite IH, !list_filter_filter. apply list_filter_iff. tauto.
  - rewrite filter_cons, decide_False by done.
    rewrite IH, list_filter_filter. apply list_filter_iff.
    intros y. split; [| tauto]. intros Hy. split; [done |]. congruence.
Qed.

Lemma keep_first_elem (x : string) (l : list string) : x ∈ keep_first l <-> x ∈ l.
Proof.
  induction l as [|y l IH]; simpl; [done |].
  rewrite !elem_of_cons, list_elem_of_filter, IH.
  destruct (decide (x = y)); tauto.
Qed.

Lemma keep_first_NoDup (l : list string) : NoDup (keep_first l).
Proof.
  induction l as [|x l IH]; simpl; [constructor |].
  constructor.
  - rewrite list_elem_of_filter. tauto.
  - by apply NoDup_filter.
Qed.

Lemma keep_first_id (l : list string) : NoDup l -> keep_first l = l.
Proof.
  induction 1 as [|x l Hx _ IH]; simpl; [done |].
  rewrite IH. f_equal. apply filter_all, Forall_forall. intros y Hy ->. done.
Qed.

Lemma dedupe_loop_keep_first (links : list string) (seen : gset string) (out : list string) :
  dedupe_loop links seen out =
  out ++ keep_first (filter (fun x => x ∉ seen) (omap normalize_mod_target_url links)).
Proof.
  revert seen out. induction links as [|link links IH]; intros seen out; simpl.
  - by rewrite app_nil_r.
  - destruct (normalize_mod_target_url link) as [canonical|]; [|apply IH].
    rewrite filter_cons. case_bool_decide as Hin.
    + rewrite decide_False by tauto. apply IH.
    + rewrite decide_True by done. rewrite IH, <- app_assoc. simpl. do 2 f_equal.
      rewrite <- keep_first_filter, list_filter_filter. f_equal.
      apply list_filter_iff. intros y.
      rewrite not_elem_of_union, elem_of_singleton. tauto.
Qed.

Lemma dedupe_links_keep_first (links : list string) :
  dedupe_links links = keep_first (omap normalize_mod_target_url links).
Proof.
  unfold dedupe_links. rewrite dedupe_loop_keep_first. simpl. f_equal.
  apply filter_all, Forall_forall. intros x _. apply not_elem_of_empty.
Qed.

Lemma dedupe_links_NoDup (links : list string) : NoDup (dedupe_links links).
Proof. rewrite dedupe_links_keep_first. apply keep_first_NoDup. Qed.

Lemma dedupe_links_elem (c : string) (links : list string) :
  c ∈ dedupe_links links <-> exists link, link ∈ links /\ normalize_mod_target_url link = Some c.
Proof.
  rewrite dedupe_links_keep_first, keep_first_elem, list_elem_of_omap. naive_solver.
Qed.

(** ** C4: canonical strings and identity *)

Lemma split_once_none (p : ascii -> bool) (s a : string) :
  Py.split_once p s = (a, None) -> s = a /\ Py.existsb_str p s = false.
Proof.
  revert a. induction s as [|c s IH]; simpl; intros a H.
  - by injection H as <-.
  - destruct (p c) eqn:Hc; [done |].
    destruct (Py.split_once p s) as [a' b']. injection H as <- ->.
    destruct (IH a' eq_refl) as [-> ->]. done.
Qed.

Lemma split_once_some (p : ascii -> bool) (s a b : string) :
  Py.split_once p s = (a, Some b) ->
  exists c, p c = true /\ s = a +:+ String c b /\ Py.existsb_str p a = false.
Proof.
  revert a. induction s as [|c s IH]; simpl; intros a H; [done |].
  destruct (p c) eqn:Hc.
  - injection H as <- <-. by exists c.
  - destruct (Py.split_once p s) as [a' b']. injection H as <- ->.
    destruct (IH a' eq_refl) as (c' & Hc' & -> & Ha). exists c'. simpl. by rewrite Hc.
Qed.

Lemma split_once_fst (p : ascii -> bool) (s : string) :
  Py.existsb_str p (fst (Py.split_once p s)) = false.
Proof.
  destruct (Py.split_once p s) as [a [b|]] eqn:H; simpl.
  - by destruct (split_once_some _ _ _ _ H) as (? & ? & ? & ?).
  - by destruct (split_once_none _ _ _ H) as [<- ?].
Qed.

Lemma split_once_app (p : ascii -> bool) (a : string) (c : ascii) (b : string) :
  Py.existsb_str p a = false -> p c = true ->
  Py.split_once p (a +:+ String c b) = (a, Some b).
Proof.
  intros Ha Hc. induction a as [|x a IH]; simpl in *.
  - by rewrite Hc.
  - apply orb_false_iff in Ha as [-> Ha]. by rewrite IH.
Qed.

Lemma split_once_absent (p : ascii -> bool) (a : string) :
  Py.existsb_str p a = false -> Py.split_once p a = (a, None).
Proof.
  intros Ha. induction a as [|x a IH]; simpl in *; [done |].
  apply orb_false_iff in Ha as [-> Ha]. by rewrite IH.
Qed.

Lemma rsplit_last_app (p : ascii -> bool) (s : string) :
  fst (Py.rsplit_last p s) +:+ snd (Py.rsplit_last p s) = s.
Proof.
  induction s as [|c s IH]; simpl; [done |].
  destruct (Py.rsplit_last p s) as [[|h0 h] t]; simpl in *.
  - destruct (p c); simpl; by rewrite IH.
  - by rewrite IH.
Qed.

Lemma rstrip_set_prefix (p : ascii -> bool) (s : string) :
  exists t, s = Py.rstrip_set p s +:+ t.
Proof.
  induction s as [|c s [t IH]]; simpl; [by exists "" |].
  destruct (Py.rstrip_set p s) as [|r0 r] eqn:Hr.
  - destruct (p c); simpl in *; [by exists (String c s) | by exists s].
  - exists t. simpl in *. by rewrite <- IH.
Qed.

Lemma rstrip_set_chars (p q : ascii -> bool) (s : string) :
  Py.existsb_str q s = false -> Py.existsb_str q (Py.rstrip_set p s) = false.
Proof.
  destruct (rstrip_set_prefix p s) as [t Ht]. rewrite Ht at 1.
  rewrite existsb_str_app. by intros [? ?]%orb_false_iff.
Qed.

Lemma split_params_chars (q : ascii -> bool) (url : string) :
  Py.existsb_str q url = false -> Py.existsb_str q (fst (Url.split_params url)) = false.
Proof.
  intros Hq. unfold Url.split_params.
  pose proof (rsplit_last_app (Py.is_char "/") url) as Happ.
  destruct (Py.rsplit_last _ url) as [h t]. simpl in Happ.
  destruct (Py.split_once _ t) as [a [b|]] eqn:Ht; simpl; [|done].
  apply split_once_some in Ht as (c & _ & -> & _).
  rewrite <- Happ in Hq. rewrite !existsb_str_app in Hq. simpl in Hq.
  rewrite existsb_str_app.
  apply orb_false_iff in Hq as [-> Hq]. apply orb_false_iff in Hq as [-> _]. done.
Qed.

Lemma span_until_app (p : ascii -> bool) (s : string) :
  fst (Url.span_until p s) +:+ snd (Url.span_until p s) = s.
Proof.
  induction s as [|c s IH]; simpl; [done |].
  destruct (p c); [done |]. destruct (Url.span_until p s). simpl in *. by rewrite IH.
Qed.

Lemma existsb_str_app_r (q : ascii -> bool) (a b : string) :
  Py.existsb_str q (a +:+ b) = false -> Py.existsb_str q b = false.
Proof. rewrite existsb_str_app. by intros [_ ?]%orb_false_iff. Qed.

Lemma existsb_str_app_l (q : ascii -> bool) (a b : string) :
  Py.existsb_str q (a +:+ b) = false -> Py.existsb_str q a = false.
Proof. rewrite existsb_str_app. by intros [? _]%orb_false_iff. Qed.

Lemma split_once_chars (p q : ascii -> bool) (s : string) :
  Py.existsb_str q s = false ->
  Py.existsb_str q (fst (Py.split_once p s)) = false /\
  match snd (Py.split_once p s) with
  | Some b => Py.existsb_str q b = false
  | None => True
  end.
Proof.
  intros Hq. destruct (Py.split_once p s) as [a [b|]] eqn:H; simpl.
  - apply split_once_some in H as (c & _ & -> & _).
    split; [by eapply existsb_str_app_l |].
    apply existsb_str_app_r in Hq. simpl in Hq. by apply orb_false_iff in Hq as [_ ?].
  - by apply split_once_none in H as [<- _].
Qed.

Lemma remove_chars_none (q : ascii -> bool) (s : string) :
  Py.existsb_str q (Py.remove_chars q s) = false.
Proof.
  induction s as [|c s IH]; simpl; [done |].
  destruct (q c) eqn:Hc; simpl; [done |]. by rewrite Hc.
Qed.

Lemma remove_chars_id (q : ascii -> bool) (s : string) :
  Py.existsb_str q s = false -> Py.remove_chars q s = s.
Proof.
  induction s as [|c s IH]; simpl; [done |].
  intros [-> Hs]%orb_false_iff. by rewrite IH.
Qed.

Lemma split_scheme_chars (q : ascii -> bool) (url : string) :
  Py.existsb_str q url = false ->
  Py.existsb_str q (snd (Url.split_scheme url)) = false.
Proof.
  intros Hq. unfold Url.split_scheme.
  pose proof (split_once_chars (Py.is_char ":") q url Hq) as [_ Hrest].
  destruct (Py.split_once _ url) as [[|c0 pre] [rest|]]; simpl in *; try done.
  by destruct (_ && _).
Qed.

Lemma drop_chars (q : ascii -> bool) (n : nat) (s : string) :
  Py.existsb_str q s = false -> Py.existsb_str q (Py.drop n s) = false.
Proof.
  revert s. induction n as [|n IH]; intros [|c s]; simpl; try done.
  intros [_ Hs]%orb_false_iff. by apply IH.
Qed.

Lemma split_netloc_chars (q : ascii -> bool) (url : string) :
  Py.existsb_str q url = false ->
  Py.existsb_str q (snd (Url.split_netloc url)) = false.
Proof.
  intros Hq. unfold Url.split_netloc.
  destruct (Py.startswith url "//"); [|done].
  apply (drop_chars q 2) in Hq.
  rewrite <- (span_until_app Url.netloc_end (Py.drop 2 url)) in Hq.
  by eapply existsb_str_app_r.
Qed.

(** The path that [urlsplit] returns holds no question mark, no hash and
    none of the characters that are removed from the URL. *)
Lemma urlsplit_path_chars (url scheme netloc path query fragment : string) :
  Url.urlsplit url = Some (scheme, netloc, path, query, fragment) ->
  Py.existsb_str (Py.is_char "?") path = false /\
  Py.existsb_str (Py.is_char "#") path = false /\
  Py.existsb_str Url.is_unsafe path = false.
Proof.
  unfold Url.urlsplit.
  pose proof (remove_chars_none Url.is_unsafe (Py.lstrip_set Url.is_c0_or_space url)) as H0.
  apply split_scheme_chars in H0.
  destruct (Url.split_scheme _) as [scheme' url1]. simpl in H0.
  apply split_netloc_chars in H0.
  destruct (Url.split_netloc url1) as [netloc' url2]. simpl in H0.
  destruct (Url.bad_brackets netloc'); [done |].
  pose proof (split_once_fst (Py.is_char "#") url2) as Hhash.
  pose proof (split_once_chars (Py.is_char "#") Url.is_unsafe url2 H0) as [H1 _].
  assert (exists a fragment',
             match Py.split_once (Py.is_char "#") url2 with
             | (a, Some b) => (a, b)
             | (a, None) => (a, EmptyString)
             end = (a, fragment') /\
             Py.existsb_str (Py.is_char "#") a = false /\
             Py.existsb_str Url.is_unsafe a = false) as (a & fragment' & -> & Ha1 & Ha2).
  { destruct (Py.split_once _ url2) as [a [b|]]; eauto. }
  pose proof (split_once_fst (Py.is_char "?") a) as Hquery.
  pose proof (split_once_chars (Py.is_char "?") (Py.is_char "#") a Ha1) as [H2 _].
  pose proof (split_once_chars (Py.is_char "?") Url.is_unsafe a Ha2) as [H3 _].
  destruct (Py.split_once (Py.is_char "?") a) as [x [y|]]; by intros [= <- <- <- <- <-].
Qed.

Lemma urlparse_path_chars (q : ascii -> bool) (url : string) (parsed : Url.ParseResult) :
  q = Py.is_char "?" \/ q = Py.is_char "#" \/ q = Url.is_unsafe ->
  Url.urlparse url = Some parsed ->
  Py.existsb_str q (Url.path parsed) = false.
Proof.
  intros Hq. unfold Url.urlparse.
  destruct (Url.urlsplit url) as [[[[[scheme netloc] path] query] fragment]|] eqn:H; [|done].
  apply urlsplit_path_chars in H as (H1 & H2 & H3).
  assert (Py.existsb_str q path = false) as Hpath by (by destruct Hq as [-> | [-> | ->]]).
  destruct (_ && _).
  - pose proof (split_params_chars q path Hpath) as Hs.
    destruct (Url.split_params path) as [u pr]. by intros [= <-].
  - by intros [= <-].
Qed.

(** The path that [urlparse] returns holds no question mark. *)
Lemma urlparse_path_no_query (url : string) (parsed : Url.ParseResult) :
  Url.urlparse url = Some parsed ->
  Py.existsb_str (Py.is_char "?") (Url.path parsed) = false.
Proof. apply urlparse_path_chars. by left. Qed.

Lemma str_of_Z_pos_inj (n m : Z) :
  0 < n -> 0 < m -> Py.str_of_Z n = Py.str_of_Z m -> n = m.
Proof.
  destruct n as [|p|p], m as [|q|q]; try lia. intros _ _.
  unfold Py.str_of_Z. simpl.
  pose proof (DecimalPos.Unsigned.to_uint_nonnil p) as Np.
  pose proof (DecimalPos.Unsigned.to_uint_nonnil q) as Nq.
  assert (Hs : forall d, d <> Decimal.Nil ->
            NilZero.string_of_uint d = NilEmpty.string_of_uint d) by (by intros []).
  unfold NilZero.string_of_int. rewrite !Hs by done.
  intros E%(f_equal NilEmpty.uint_of_string).
  rewrite !NilEmpty.usu in E. injection E as E.
  apply DecimalPos.Unsigned.to_uint_inj in E. by subst.
Qed.

Lemma normalize_target_parts (url : string) :
  normalize_mod_target_url url = option_map canonical_of (target_parts url).
Proof.
  unfold normalize_mod_target_url, target_parts.
  destruct (Url.urlparse url) as [parsed|]; [|done].
  destruct (bool_decide (Url.scheme parsed ∈ _)); [|done].
  destruct (bool_decide (Py.lower (Url.netloc parsed) ∈ _)); [|done].
  destruct (Re.re_match _ _); [|done]. simpl.
  destruct (Url.parse_qs_get _ _) as [|v ?]; [done |].
  destruct (py_int v) as [n|]; [|done].
  by destruct (0 <? n).
Qed.

Lemma target_parts_path (url path : string) (fid : option Z) :
  target_parts url = Some (path, fid) ->
  Py.existsb_str (Py.is_char "?") path = false /\
  match fid with Some n => 0 < n | None => True end.
Proof.
  unfold target_parts.
  destruct (Url.urlparse url) as [parsed|] eqn:Hp; [|done].
  destruct (_ && _); [|done]. intros [= <- <-]. split.
  - apply rstrip_set_chars. eauto using urlparse_path_no_query.
  - destruct (Url.parse_qs_get _ _) as [|v ?]; [done |].
    destruct (py_int v) as [n|]; [|done].
    destruct (0 <? n) eqn:Hn; [lia | done].
Qed.

(** The canonical form is an injective coding of the parts. *)
Lemma canonical_of_inj (p1 p2 : string) (f1 f2 : option Z) :
  Py.existsb_str (Py.is_char "?") p1 = false ->
  Py.existsb_str (Py.is_char "?") p2 = false ->
  match f1 with Some n => 0 < n | None => True end ->
  match f2 with Some n => 0 < n | None => True end ->
  canonical_of (p1, f1) = canonical_of (p2, f2) -> (p1, f1) = (p2, f2).
Proof.
  intros H1 H2 Hf1 Hf2. unfold canonical_of. simpl.
  assert (Hsplit : forall p f, Py.existsb_str (Py.is_char "?") p = false ->
    Py.split_once (Py.is_char "?")
      (match f with
       | Some n => p +:+ "?" +:+ Url.urlencode_tab_file_id n
       | None => p
       end) = (p, option_map Url.urlencode_tab_file_id f)).
  { intros p [n|] Hp; simpl; [by apply split_once_app | by apply split_once_absent]. }
  intros Heq.
  assert (Hrest : match f1 with
                  | Some n => p1 +:+ "?" +:+ Url.urlencode_tab_file_id n
                  | None => p1
                  end =
                  match f2 with
                  | Some n => p2 +:+ "?" +:+ Url.urlencode_tab_file_id n
                  | None => p2
                  end).
  { apply (append_inv_head site_base). by destruct f1, f2. }
  apply (f_equal (Py.split_once (Py.is_char "?"))) in Hrest.
  rewrite !Hsplit in Hrest by done. injection Hrest as -> Hf.
  destruct f1 as [n1|], f2 as [n2|]; simpl in Hf; try done.
  injection Hf as Hf. by rewrite (str_of_Z_pos_inj n1 n2).
Qed.

(** *** What a match of the regular expressions says *)

Lemma accepts_Never (s : string) : Re.accepts Re.Never s = false.
Proof. by induction s. Qed.

Lemma accepts_Eps (s : string) : Re.accepts Re.Eps s = true <-> s = "".
Proof. destruct s; simpl; [done |]. by rewrite accepts_Never. Qed.

Lemma accepts_Alt (r1 r2 : Re.regex) (s : string) :
  Re.accepts (Re.Alt r1 r2) s = Re.accepts r1 s || Re.accepts r2 s.
Proof. revert r1 r2. induction s as [|c s IH]; intros r1 r2; simpl; [done | apply IH]. Qed.

Lemma accepts_Seq (r1 r2 : Re.regex) (s : string) :
  Re.accepts (Re.Seq r1 r2) s = true <->
  exists s1 s2, s = s1 +:+ s2 /\ Re.accepts r1 s1 = true /\ Re.accepts r2 s2 = true.
Proof.
  revert r1. induction s as [|c s IH]; intros r1; simpl.
  - rewrite andb_true_iff. split.
    + intros [H1 H2]. by exists "", "".
    + intros ([|] & [|] & Hs & H1 & H2); done.
  - assert (Re.accepts (Re.Seq (Re.deriv c r1) r2) s = true <->
            exists s1 s2, s = s1 +:+ s2 /\ Re.accepts r1 (String c s1) = true /\
                          Re.accepts r2 s2 = true) as Hfirst by apply IH.
    destruct (Re.nullable r1) eqn:Hn.
    + rewrite accepts_Alt, orb_true_iff, Hfirst. split.
      * intros [(s1 & s2 & -> & H1 & H2) | H].
        -- by exists (String c s1), s2.
        -- by exists "", (String c s).
      * intros ([|c1 s1] & s2 & Hs & H1 & H2); simpl in Hs.
        -- right. by subst s2.
        -- injection Hs as -> ->. left. eauto.
    + rewrite Hfirst. split.
      * intros (s1 & s2 & -> & H1 & H2). by exists (String c s1), s2.
      * intros ([|c1 s1] & s2 & Hs & H1 & H2); simpl in *; [congruence |].
        injection Hs as -> ->. eauto.
Qed.

Lemma accepts_Class (p : ascii -> bool) (s : string) :
  Re.accepts (Re.Class p) s = true <-> exists c, s = String c "" /\ p c = true.
Proof.
  destruct s as [|c s]; simpl.
  - split; [done | by intros (c & [=] & _)].
  - destruct (p c) eqn:Hc.
    + rewrite accepts_Eps. split; [intros ->; eauto | by intros (c' & [= <- ->] & _)].
    + rewrite accepts_Never. split; [done | intros (c' & [= <- ->] & ?); congruence].
Qed.

Lemma accepts_Star_Class (p : ascii -> bool) (s : string) :
  Re.accepts (Re.Star (Re.Class p)) s = true -> Py.forallb_str p s = true.
Proof.
  induction s as [|c s IH]; simpl; [done |].
  intros (s1 & s2 & -> & H1 & H2)%accepts_Seq.
  destruct (p c); [|by rewrite accepts_Never in H1].
  apply accepts_Eps in H1 as ->. by apply IH.
Qed.

Lemma accepts_Plus_Class (p : ascii -> bool) (s : string) :
  Re.accepts (Re.Plus (Re.Class p)) s = true -> s <> "" /\ Py.forallb_str p s = true.
Proof.
  intros (s1 & s2 & -> & (c & -> & Hc)%accepts_Class & H2%accepts_Star_Class)%accepts_Seq.
  simpl. by rewrite Hc.
Qed.

Lemma accepts_Opt_Class (p : ascii -> bool) (s : string) :
  Re.accepts (Re.Opt (Re.Class p)) s = true -> s = "" \/ exists c, s = String c "" /\ p c = true.
Proof.
  unfold Re.Opt. rewrite accepts_Alt, orb_true_iff, accepts_Eps, accepts_Class. tauto.
Qed.

(** A path that matches [MOD_PATH_RE] starts with a slash and ends with a
    slash, some digits and, perhaps, one more slash. *)
Lemma MOD_PATH_RE_shape (path : string) :
  Re.accepts MOD_PATH_RE path = true ->
  exists front digits back,
    path = String "/" front +:+ String "/" digits +:+ back /\
    digits <> "" /\ Py.forallb_str Py.is_digit digits = true /\
    (back = "" \/ back = "/").
Proof.
  unfold MOD_PATH_RE.
  intros (s0 & r0 & -> & (c0 & -> & Hc0)%accepts_Class & H)%accepts_Seq.
  apply accepts_Seq in H as (s1 & r1 & -> & _ & H).
  apply accepts_Seq in H as (s2 & r2 & -> & (c2 & -> & Hc2)%accepts_Class & H).
  apply accepts_Seq in H as (s3 & r3 & -> & _ & H).
  apply accepts_Seq in H as (s4 & r4 & -> & (c4 & -> & Hc4)%accepts_Class & H).
  apply accepts_Seq in H as (s5 & r5 & -> & [Hne Hdigits]%accepts_Plus_Class & H).
  apply accepts_Opt_Class in H.
  apply Ascii.eqb_eq in Hc0 as <-, Hc4 as <-.
  exists (s1 +:+ String c2 s3), s5, r5. split; [|split; [done | split; [done |]]].
  - simpl. f_equal. by rewrite append_assoc.
  - destruct H as [-> | (c & -> & <-%Ascii.eqb_eq)]; auto.
Qed.

(** *** Stripping and splitting *)

Lemma rstrip_set_idem (p : ascii -> bool) (s : string) :
  Py.rstrip_set p (Py.rstrip_set p s) = Py.rstrip_set p s.
Proof.
  induction s as [|c s IH]; simpl; [done |].
  destruct (Py.rstrip_set p s) as [|r0 r] eqn:Hr.
  - destruct (p c) eqn:Hc; simpl; [done | by rewrite Hc].
  - change (Py.rstrip_set p (String c (String r0 r)))
      with (match Py.rstrip_set p (String r0 r) with
            | EmptyString => if p c then EmptyString else String c EmptyString
            | r' => String c r'
            end).
    by rewrite IH.
Qed.

Lemma rstrip_set_id (p : ascii -> bool) (s : string) :
  Py.existsb_str p s = false -> Py.rstrip_set p s = s.
Proof.
  induction s as [|c s IH]; simpl; [done |].
  intros [Hc Hs]%orb_false_iff. rewrite IH, Hc by done. by destruct s.
Qed.

Lemma rstrip_set_snoc (p : ascii -> bool) (a : string) (c : ascii) :
  p c = true -> Py.rstrip_set p (a +:+ String c "") = Py.rstrip_set p a.
Proof.
  intros Hc. induction a as [|x a IH]; simpl; [by rewrite Hc |]. by rewrite IH.
Qed.

Lemma length_append (a b : string) :
  String.length (a +:+ b) = (String.length a + String.length b)%nat.
Proof. induction a as [|x a IH]; simpl; [done | by rewrite IH]. Qed.

(** What [rstrip] returns does not end with a character of the set. *)
Lemma rstrip_set_end (p : ascii -> bool) (s a : string) (c : ascii) :
  Py.rstrip_set p s = a +:+ String c "" -> p c = false.
Proof.
  intros H. destruct (p c) eqn:Hc; [|done].
  pose proof (rstrip_set_idem p s) as Hi. rewrite H, rstrip_set_snoc in Hi by done.
  destruct (rstrip_set_prefix p a) as [t Ht].
  apply (f_equal String.length) in Hi, Ht. rewrite !length_append in *. simpl in *. lia.
Qed.

Lemma forallb_existsb_str (p q : ascii -> bool) (s : string) :
  (forall c, p c = true -> q c = false) ->
  Py.forallb_str p s = true -> Py.existsb_str q s = false.
Proof.
  intros Hpq. induction s as [|c s IH]; simpl; [done |].
  intros [Hc Hs]%andb_true_iff. by rewrite (Hpq c Hc), IH.
Qed.

Lemma rsplit_last_absent (q : ascii -> bool) (t : string) :
  Py.existsb_str q t = false -> Py.rsplit_last q t = ("", t).
Proof.
  induction t as [|c t IH]; simpl; [done |].
  intros [Hc Ht]%orb_false_iff. by rewrite IH, Hc.
Qed.

Lemma rsplit_last_app_last (q : ascii -> bool) (h : string) (c : ascii) (t : string) :
  Py.existsb_str q t = false -> q c = true ->
  Py.rsplit_last q (h +:+ String c t) = (h +:+ String c "", t).
Proof.
  intros Ht Hc. induction h as [|x h IH]; simpl.
  - by rewrite rsplit_last_absent, Hc.
  - rewrite IH. by destruct h.
Qed.

Lemma is_digit_plain (c : ascii) :
  Py.is_digit c = true ->
  Py.is_space c = false /\ Url.is_unsafe c = false /\
  Forall (fun x => Py.is_char x c = false)
    ["/"; ";"; "#"; "?"; "&"; "+"; "%"; "_"; "="; "-"]%char.
Proof.
  destruct c as [[] [] [] [] [] [] [] []]; try discriminate; intros _;
    repeat split; repeat constructor.
Qed.

Lemma digits_without (x : ascii) (s : string) :
  x ∈ ["/"; ";"; "#"; "?"; "&"; "+"; "%"; "_"; "="; "-"]%char ->
  Py.forallb_str Py.is_digit s = true -> Py.existsb_str (Py.is_char x) s = false.
Proof.
  intros Hx. apply forallb_existsb_str. intros c (_ & _ & Hc)%is_digit_plain.
  rewrite Forall_forall in Hc. by apply Hc.
Qed.

Lemma digits_no_space (s : string) :
  Py.forallb_str Py.is_digit s = true -> Py.existsb_str Py.is_space s = false.
Proof. apply forallb_existsb_str. by intros c (? & _)%is_digit_plain. Qed.

Lemma digits_safe (s : string) :
  Py.forallb_str Py.is_digit s = true -> Py.existsb_str Url.is_unsafe s = false.
Proof. apply forallb_existsb_str. by intros c (_ & ? & _)%is_digit_plain. Qed.

(** A path that ends with a slash and digits has no parameters to split
    off. *)
Lemma split_params_digits (front digits : string) :
  Py.forallb_str Py.is_digit digits = true ->
  Url.split_params (front +:+ String "/" digits) = (front +:+ String "/" digits, "").
Proof.
  intros Hd. unfold Url.split_params.
  rewrite rsplit_last_app_last; [| apply digits_without; [|done]; set_solver | done].
  rewrite split_once_absent; [done |]. apply digits_without; [|done]. set_solver.
Qed.

(** *** [str(n)] and [int(s)] on positive numbers *)

Lemma string_of_uint_digits (d : Decimal.uint) :
  Py.forallb_str Py.is_digit (NilEmpty.string_of_uint d) = true.
Proof. induction d; simpl; auto. Qed.

Lemma str_of_Z_pos (p : positive) :
  Py.str_of_Z (Z.pos p) = NilEmpty.string_of_uint (Pos.to_uint p).
Proof.
  unfold Py.str_of_Z. simpl. unfold NilZero.string_of_int.
  pose proof (DecimalPos.Unsigned.to_uint_nonnil p) as Hn.
  by destruct (Pos.to_uint p).
Qed.

Lemma str_of_Z_digits (n : Z) :
  0 < n -> Py.str_of_Z n <> "" /\ Py.forallb_str Py.is_digit (Py.str_of_Z n) = true.
Proof.
  destruct n as [|p|p]; try lia. intros _. rewrite str_of_Z_pos.
  split; [|apply string_of_uint_digits].
  pose proof (DecimalPos.Unsigned.to_uint_nonnil p) as Hn.
  by destruct (Pos.to_uint p).
Qed.

Lemma int_body_ok_digits (b : bool) (s : string) :
  Py.forallb_str Py.is_digit s = true -> s <> "" \/ b = true -> int_body_ok b s = true.
Proof.
  revert b. induction s as [|c s IH]; intros b; simpl.
  - intros _ [? | ?]; done.
  - intros [-> Hs]%andb_true_iff _. apply IH; [done |]. by right.
Qed.

Lemma lstrip_set_id (p : ascii -> bool) (s : string) :
  Py.existsb_str p s = false -> Py.lstrip_set p s = s.
Proof. destruct s as [|c s]; simpl; [done |]. by intros [-> _]%orb_false_iff. Qed.

Lemma digits_no_int_space (s : string) :
  Py.forallb_str Py.is_digit s = true -> Py.existsb_str is_int_space s = false.
Proof.
  apply forallb_existsb_str. intros c.
  destruct c as [[] [] [] [] [] [] [] []]; try discriminate; reflexivity.
Qed.

Lemma py_int_digits (s : string) :
  s <> "" -> Py.forallb_str Py.is_digit s = true -> py_int s = int_of_body s.
Proof.
  intros Hne Hd. unfold py_int.
  rewrite lstrip_set_id, rstrip_set_id by (by apply digits_no_int_space).
  destruct s as [|c s]; [done |]. simpl in Hd. apply andb_true_iff in Hd as [Hc _].
  destruct c as [[] [] [] [] [] [] [] []]; try discriminate Hc; reflexivity.
Qed.

Lemma py_int_str_of_Z (n : Z) :
  0 < n -> (String.length (Py.str_of_Z n) <= int_max_str_digits)%nat ->
  py_int (Py.str_of_Z n) = Some n.
Proof.
  intros Hn Hlen. destruct (str_of_Z_digits n Hn) as [Hne Hd].
  rewrite py_int_digits by done. unfold int_of_body.
  rewrite int_body_ok_digits by auto.
  rewrite remove_chars_id by (apply digits_without; [set_solver | done]).
  cbv zeta. apply Nat.ltb_ge in Hlen. rewrite Hlen.
  destruct n as [|p|p]; try lia. rewrite str_of_Z_pos, NilEmpty.usu. simpl.
  unfold Z.of_uint. by rewrite DecimalPos.Unsigned.of_to.
Qed.

(** What [int] reads is within the limit when it is written out again. *)
Lemma length_string_of_uint (u : Decimal.uint) :
  String.length (NilEmpty.string_of_uint u) = Decimal.nb_digits u.
Proof. induction u; simpl; congruence. Qed.

Lemma int_of_body_nonneg (body : string) (n : Z) : int_of_body body = Some n -> 0 <= n.
Proof.
  unfold int_of_body. destruct (int_body_ok false body); [|done]. cbv zeta.
  destruct (_ <? _)%nat; [done |].
  destruct (NilEmpty.uint_of_string _) as [u|]; [|done]. intros [= <-].
  unfold Z.of_uint. lia.
Qed.

Lemma int_of_body_short (body : string) (n : Z) :
  int_of_body body = Some n -> 0 < n ->
  (String.length (Py.str_of_Z n) <= int_max_str_digits)%nat.
Proof.
  unfold int_of_body. destruct (int_body_ok false body); [|done]. cbv zeta.
  destruct (_ <? _)%nat eqn:Hlen; [done |]. apply Nat.ltb_ge in Hlen.
  destruct (NilEmpty.uint_of_string _) as [u|] eqn:Hu; [|done]. intros [= <-].
  apply NilEmpty.sus in Hu. rewrite <- Hu, length_string_of_uint in Hlen.
  unfold Z.of_uint. destruct (Pos.of_uint u) as [|p] eqn:Hp; [simpl; lia |]. intros _.
  change (Z.of_N (N.pos p)) with (Z.pos p). rewrite str_of_Z_pos, length_string_of_uint.
  assert (Pos.to_uint p = Decimal.unorm u) as ->.
  { rewrite <- DecimalPos.Unsigned.to_of, Hp. reflexivity. }
  destruct u as [| | | | | | | | | |]; [done |..];
    (etrans; [apply DecimalFacts.nb_digits_unorm; discriminate | exact Hlen]).
Qed.

Lemma py_int_short (v : string) (n : Z) :
  py_int v = Some n -> 0 < n ->
  (String.length (Py.str_of_Z n) <= int_max_str_digits)%nat.
Proof.
  unfold py_int.
  destruct (Py.rstrip_set _ _) as [|c body]; [apply int_of_body_short |].
  destruct (Ascii.eqb c "+") eqn:E1; [apply Ascii.eqb_eq in E1 as -> |].
  { apply int_of_body_short. }
  destruct (Ascii.eqb c "-") eqn:E2; [apply Ascii.eqb_eq in E2 as -> |].
  { destruct (int_of_body body) as [m|] eqn:Hm; [|done]. intros [= <-] Hn.
    apply int_of_body_nonneg in Hm. lia. }
  assert (match String c body with
          | String "+" b => int_of_body b
          | String "-" b => option_map Z.opp (int_of_body b)
          | b => int_of_body b
          end = int_of_body (String c body)) as ->.
  { destruct c as [[] [] [] [] [] [] [] []]; try reflexivity; discriminate. }
  apply int_of_body_short.
Qed.

(** *** The query of a canonical form *)

Lemma split_on_absent (sep : ascii -> bool) (s : string) :
  Py.existsb_str sep s = false -> Py.split_on sep s = [s].
Proof.
  induction s as [|c s IH]; simpl; [done |].
  intros [-> Hs]%orb_false_iff. by rewrite IH.
Qed.

Lemma map_chars_id (f : ascii -> ascii) (s : string) :
  Py.forallb_str (fun c => Ascii.eqb (f c) c) s = true -> Url.map_chars f s = s.
Proof.
  induction s as [|c s IH]; simpl; [done |].
  intros [->%Ascii.eqb_eq Hs]%andb_true_iff. by rewrite IH.
Qed.

Lemma forallb_str_impl (p q : ascii -> bool) (s : string) :
  (forall c, p c = true -> q c = true) ->
  Py.forallb_str p s = true -> Py.forallb_str q s = true.
Proof.
  intros Hpq. induction s as [|c s IH]; simpl; [done |].
  intros [Hc Hs]%andb_true_iff. by rewrite (Hpq c Hc), IH.
Qed.

Lemma unquote_cons (c : ascii) (s : string) :
  Py.is_char "%" c = false -> Url.unquote (String c s) = String c (Url.unquote s).
Proof.
  intros Hc. destruct s as [|h [|l s]]; try reflexivity.
  change (Url.unquote (String c (String h (String l s))))
    with (match (if Py.is_char "%" c then Url.escape_value h l else None) with
          | Some ch => String ch (Url.unquote s)
          | None => String c (Url.unquote (String h (String l s)))
          end).
  by rewrite Hc.
Qed.

Lemma unquote_id (s : string) :
  Py.existsb_str (Py.is_char "%") s = false -> Url.unquote s = s.
Proof.
  induction s as [|c s IH]; [done |].
  intros H. cbn [Py.existsb_str] in H. apply orb_false_iff in H as [Hc Hs].
  by rewrite unquote_cons, IH.
Qed.

Lemma parse_qs_get_canonical (n : Z) :
  0 < n ->
  Url.parse_qs_get (Url.urlencode_tab_file_id n) "file_id" = [Py.str_of_Z n].
Proof.
  intros Hn. destruct (str_of_Z_digits n Hn) as [Hne Hd].
  unfold Url.parse_qs_get, Url.parse_qsl, Url.urlencode_tab_file_id.
  assert (Py.split_on (Py.is_char "&") ("tab=files&file_id=" +:+ Py.str_of_Z n)
          = ["tab=files"; "file_id=" +:+ Py.str_of_Z n]) as ->.
  { assert (Py.split_on (Py.is_char "&") ("file_id=" +:+ Py.str_of_Z n)
            = ["file_id=" +:+ Py.str_of_Z n]) as Hlast.
    { apply split_on_absent. simpl. apply digits_without; [set_solver | done]. }
    simpl in *. by rewrite Hlast. }
  assert (Url.unquote (Url.map_chars Url.plus_to_space (Py.str_of_Z n)) = Py.str_of_Z n)
    as Hplain.
  { rewrite map_chars_id, unquote_id; [done | apply digits_without; [set_solver | done] |].
    eapply forallb_str_impl; [|exact Hd]. intros x (_ & _ & Hx)%is_digit_plain.
    rewrite Forall_forall in Hx. unfold Url.plus_to_space.
    rewrite (Hx "+"%char) by set_solver. apply Ascii.eqb_refl. }
  destruct (Py.str_of_Z n) as [|c v]; [done |].
  with_strategy opaque [Url.unquote Url.map_chars] simpl.
  rewrite Hplain. reflexivity.
Qed.

(** *** A canonical form parsed again *)

Lemma chop_newline_unsafe (s s' : string) :
  Re.chop_newline s = Some s' -> Py.existsb_str Url.is_unsafe s = true.
Proof.
  revert s'. induction s as [|c s IH]; intros s'; [done |].
  destruct s as [|c' s].
  - simpl. destruct (Ascii.eqb_spec c Re.newline) as [-> | _]; [done | done].
  - change (Re.chop_newline (String c (String c' s)))
      with (option_map (String c) (Re.chop_newline (String c' s))).
    destruct (Re.chop_newline (String c' s)) as [r|]; [|done].
    intros _.
    change (Py.existsb_str Url.is_unsafe (String c (String c' s)))
      with (Url.is_unsafe c || Py.existsb_str Url.is_unsafe (String c' s)).
    rewrite (IH r eq_refl). apply orb_true_r.
Qed.

Lemma urlsplit_canonical (rest : string) (query : option string) :
  let path := String "/" rest in
  Py.existsb_str (Py.is_char "?") path = false ->
  Py.existsb_str (Py.is_char "#") path = false ->
  Py.existsb_str Url.is_unsafe path = false ->
  match query with
  | Some q => Py.existsb_str (Py.is_char "#") q = false /\
              Py.existsb_str Url.is_unsafe q = false
  | None => True
  end ->
  Url.urlsplit (site_base +:+ path +:+
                match query with Some q => String "?" q | None => "" end)
  = Some ("https", "www.nexusmods.com", path, default "" query, "").
Proof.
  intros path Hq Hh Hu Hquery. unfold Url.urlsplit.
  set (tail := path +:+ match query with Some q => String "?" q | None => "" end).
  assert (Py.existsb_str (Py.is_char "#") tail = false /\
          Py.existsb_str Url.is_unsafe tail = false) as [Hth Htu].
  { unfold tail. rewrite !existsb_str_app, Hh, Hu.
    destruct query as [q|]; [|done]. destruct Hquery as [Hq1 Hq2].
    cbn [Py.existsb_str]. by rewrite Hq1, Hq2. }
  assert (Py.lstrip_set Url.is_c0_or_space (site_base +:+ tail) = site_base +:+ tail)
    as -> by reflexivity.
  rewrite remove_chars_id by (by rewrite existsb_str_app, Htu).
  assert (Url.split_scheme (site_base +:+ tail) = ("https", "//www.nexusmods.com" +:+ tail))
    as -> by reflexivity.
  assert (Url.split_netloc ("//www.nexusmods.com" +:+ tail) = ("www.nexusmods.com", tail))
    as -> by reflexivity.
  assert (Url.bad_brackets "www.nexusmods.com" = false) as -> by reflexivity.
  rewrite (split_once_absent _ tail Hth). unfold tail.
  destruct query as [q|].
  - by rewrite (split_once_app (Py.is_char "?") path "?" q Hq eq_refl).
  - by rewrite append_nil_r, (split_once_absent _ path Hq).
Qed.

Lemma target_parts_short (url path : string) (fid : option Z) :
  target_parts url = Some (path, fid) ->
  match fid with
  | Some n => (String.length (Py.str_of_Z n) <= int_max_str_digits)%nat
  | None => True
  end.
Proof.
  unfold target_parts.
  destruct (Url.urlparse url) as [parsed|] eqn:Hp; [|done].
  destruct (_ && _); [|done]. intros [= <- <-].
  destruct (Url.parse_qs_get _ _) as [|v ?]; [done |].
  destruct (py_int v) as [n|] eqn:Hv; [|done].
  destruct (0 <? n) eqn:Hn; [|done]. apply Z.ltb_lt in Hn. by eapply py_int_short.
Qed.

Lemma target_parts_canonical (url path : string) (fid : option Z) :
  target_parts url = Some (path, fid) -> canonical_parts path fid.
Proof.
  intros H. pose proof (target_parts_path _ _ _ H) as [Hq Hpos].
  pose proof (target_parts_short _ _ _ H) as Hshort.
  unfold target_parts in H.
  destruct (Url.urlparse url) as [parsed|] eqn:Hp; [|done].
  destruct (_ && _) eqn:Hc; [|done].
  apply andb_true_iff in Hc as [_ Hm]. injection H as <- _.
  split; try done.
  - apply rstrip_set_idem.
  - apply rstrip_set_chars. eapply urlparse_path_chars; [|done]. auto.
  - apply rstrip_set_chars. eapply urlparse_path_chars; [|done]. auto.
Qed.

Lemma canonical_parts_shape (path : string) (fid : option Z) :
  canonical_parts path fid ->
  exists front digits,
    path = String "/" front +:+ String "/" digits /\
    Py.forallb_str Py.is_digit digits = true.
Proof.
  intros [Hm Hs _ _ Hu _ _]. unfold Re.re_match in Hm.
  assert (Re.accepts MOD_PATH_RE path = true) as Ha.
  { apply orb_true_iff in Hm as [? | Hm]; [done |].
    destruct (Re.chop_newline path) as [s'|] eqn:Hc; [|done].
    apply chop_newline_unsafe in Hc. congruence. }
  apply MOD_PATH_RE_shape in Ha as (front & digits & back & -> & _ & Hd & [-> | ->]).
  - exists front, digits. by rewrite append_nil_r.
  - exfalso.
    assert (String "/" front +:+ String "/" digits +:+ "/"
            = (String "/" front +:+ String "/" digits) +:+ String "/" "") as E
      by (by rewrite append_assoc).
    rewrite E in Hs. by apply rstrip_set_end in Hs.
Qed.

Lemma urlparse_canonical (path : string) (fid : option Z) :
  canonical_parts path fid ->
  Url.urlparse (canonical_of (path, fid))
  = Some {| Url.scheme := "https"; Url.netloc := "www.nexusmods.com"; Url.path := path;
            Url.params := "";
            Url.query := match fid with
                         | Some n => Url.urlencode_tab_file_id n
                         | None => ""
                         end;
            Url.fragment := "" |}.
Proof.
  intros Hparts. destruct (canonical_parts_shape _ _ Hparts) as (front & digits & Hpath & Hd).
  destruct Hparts as [_ _ Hq Hh Hu Hpos _].
  unfold Url.urlparse.
  assert (canonical_of (path, fid)
          = site_base +:+ path +:+
            match option_map Url.urlencode_tab_file_id fid with
            | Some q => String "?" q
            | None => ""
            end) as ->.
  { unfold canonical_of. destruct fid; simpl; [done | by rewrite append_nil_r]. }
  assert (exists rest, path = String "/" rest) as [rest Hrest] by (rewrite Hpath; simpl; eauto).
  rewrite Hrest in *.
  rewrite urlsplit_canonical; try done.
  2: { destruct fid as [n|]; [|done]. cbn [option_map]. unfold Url.urlencode_tab_file_id.
       destruct (str_of_Z_digits n Hpos) as [_ Hdigits].
       rewrite !existsb_str_app.
       rewrite (digits_without "#" _ ltac:(set_solver) Hdigits), (digits_safe _ Hdigits).
       done. }
  assert (Url.split_params (String "/" rest) = (String "/" rest, "")) as Hparams.
  { rewrite Hpath. by apply (split_params_digits (String "/" front)). }
  rewrite Hparams. destruct (_ && _); by destruct fid.
Qed.

(** The canonical form of an accepted URL is accepted, and is its own
    canonical form. *)
Lemma normalize_canonical (path : string) (fid : option Z) :
  canonical_parts path fid ->
  normalize_mod_target_url (canonical_of (path, fid)) = Some (canonical_of (path, fid)).
Proof.
  intros Hparts. unfold normalize_mod_target_url.
  rewrite (urlparse_canonical _ _ Hparts). destruct Hparts as [Hm Hs _ _ _ Hpos Hshort].
  cbn [Url.scheme Url.netloc Url.path Url.query].
  rewrite bool_decide_eq_true_2 by set_solver.
  assert (bool_decide (Py.lower "www.nexusmods.com" ∈ ["www.nexusmods.com"; "nexusmods.com"])
          = true) as -> by (apply bool_decide_eq_true_2; left).
  cbn [negb]. rewrite Hs, Hm. cbn [negb].
  destruct fid as [n|]; [|done].
  rewrite parse_qs_get_canonical, py_int_str_of_Z by done.
  apply Z.ltb_lt in Hpos. rewrite Hpos. done.
Qed.

Lemma normalize_mod_target_url_idempotent (url canonical : string) :
  normalize_mod_target_url url = Some canonical ->
  normalize_mod_target_url canonical = Some canonical.
Proof.
  rewrite normalize_target_parts.
  destruct (target_parts url) as [[path fid]|] eqn:H; [|done].
  intros [= <-]. apply normalize_canonical. by eapply target_parts_canonical.
Qed.

(** [parse_mod_target] never raises: its unguarded [urlparse] is given a
    canonical form. *)
Lemma parse_mod_target_returns (url : string) : is_Some (parse_mod_target url).
Proof.
  unfold parse_mod_target.
  destruct (normalize_mod_target_url url) as [normalized|] eqn:Hn; [|done].
  destruct (negb _); [done |].
  rewrite normalize_target_parts in Hn.
  destruct (target_parts url) as [[path fid]|] eqn:H; [|done].
  injection Hn as <-. apply target_parts_canonical in H.
  rewrite (urlparse_canonical _ _ H). cbn [Url.path Url.query].
  destruct (Py.split_on _ _) as [|p0 [|p1 [|p2 ?]]]; try done.
  destruct (negb _); [done |]. by destruct (py_int p2).
Qed.

(** ** Reasoning about the monad *)

Create HintDb tame.
Create HintDb emits.

Section Monad.

Context {W : Type} (env : Env W).

Lemma bind_inv {A B} (m : M W A) (k : A -> M W B) st r st' :
  bind m k st = (r, st') ->
  (exists a st1, m st = (Ok a, st1) /\ k a st1 = (r, st')) \/
  (exists e, m st = (Raise e, st') /\ r = Raise e) \/
  (m st = (Diverge, st') /\ r = Diverge).
Proof.
  unfold bind. destruct (m st) as [[a|e|] st1]; intros H.
  - left. eauto.
  - injection H as <- <-. right. left. eauto.
  - injection H as <- <-. right. right. eauto.
Qed.

Lemma bind_Ok_inv {A B} (m : M W A) (k : A -> M W B) st b st' :
  bind m k st = (Ok b, st') ->
  exists a st1, m st = (Ok a, st1) /\ k a st1 = (Ok b, st').
Proof.
  intros [H | [(e & _ & [=]) | [_ [=]]]]%bind_inv. done.
Qed.

Lemma bind_Ok {A B} (m : M W A) (k : A -> M W B) st a st1 :
  m st = (Ok a, st1) -> bind m k st = k a st1.
Proof. unfold bind. by intros ->. Qed.

Lemma bind_Raise {A B} (m : M W A) (k : A -> M W B) st e st1 :
  m st = (Raise e, st1) -> bind m k st = (Raise e, st1).
Proof. unfold bind. by intros ->. Qed.

Ltac tame_intro :=
  let st := fresh "st" in let r := fresh "r" in let st' := fresh "st'" in
  intros st r st'.

Ltac prefix_chain := first [ done | etrans; [eassumption | prefix_chain] ].

Ltac tame_close :=
  repeat match goal with
         | H : _ /\ _ |- _ => destruct H
         end;
  split; [lia | split; [prefix_chain | split; [congruence | done]]].

Lemma tame_ret {A} (a : A) : tame (W := W) (ret a).
Proof. intros st r st' [= <- <-]. tame_close. Qed.

Lemma tame_raise {A} (e : exn) : tame (@raise W A e).
Proof. intros st r st' [= <- <-]. tame_close. Qed.

Lemma tame_get {A} (f : St W -> A) : tame (W := W) (get f).
Proof. intros st r st' [= <- <-]. tame_close. Qed.

Lemma tame_bind {A B} (m : M W A) (k : A -> M W B) :
  tame m -> (forall a, tame (k a)) -> tame (bind m k).
Proof.
  intros Hm Hk st r st' [(a & st1 & H1 & H2) | [(e & H1 & ->) | [H1 ->]]]%bind_inv.
  - apply Hm in H1. apply Hk in H2. tame_close.
  - apply Hm in H1. tame_close.
  - apply Hm in H1. tame_close.
Qed.

Lemma tame_try_except {A} (m : M W A) (c : exn -> bool) (h : exn -> M W A) :
  tame m -> (forall e, tame (h e)) -> tame (try_except m c h).
Proof.
  intros Hm Hh st r st'. unfold try_except.
  destruct (m st) as [[a|e|] st1] eqn:H1; apply Hm in H1.
  - intros [= <- <-]. tame_close.
  - destruct (c e); [|intros [= <- <-]; tame_close].
    intros H2%Hh. tame_close.
  - intros [= <- <-]. tame_close.
Qed.

Lemma tame_try_except2 {A} (m : M W A) (c1 c2 : exn -> bool) (h1 h2 : exn -> M W A) :
  tame m -> (forall e, tame (h1 e)) -> (forall e, tame (h2 e)) ->
  tame (try_except2 m c1 h1 c2 h2).
Proof.
  intros Hm H1 H2 st r st'. unfold try_except2.
  destruct (m st) as [[a|e|] st1] eqn:E; apply Hm in E.
  - intros [= <- <-]. tame_close.
  - destruct (c1 e); [intros H%H1; tame_close |].
    destruct (c2 e); [intros H%H2; tame_close |].
    intros [= <- <-]. tame_close.
  - intros [= <- <-]. tame_close.
Qed.

Lemma tame_modify_locals (f : Locals -> Locals) : tame (modify (W := W) (with_locals f)).
Proof. intros st r st' [= <- <-]. simpl. tame_close. Qed.

Lemma tame_advance (ms : nat) : tame (advance (W := W) ms).
Proof. intros st r st' [= <- <-]. simpl. tame_close. Qed.

Lemma tame_call (req : request) : tame (call env req).
Proof.
  intros st r st'. unfold call.
  destruct (perform env (world st) req) as [r0 w'] eqn:Hp.
  intros [= <- <-]. simpl.
  split; [lia | split; [by apply prefix_app_r | split; [done | by destruct r0]]].
Qed.

#[local] Hint Resolve tame_ret tame_raise tame_get tame_call tame_advance
  tame_modify_locals : tame.

Ltac tame_step :=
  first
    [ solve [eauto with tame]
    | apply tame_bind; [| intros ?]
    | apply tame_try_except; [| intros ?]
    | apply tame_try_except2; [| intros ? | intros ?]
    | match goal with
      | |- tame (match ?x with _ => _ end) => destruct x
      end ].

Ltac tame_auto := repeat tame_step.

Lemma tame_as_bool (v : value) : tame (W := W) (as_bool v).
Proof. unfold as_bool, type_error. tame_auto. Qed.

Lemma tame_as_int (v : value) : tame (W := W) (as_int v).
Proof. unfold as_int, type_error. tame_auto. Qed.

Lemma tame_as_str (v : value) : tame (W := W) (as_str v).
Proof. unfold as_str, type_error. tame_auto. Qed.

Lemma tame_as_strs (v : value) : tame (W := W) (as_strs v).
Proof. unfold as_strs, type_error. tame_auto. Qed.

Lemma tame_type_error {A} : tame (W := W) (@type_error W A).
Proof. unfold type_error. tame_auto. Qed.

#[local] Hint Resolve tame_as_bool tame_as_int tame_as_str tame_as_strs tame_type_error : tame.

Lemma tame_time_sleep (ms : nat) : tame (time_sleep env ms).
Proof. unfold time_sleep. tame_auto. Qed.

Lemma tame_path_exists (p : string) : tame (path_exists env p).
Proof. unfold path_exists. tame_auto. Qed.

Lemma tame_path_is_file (p : string) : tame (path_is_file env p).
Proof. unfold path_is_file. tame_auto. Qed.

Lemma tame_path_iterdir (p : string) : tame (path_iterdir env p).
Proof. unfold path_iterdir. tame_auto. Qed.

Lemma tame_path_mkdir (p : string) : tame (path_mkdir env p).
Proof. unfold path_mkdir. tame_auto. Qed.

Lemma tame_stat_size (p : string) : tame (stat_size env p).
Proof. unfold stat_size. tame_auto. Qed.

Lemma tame_stat_mtime (p : string) : tame (stat_mtime env p).
Proof. unfold stat_mtime. tame_auto. Qed.

#[local] Hint Resolve tame_time_sleep tame_path_exists tame_path_is_file tame_path_iterdir
  tame_path_mkdir tame_stat_size tame_stat_mtime : tame.

Lemma tame_set_listener (l : option string) : tame (W := W) (set_listener l).
Proof. apply tame_modify_locals. Qed.

Lemma tame_append_seen (x : string) : tame (W := W) (append_seen x).
Proof. apply tame_modify_locals. Qed.

Lemma tame_append_saved (x : string) : tame (W := W) (append_saved x).
Proof. apply tame_modify_locals. Qed.

Lemma tame_append_error (x : string) : tame (W := W) (append_error x).
Proof. apply tame_modify_locals. Qed.

Lemma tame_set_manual_retry_used (b : bool) : tame (W := W) (set_manual_retry_used b).
Proof. apply tame_modify_locals. Qed.

Lemma tame_reset_download_lists : tame (W := W) reset_download_lists.
Proof. apply tame_modify_locals. Qed.

#[local] Hint Resolve tame_set_listener tame_append_seen tame_append_saved tame_append_error
  tame_set_manual_retry_used tame_reset_download_lists : tame.

Lemma tame_unique_path_scan (n i : nat) (path : string) : tame (unique_path_scan env n i path).
Proof. revert i. induction n as [|n IH]; intros i; simpl; tame_auto. Qed.

#[local] Hint Resolve tame_unique_path_scan : tame.

Lemma tame_unique_path (path : string) : tame (unique_path env path).
Proof. unfold unique_path. tame_auto. Qed.

#[local] Hint Resolve tame_unique_path : tame.

Lemma tame_on_download (dir : string) (d : nat) : tame (on_download env dir d).
Proof. unfold on_download. tame_auto. Qed.

Lemma tame_for_each {A} (f : A -> M W unit) (l : list A) :
  (forall x, tame (f x)) -> tame (for_each f l).
Proof. intros Hf. induction l as [|x l IH]; simpl; tame_auto. Qed.

Lemma tame_deliver : tame (deliver env).
Proof.
  unfold deliver. apply tame_bind; [tame_auto |]. intros [dir|]; [|tame_auto].
  intros st r st'. destruct (downloads_fired env (world st)) as [ds w'].
  intros H. apply (tame_for_each _ _ (tame_on_download dir)) in H. done.
Qed.

Lemma tame_page_call (req : request) : tame (page_call env req).
Proof.
  intros st r st'. unfold page_call.
  destruct (call env req st) as [r1 st1] eqn:H1. apply tame_call in H1.
  destruct (deliver env st1) as [[[]|e|] st2] eqn:H2; apply tame_deliver in H2;
    intros [= <- <-]; tame_close.
Qed.

#[local] Hint Resolve tame_on_download tame_deliver tame_page_call : tame.

Lemma tame_wait_for_timeout (ms : nat) : tame (wait_for_timeout env ms).
Proof. unfold wait_for_timeout. tame_auto. Qed.

Lemma tame_page_on_download (dir : string) : tame (page_on_download env dir).
Proof. unfold page_on_download. tame_auto. Qed.

Lemma tame_remove_download_listener : tame (remove_download_listener env).
Proof. unfold remove_download_listener. tame_auto. Qed.

#[local] Hint Resolve tame_wait_for_timeout tame_page_on_download
  tame_remove_download_listener : tame.

(** A wait that returns has taken its time. *)
Lemma wait_for_timeout_clock (ms : nat) st st' :
  wait_for_timeout env ms st = (Ok tt, st') -> (clock st + ms <= clock st')%nat.
Proof.
  unfold wait_for_timeout. intros (v & st1 & H1 & H2)%bind_Ok_inv.
  apply tame_page_call in H1 as [? _]. injection H2 as <-. simpl. lia.
Qed.

Lemma time_sleep_clock (ms : nat) st st' :
  time_sleep env ms st = (Ok tt, st') -> (clock st + ms <= clock st')%nat.
Proof.
  unfold time_sleep. intros (v & st1 & H1 & H2)%bind_Ok_inv.
  apply tame_call in H1 as [? _]. injection H2 as <-. simpl. lia.
Qed.

(** *** [click_first_visible] returns *)

Lemma tame_click_first_target (selector : string) (n i : nat) :
  tame (click_first_target env selector n i).
Proof. revert i. induction n as [|n IH]; intros i; simpl; tame_auto. Qed.

#[local] Hint Resolve tame_click_first_target : tame.

Lemma tame_try_selector (selector : string) : tame (try_selector env selector).
Proof. unfold try_selector. tame_auto. Qed.

#[local] Hint Resolve tame_try_selector : tame.

Lemma tame_try_selectors (selectors : list string) : tame (try_selectors env selectors).
Proof. induction selectors as [|s l IH]; simpl; tame_auto. Qed.

#[local] Hint Resolve tame_try_selectors : tame.

Lemma click_poll_tame (fuel deadline : nat) (selectors : list string) st r st' :
  (deadline <= clock st + 250 * fuel)%nat ->
  click_poll env fuel deadline selectors st = (r, st') ->
  (clock st <= clock st')%nat /\ trace st `prefix_of` trace st' /\
  run_data st' = run_data st /\ r <> Diverge.
Proof.
  revert st. induction fuel as [|fuel IH]; intros st Hfuel; simpl.
  - unfold bind, time_time, get. destruct (clock st <? deadline)%nat eqn:Hlt.
    + apply Nat.ltb_lt in Hlt. lia.
    + intros [= <- <-]. tame_close.
  - unfold bind at 1. unfold time_time, get.
    destruct (clock st <? deadline)%nat eqn:Hlt; [|intros [= <- <-]; tame_close].
    intros [(o & st1 & H1 & H2) | [(e & H1 & ->) | [H1 ->]]]%bind_inv;
      apply tame_try_selectors in H1; [|tame_close..].
    destruct o as [s|]; [injection H2 as <- <-; tame_close |].
    apply bind_inv in H2 as [([] & st2 & H2 & H3) | [(e & H2 & ->) | [H2 ->]]].
    + pose proof (wait_for_timeout_clock _ _ _ H2). apply tame_wait_for_timeout in H2.
      apply IH in H3; [|lia]. tame_close.
    + apply tame_wait_for_timeout in H2. tame_close.
    + apply tame_wait_for_timeout in H2. tame_close.
Qed.

Lemma tame_click_first_visible (selectors : list string) (timeout : nat) :
  tame (click_first_visible env selectors timeout).
Proof.
  intros st r st'. unfold click_first_visible, bind at 1, time_time, get.
  apply click_poll_tame.
  pose proof (Nat.div_mod_eq timeout 250). pose proof (Nat.mod_upper_bound timeout 250). lia.
Qed.

#[local] Hint Resolve tame_click_first_visible : tame.

(** *** The watch on the downloads directory returns *)

Lemma tame_filter_files (l : list string) : tame (filter_files env l).
Proof. induction l as [|p l IH]; simpl; tame_auto. Qed.

#[local] Hint Resolve tame_filter_files : tame.

Lemma tame_list_candidate_files (dir : string) : tame (list_candidate_files env dir).
Proof. unfold list_candidate_files. tame_auto. Qed.

Lemma tame_sample_sizes (path : string) (n interval : nat) (sizes : list Z) :
  tame (sample_sizes env path n interval sizes).
Proof. revert sizes. induction n as [|n IH]; intros sizes; simpl; tame_auto. Qed.

#[local] Hint Resolve tame_list_candidate_files tame_sample_sizes : tame.

Lemma tame_wait_until_file_is_stable (path : string) (checks interval : nat) :
  tame (wait_until_file_is_stable env path checks interval).
Proof. unfold wait_until_file_is_stable. tame_auto. Qed.

Lemma tame_with_mtimes (l : list string) : tame (with_mtimes env l).
Proof. induction l as [|p l IH]; simpl; tame_auto. Qed.

#[local] Hint Resolve tame_wait_until_file_is_stable tame_with_mtimes : tame.

Lemma tame_first_stable (l : list string) : tame (first_stable env l).
Proof. induction l as [|p l IH]; simpl; tame_auto. Qed.

#[local] Hint Resolve tame_first_stable : tame.

Lemma download_poll_tame (fuel : nat) (dir : string) (baseline : gset string)
    (start timeout : nat) st r st' :
  (start + timeout < clock st + 1000 * fuel)%nat ->
  download_poll env (S fuel) dir baseline start timeout st = (r, st') ->
  (clock st <= clock st')%nat /\ trace st `prefix_of` trace st' /\
  run_data st' = run_data st /\ r <> Diverge.
Proof.
  revert st. induction fuel as [|fuel IH]; intros st Hfuel.
  all: cbn [download_poll].
  all: intros [(files & st1 & H1 & H2) | [(e & H1 & ->) | [H1 ->]]]%bind_inv;
    apply tame_list_candidate_files in H1; [|tame_close..].
  all: apply bind_inv in H2 as [(keyed & st2 & H2 & H3) | [(e & H2 & ->) | [H2 ->]]];
    apply tame_with_mtimes in H2; [|tame_close..].
  all: apply bind_inv in H3 as [(found & st3 & H3 & H4) | [(e & H3 & ->) | [H3 ->]]];
    apply tame_first_stable in H3; [|tame_close..].
  all: destruct found as [path|]; [injection H4 as <- <-; tame_close |].
  all: unfold bind at 1, time_time, get in H4.
  all: destruct (timeout <? clock st3 - start)%nat eqn:Hlt;
    [injection H4 as <- <-; tame_close |].
  all: apply Nat.ltb_ge in Hlt.
  - destruct H1, H2, H3. lia.
  - apply bind_inv in H4 as [([] & st4 & H4 & H5) | [(e & H4 & ->) | [H4 ->]]].
    + pose proof (time_sleep_clock _ _ _ H4). apply tame_time_sleep in H4.
      apply IH in H5; [tame_close |]. destruct H1, H2, H3. lia.
    + apply tame_time_sleep in H4. tame_close.
    + apply tame_time_sleep in H4. tame_close.
Qed.

Lemma tame_wait_for_new_completed_download (dir : string) (baseline : gset string)
    (timeout : nat) : tame (wait_for_new_completed_download env dir baseline timeout).
Proof.
  intros st r st'. unfold wait_for_new_completed_download, bind at 1, time_time, get.
  replace (timeout / 1000 + 2)%nat with (S (timeout / 1000 + 1)) by lia.
  apply download_poll_tame.
  pose proof (Nat.div_mod_eq timeout 1000). pose proof (Nat.mod_upper_bound timeout 1000).
  lia.
Qed.

#[local] Hint Resolve tame_wait_for_new_completed_download : tame.

(** *** [process_mod] returns *)

Lemma tame_direct_attempt cookie files_url game file dir fallback ctx :
  tame (direct_attempt env cookie files_url game file dir fallback ctx).
Proof. unfold direct_attempt. tame_auto. Qed.

#[local] Hint Resolve tame_direct_attempt : tame.

Lemma tame_direct_path mod_url cookie files_url game file dir fallback :
  tame (direct_path env mod_url cookie files_url game file dir fallback).
Proof. unfold direct_path. tame_auto. Qed.

Lemma tame_navigate (n : nat) (files_url : string) (nav_error : option string) :
  tame (navigate env n files_url nav_error).
Proof. revert nav_error. induction n as [|n IH]; intros nav_error; simpl; tame_auto. Qed.

#[local] Hint Resolve tame_direct_path tame_navigate : tame.

Lemma tame_manual_retry : tame (manual_retry env).
Proof. unfold manual_retry. tame_auto. Qed.

#[local] Hint Resolve tame_manual_retry : tame.

Lemma tame_saved_step (mod_url : string) : tame (saved_step env mod_url).
Proof. unfold saved_step. tame_auto. Qed.

Lemma tame_seen_step (mod_url : string) : tame (seen_step env mod_url).
Proof. unfold seen_step. tame_auto. Qed.

Lemma tame_started_step : tame (started_step env).
Proof. unfold started_step. tame_auto. Qed.

Lemma tame_detect_step (mod_url dir : string) (baseline : gset string) :
  tame (detect_step env mod_url dir baseline).
Proof. unfold detect_step. tame_auto. Qed.

#[local] Hint Resolve tame_saved_step tame_seen_step tame_started_step tame_detect_step : tame.

Lemma tame_and_then (m k : M W flow) : tame m -> tame k -> tame (and_then m k).
Proof. intros Hm Hk. unfold and_then. tame_auto. Qed.

Lemma tame_completion_body (mod_url dir : string) (baseline : gset string) :
  tame (completion_body env mod_url dir baseline).
Proof. unfold completion_body. repeat apply tame_and_then; tame_auto. Qed.

#[local] Hint Resolve tame_completion_body : tame.

Lemma and_then_inv (m k : M W flow) st f st' :
  and_then m k st = (Ok f, st') ->
  (exists st1, m st = (Ok Go, st1) /\ k st1 = (Ok f, st')) \/
  (m st = (Ok f, st') /\ f <> Go).
Proof.
  unfold and_then. intros (f1 & st1 & H1 & H2)%bind_Ok_inv.
  destruct f1; [left; eauto | right; injection H2 as <- <-; done..].
Qed.

Lemma paced_and_then (n : nat) (m k : M W flow) :
  tame m -> paced n m -> paced n k -> paced n (and_then m k).
Proof.
  intros Tm Hm Hk st st' [(st1 & H1 & H2) | [H1 _]]%and_then_inv.
  - apply Tm in H1 as [? _]. apply Hk in H2. lia.
  - by apply Hm.
Qed.

Lemma paced_manual_retry : paced 1000 (manual_retry env).
Proof.
  intros st st'. unfold manual_retry.
  intros ([] & st1 & H1 & H2)%bind_Ok_inv.
  apply bind_Ok_inv in H2 as (o & st2 & H2 & H3).
  apply bind_Ok_inv in H3 as ([] & st3 & H3 & H4).
  injection H4 as <-.
  apply tame_set_manual_retry_used in H1 as [? _].
  apply tame_click_first_visible in H2 as [? _].
  apply wait_for_timeout_clock in H3. lia.
Qed.

Lemma paced_saved_step (mod_url : string) : paced 500 (saved_step env mod_url).
Proof.
  intros st st'. unfold saved_step. intros (saved & st1 & _ & H)%bind_Ok_inv.
  destruct (last saved); [|done].
  by apply bind_Ok_inv in H as (? & ? & _ & [=]).
Qed.

Lemma paced_seen_step (mod_url : string) : paced 500 (seen_step env mod_url).
Proof.
  intros st st'. unfold seen_step. intros (seen & st1 & [= <- <-] & H)%bind_Ok_inv.
  destruct (last _); [|done].
  destruct (is_good_archive_name _); [done |].
  apply bind_Ok_inv in H as (used & st2 & [= <- <-] & H).
  destruct (negb _).
  - apply paced_manual_retry in H. lia.
  - by apply bind_Ok_inv in H as (? & ? & _ & [=]).
Qed.

Lemma paced_started_step : paced 500 (started_step env).
Proof.
  intros st st'. unfold started_step, try_except.
  destruct (bind _ _ st) as [[f|e|] st1] eqn:H; [|by destruct (is_Exception e) | done].
  intros [= -> ->].
  apply bind_Ok_inv in H as (v & st2 & H1 & H).
  apply bind_Ok_inv in H as (count & st3 & H2 & H).
  apply bind_Ok_inv in H as (visible & st4 & H3 & H).
  apply tame_page_call in H1 as [? _]. apply tame_as_int in H2 as [? _].
  assert (clock st3 <= clock st4)%nat.
  { destruct (0 <? count); [|by injection H3 as <- <-].
    assert (tame (bind (page_call env (IsVisible (First "text=Your download has started")))
                    (fun v => as_bool v))) as T by tame_auto.
    by apply T in H3 as [? _]. }
  destruct visible; [|done].
  apply bind_Ok_inv in H as (used & st5 & [= <- <-] & H).
  destruct (negb _); [|done].
  apply paced_manual_retry in H. lia.
Qed.

Lemma detect_step_flow (mod_url dir : string) (baseline : gset string) st f st' :
  detect_step env mod_url dir baseline st = (Ok f, st') ->
  (exists item, f = Return item) \/ (f = Continue /\ (clock st + 500 <= clock st')%nat).
Proof.
  unfold detect_step. intros (d & st1 & H1 & H)%bind_Ok_inv.
  apply tame_wait_for_new_completed_download in H1 as [? _].
  destruct d as [path|].
  - apply bind_Ok_inv in H as (? & ? & _ & [= <- <-]). eauto.
  - apply bind_Ok_inv in H as ([] & st2 & H2 & [= <- <-]).
    apply wait_for_timeout_clock in H2. right. split; [done | lia].
Qed.

(** An iteration of the completion loop that does not return takes at
    least half a second. *)
Lemma completion_body_flow (mod_url dir : string) (baseline : gset string) st f st' :
  completion_body env mod_url dir baseline st = (Ok f, st') ->
  (exists item, f = Return item) \/ (clock st + 500 <= clock st')%nat.
Proof.
  unfold completion_body.
  intros [(st1 & H1 & H) | [H1 Hf]]%and_then_inv.
  2: { destruct f as [| |item]; [done | | eauto]. apply paced_saved_step in H1. eauto. }
  apply tame_saved_step in H1 as [? _].
  apply and_then_inv in H as [(st2 & H2 & H) | [H2 Hf]].
  2: { destruct f as [| |item]; [done | | eauto]. apply paced_seen_step in H2. right. lia. }
  apply tame_seen_step in H2 as [? _].
  apply and_then_inv in H as [(st3 & H3 & H) | [H3 Hf]].
  2: { destruct f as [| |item]; [done | | eauto]. apply paced_started_step in H3. right. lia. }
  apply tame_started_step in H3 as [? _].
  apply detect_step_flow in H as [? | [_ ?]]; [by left | right; lia].
Qed.

Lemma completion_loop_tame (fuel deadline : nat) (mod_url dir : string)
    (baseline : gset string) st r st' :
  (deadline <= clock st + 500 * fuel)%nat ->
  completion_loop env fuel deadline mod_url dir baseline st = (r, st') ->
  (clock st <= clock st')%nat /\ trace st `prefix_of` trace st' /\
  run_data st' = run_data st /\ r <> Diverge.
Proof.
  assert (Hafter : tame (bind (remove_download_listener env) (fun _ =>
            bind (get (fun st => download_errors (locals st))) (fun errors =>
              match last errors with
              | Some e => ret (item_result mod_url "partial" ("download_save_error:" +:+ e))
              | None => ret (item_result mod_url "partial"
                               "download_signal_not_detected_in_time")
              end)))) by tame_auto.
  revert st. induction fuel as [|fuel IH]; intros st Hfuel; simpl.
  - unfold bind at 1, time_time, get. destruct (clock st <? deadline)%nat eqn:Hlt.
    + apply Nat.ltb_lt in Hlt. lia.
    + apply Hafter.
  - unfold bind at 1. unfold time_time, get.
    destruct (clock st <? deadline)%nat eqn:Hlt; [|apply Hafter].
    intros [(f & st1 & H1 & H2) | [(e & H1 & ->) | [H1 ->]]]%bind_inv;
      [|apply tame_completion_body in H1; tame_close..].
    pose proof (completion_body_flow _ _ _ _ _ _ H1) as Hflow.
    apply tame_completion_body in H1.
    destruct f as [| |item]; [| |injection H2 as <- <-; tame_close].
    + destruct Hflow as [[? [=]] | ?]. apply IH in H2; [tame_close | lia].
    + destruct Hflow as [[? [=]] | ?]. apply IH in H2; [tame_close | lia].
Qed.

Lemma tame_click_sequence mod_url click_timeout verify dir download_timeout baseline :
  tame (click_sequence env mod_url click_timeout verify dir download_timeout baseline).
Proof.
  unfold click_sequence. apply tame_bind; [tame_auto |]. intros o.
  apply tame_bind; [tame_auto |]. intros [s|item]; [|tame_auto].
  destruct verify; [|tame_auto].
  intros st r st'. unfold bind at 1, time_time, get.
  unfold bind at 1, set_manual_retry_used, modify.
  intros H. apply completion_loop_tame in H; [done |]. cbn [clock with_locals].
  generalize (Nat.max 3000 download_timeout). intros n.
  pose proof (Nat.div_mod_eq n 500). pose proof (Nat.mod_upper_bound n 500). lia.
Qed.

#[local] Hint Resolve tame_click_sequence : tame.

Lemma tame_click_fallback mod_url files_url click_timeout dry_run verify dir download_timeout :
  tame (click_fallback env mod_url files_url click_timeout dry_run verify dir
          download_timeout).
Proof. unfold click_fallback. tame_auto. Qed.

#[local] Hint Resolve tame_click_fallback : tame.

(** [process_mod] comes to an end: its polling loops are bounded by the
    clock. *)
Lemma tame_process_mod mod_url click_timeout dry_run verify dir download_timeout cookie game :
  tame (process_mod env mod_url click_timeout dry_run verify dir download_timeout
          cookie game).
Proof. unfold process_mod. tame_auto. Qed.

#[local] Hint Resolve tame_process_mod : tame.

(** *** What [process_mod] returns *)

Lemma yields_ret {A} (a : A) (P : A -> Prop) : P a -> yields (W := W) (ret a) P.
Proof. by intros H st a' st' [= <- <-]. Qed.

Lemma yields_raise {A} (e : exn) (P : A -> Prop) : yields (@raise W A e) P.
Proof. by intros st a st'. Qed.

Lemma yields_bind {A B} (m : M W A) (k : A -> M W B) (P : B -> Prop) :
  (forall a, yields (k a) P) -> yields (bind m k) P.
Proof. intros Hk st b st' (a & st1 & _ & H)%bind_Ok_inv. by eapply Hk. Qed.

Lemma yields_bind_with {A B} (Q : A -> Prop) (m : M W A) (k : A -> M W B) (P : B -> Prop) :
  yields m Q -> (forall a, Q a -> yields (k a) P) -> yields (bind m k) P.
Proof.
  intros Hm Hk st b st' (a & st1 & H1 & H)%bind_Ok_inv. eapply Hk; [|done]. by eapply Hm.
Qed.

Lemma yields_try_except {A} (m : M W A) (c : exn -> bool) (h : exn -> M W A) (P : A -> Prop) :
  yields m P -> (forall e, yields (h e) P) -> yields (try_except m c h) P.
Proof.
  intros Hm Hh st a st'. unfold try_except.
  destruct (m st) as [[a1|e|] st1] eqn:H1; [|destruct (c e)|]; intros H.
  - injection H as <- <-. by eapply Hm.
  - by eapply Hh.
  - done.
  - done.
Qed.

Lemma yields_and_then (m k : M W flow) (P : flow -> Prop) :
  yields m P -> yields k P -> yields (and_then m k) P.
Proof.
  intros Hm Hk st f st' [(st1 & _ & H) | [H _]]%and_then_inv; [by eapply Hk | by eapply Hm].
Qed.

Ltac yields_step :=
  first
    [ apply yields_raise
    | apply yields_bind; intros ?
    | apply yields_try_except; [| intros ?]
    | match goal with
      | |- yields (match ?x with _ => _ end) _ =>
          let E := fresh "E" in destruct x eqn:E
      end ].

Ltac yields_auto := repeat yields_step.

Lemma direct_guard_verify verify cookie game t v :
  direct_guard verify cookie game t = Some v -> verify = true.
Proof.
  unfold direct_guard. destruct cookie, game, t as [[[?|] [?|]] [?|]]; try done.
  by destruct verify.
Qed.

Lemma yields_direct_path url cookie files_url game file dir fallback dry_run :
  yields (direct_path env url cookie files_url game file dir fallback)
    (resolved_option url true dry_run).
Proof.
  unfold direct_path. yields_auto; apply yields_ret; simpl; try done.
  all: split; [done | split; [done |]]; simpl.
  - by apply direct_ok.
  - by apply direct_suspicious.
  - by apply direct_insecure_ok.
  - by apply direct_suspicious.
Qed.

Lemma yields_saved_step url :
  yields (saved_step env url) (resolved_flow url true false).
Proof.
  unfold saved_step. yields_auto; apply yields_ret; simpl; try done.
  split; [done | split; [done |]]. by apply download_saved.
Qed.

Lemma yields_manual_retry (P : flow -> Prop) : P Continue -> yields (manual_retry env) P.
Proof. intros H. unfold manual_retry. yields_auto. by apply yields_ret. Qed.

Lemma yields_seen_step url :
  yields (seen_step env url) (resolved_flow url true false).
Proof.
  unfold seen_step. yields_auto; try (by apply yields_manual_retry);
    apply yields_ret; simpl; try done.
  split; [done | split; [done |]]. by apply suspicious_filename.
Qed.

Lemma yields_started_step url :
  yields (started_step env) (resolved_flow url true false).
Proof.
  unfold started_step. yields_auto; try (by apply yields_manual_retry);
    by apply yields_ret.
Qed.

Lemma yields_wait_until_file_is_stable path checks interval :
  yields (wait_until_file_is_stable env path checks interval)
    (fun stable => stable = true -> is_temp_download path = false).
Proof.
  unfold wait_until_file_is_stable. apply yields_bind. intros e.
  destruct (negb e || is_temp_download path) eqn:E.
  - by apply yields_ret.
  - apply orb_false_iff in E as [_ E]. yields_auto; by apply yields_ret.
Qed.

Lemma yields_first_stable (l : list string) :
  yields (first_stable env l)
    (fun found => forall path, found = Some path -> is_temp_download path = false).
Proof.
  induction l as [|p l IH]; simpl; [by apply yields_ret |].
  eapply yields_bind_with; [apply yields_wait_until_file_is_stable |].
  intros [] Hstable; [|done].
  apply yields_ret. intros ? [= <-]. auto.
Qed.

Lemma yields_download_poll fuel dir baseline start timeout :
  yields (download_poll env fuel dir baseline start timeout)
    (fun found => forall path, found = Some path -> is_temp_download path = false).
Proof.
  induction fuel as [|fuel IH]; simpl; [done |].
  apply yields_bind. intros files. apply yields_bind. intros keyed.
  eapply yields_bind_with; [apply yields_first_stable |].
  intros [path|] Hfound; [by apply yields_ret |].
  apply yields_bind. intros now. destruct (_ <? _)%nat; [by apply yields_ret |].
  by apply yields_bind.
Qed.

Lemma yields_wait_for_new_completed_download dir baseline timeout :
  yields (wait_for_new_completed_download env dir baseline timeout)
    (fun found => forall path, found = Some path -> is_temp_download path = false).
Proof.
  unfold wait_for_new_completed_download. apply yields_bind. intros start.
  apply yields_download_poll.
Qed.

Lemma yields_detect_step url dir baseline :
  yields (detect_step env url dir baseline) (resolved_flow url true false).
Proof.
  unfold detect_step.
  eapply yields_bind_with; [apply yields_wait_for_new_completed_download |].
  intros [path|] Hpath; yields_auto; apply yields_ret; simpl; [|done].
  split; [done | split; [done |]]. apply file_detected; auto.
Qed.

Lemma yields_completion_body url dir baseline :
  yields (completion_body env url dir baseline) (resolved_flow url true false).
Proof.
  unfold completion_body.
  auto using yields_and_then, yields_saved_step, yields_seen_step, yields_started_step,
    yields_detect_step.
Qed.

Lemma yields_completion_loop fuel deadline url dir baseline :
  yields (completion_loop env fuel deadline url dir baseline) (resolved url true false).
Proof.
  assert (Hafter : yields (bind (remove_download_listener env) (fun _ =>
            bind (get (fun st => download_errors (locals st))) (fun errors =>
              match last errors with
              | Some e => ret (item_result url "partial" ("download_save_error:" +:+ e))
              | None => ret (item_result url "partial"
                               "download_signal_not_detected_in_time")
              end))) (resolved url true false)).
  { yields_auto; apply yields_ret; (split; [done | split; [done |]]); simpl.
    - by apply save_error.
    - by apply signal_not_detected. }
  induction fuel as [|fuel IH]; simpl.
  - apply yields_bind. intros now. by destruct (_ <? _)%nat.
  - apply yields_bind. intros now. destruct (_ <? _)%nat; [|done].
    eapply yields_bind_with; [apply yields_completion_body |].
    intros [| |item] Hf; [done | done | by apply yields_ret].
Qed.

Lemma yields_click_sequence url click_timeout verify dir download_timeout baseline :
  yields (click_sequence env url click_timeout verify dir download_timeout baseline)
    (resolved url verify false).
Proof.
  unfold click_sequence. apply yields_bind. intros o.
  eapply (yields_bind_with
            (fun x => match x with
                      | inl _ => True
                      | inr item => resolved url verify false item
                      end)).
  - yields_auto; apply yields_ret; try done.
    all: split; [done | split; [done |]]; simpl.
    + by apply confirmation_button_not_found.
    + by apply manual_button_not_found.
  - intros [s|item] Hitem; [|by apply yields_ret].
    destruct verify.
    + yields_auto. apply yields_completion_loop.
    + yields_auto. apply yields_ret. split; [done | split; [done |]]. simpl.
      by apply clicked_unverified.
Qed.

Lemma yields_click_fallback url files_url click_timeout dry_run verify dir download_timeout :
  yields (click_fallback env url files_url click_timeout dry_run verify dir
            download_timeout)
    (resolved url verify dry_run).
Proof.
  unfold click_fallback. apply yields_bind. intros [e|].
  - apply yields_ret. split; [done | split; [done |]]. simpl. apply navigation_failed.
  - apply yields_bind. intros _. destruct dry_run.
    + apply yields_ret. split; [done | split; [done |]]. simpl. by apply navigation_only.
    + do 3 (apply yields_bind; intros ?). apply yields_click_sequence.
Qed.

(** Every item that [process_mod] returns comes from one of its [return]
    statements. *)
Lemma yields_process_mod url click_timeout dry_run verify dir download_timeout cookie game :
  yields (process_mod env url click_timeout dry_run verify dir download_timeout cookie game)
    (resolved url verify dry_run).
Proof.
  unfold process_mod. apply yields_bind. intros t.
  eapply (yields_bind_with (resolved_option url verify dry_run)).
  - destruct (direct_guard _ _ _ _) as [[[[[c g] f] m] d]|] eqn:G; [|by apply yields_ret].
    rewrite (direct_guard_verify _ _ _ _ _ G). apply yields_direct_path.
  - intros [item|] Hitem; [by apply yields_ret | apply yields_click_fallback].
Qed.

(** *** The calls a computation makes *)

Lemma emits_ret {A} (P : request -> Prop) (a : A) : emits (W := W) P (ret a).
Proof. intros st r st' [= <- <-]. exists []. by rewrite app_nil_r. Qed.

Lemma emits_raise {A} (P : request -> Prop) (e : exn) : emits P (@raise W A e).
Proof. intros st r st' [= <- <-]. exists []. by rewrite app_nil_r. Qed.

Lemma emits_get {A} (P : request -> Prop) (f : St W -> A) : emits (W := W) P (get f).
Proof. intros st r st' [= <- <-]. exists []. by rewrite app_nil_r. Qed.

Lemma emits_modify_locals (P : request -> Prop) (f : Locals -> Locals) :
  emits P (modify (W := W) (with_locals f)).
Proof. intros st r st' [= <- <-]. exists []. simpl. by rewrite app_nil_r. Qed.

Lemma emits_advance (P : request -> Prop) (ms : nat) : emits P (advance (W := W) ms).
Proof. intros st r st' [= <- <-]. exists []. simpl. by rewrite app_nil_r. Qed.

Lemma emits_call (P : request -> Prop) (req : request) : P req -> emits P (call env req).
Proof.
  intros HP st r st'. unfold call. destruct (perform env (world st) req) as [r0 w'].
  intros [= <- <-]. exists [req]. simpl. by repeat constructor.
Qed.

Lemma emits_bind {A B} (P : request -> Prop) (m : M W A) (k : A -> M W B) :
  emits P m -> (forall a, emits P (k a)) -> emits P (bind m k).
Proof.
  intros Hm Hk st r st' [(a & st1 & H1 & H2) | [(e & H1 & ->) | [H1 ->]]]%bind_inv.
  - apply Hm in H1 as (t1 & E1 & ?). apply Hk in H2 as (t2 & E2 & ?).
    exists (t1 ++ t2). rewrite E2, E1, app_assoc. split; [done | by apply Forall_app].
  - by apply Hm in H1.
  - by apply Hm in H1.
Qed.

Lemma emits_try_except {A} (P : request -> Prop) (m : M W A) (c : exn -> bool)
    (h : exn -> M W A) :
  emits P m -> (forall e, emits P (h e)) -> emits P (try_except m c h).
Proof.
  intros Hm Hh st r st'. unfold try_except.
  destruct (m st) as [[a|e|] st1] eqn:H1; apply Hm in H1 as (t1 & Ht1 & ?).
  - intros [= <- <-]. eauto.
  - destruct (c e); [|intros [= <- <-]; eauto].
    intros (t2 & Ht2 & ?)%Hh. exists (t1 ++ t2). rewrite Ht2, Ht1, app_assoc.
    split; [done | by apply Forall_app].
  - intros [= <- <-]. eauto.
Qed.

Lemma emits_weaken {A} (P Q : request -> Prop) (m : M W A) :
  (forall req, P req -> Q req) -> emits P m -> emits Q m.
Proof.
  intros HPQ Hm st r st' (t & E & Ht)%Hm. exists t. split; [done |].
  eapply Forall_impl; eauto.
Qed.

Ltac emits_step :=
  first
    [ apply emits_ret | apply emits_raise | apply emits_get | apply emits_advance
    | apply emits_modify_locals
    | apply emits_call; solve [simpl; auto]
    | assumption
    | solve [eauto with emits]
    | apply emits_bind; [| intros ?]
    | apply emits_try_except; [| intros ?]
    | match goal with
      | |- emits _ (match ?x with _ => _ end) => destruct x
      end ].

Ltac emits_auto := repeat emits_step.

Lemma emits_unique_path_scan n i path : emits listener_request (unique_path_scan env n i path).
Proof.
  revert i. induction n as [|n IH]; intros i; simpl; [emits_auto |].
  unfold path_exists, as_bool, type_error. emits_auto.
Qed.

Lemma emits_on_download dir d : emits listener_request (on_download env dir d).
Proof.
  pose proof emits_unique_path_scan.
  unfold on_download, unique_path, path_mkdir, path_exists, as_str, as_bool, type_error,
    append_seen, append_saved, append_error.
  emits_auto.
Qed.

Lemma emits_for_each {A} (P : request -> Prop) (f : A -> M W unit) (l : list A) :
  (forall x, emits P (f x)) -> emits P (for_each f l).
Proof. intros Hf. induction l as [|x l IH]; simpl; emits_auto. Qed.

Lemma emits_deliver : emits listener_request (deliver env).
Proof.
  unfold deliver. apply emits_bind; [emits_auto |]. intros [dir|]; [|emits_auto].
  intros st r st'. destruct (downloads_fired env (world st)) as [ds w'].
  intros H. by apply (emits_for_each _ _ _ (emits_on_download dir)) in H.
Qed.

Lemma emits_page_call (P : request -> Prop) (req : request) :
  passes_listener P -> P req -> emits P (page_call env req).
Proof.
  intros HL HP st r st'. unfold page_call.
  destruct (call env req st) as [r1 st1] eqn:H1.
  apply (emits_call P req HP) in H1 as (t1 & Ht1 & ?).
  destruct (deliver env st1) as [[[]|e|] st2] eqn:H2;
    apply (emits_weaken _ P _ HL emits_deliver) in H2 as (t2 & Ht2 & ?);
    intros [= <- <-]; exists (t1 ++ t2); rewrite Ht2, Ht1, app_assoc;
    (split; [done | by apply Forall_app]).
Qed.

Lemma passes_listener_searches (selectors : list string) :
  passes_listener (searches selectors).
Proof. by intros []. Qed.

Lemma emits_wait_for_timeout (P : request -> Prop) (ms : nat) :
  passes_listener P -> P (WaitForTimeout ms) -> emits P (wait_for_timeout env ms).
Proof.
  intros HL HP. unfold wait_for_timeout.
  apply emits_bind; [by apply emits_page_call | intros ?; emits_auto].
Qed.

Lemma emits_click_first_target (selectors : list string) (selector : string) (n i : nat) :
  selector ∈ selectors -> emits (searches selectors) (click_first_target env selector n i).
Proof.
  intros Hin. pose proof (passes_listener_searches selectors) as HL.
  revert i. induction n as [|n IH]; intros i; simpl; [emits_auto |].
  apply emits_bind; [by apply emits_page_call |]. intros v.
  unfold as_bool, type_error. apply emits_bind; [emits_auto |]. intros [].
  - apply emits_bind; [by apply emits_page_call | intros ?; emits_auto].
  - apply IH.
Qed.

Lemma emits_try_selector (selectors : list string) (selector : string) :
  selector ∈ selectors -> emits (searches selectors) (try_selector env selector).
Proof.
  intros Hin. pose proof (passes_listener_searches selectors) as HL.
  unfold try_selector. apply emits_try_except; [|intros ?; emits_auto].
  apply emits_bind; [by apply emits_page_call |]. intros v.
  unfold as_int, type_error. apply emits_bind; [emits_auto |]. intros count.
  destruct (count <=? 0); [emits_auto |]. by apply emits_click_first_target.
Qed.

Lemma emits_try_selectors (selectors l : list string) :
  l ⊆ selectors -> emits (searches selectors) (try_selectors env l).
Proof.
  induction l as [|s l IH]; intros Hsub; simpl; [emits_auto |].
  apply emits_bind.
  - apply emits_try_selector. apply Hsub. by left.
  - intros []; [emits_auto |]. apply IH. intros x Hx. apply Hsub. by right.
Qed.

Lemma emits_click_poll (selectors : list string) (fuel deadline : nat) :
  emits (searches selectors) (click_poll env fuel deadline selectors).
Proof.
  pose proof (passes_listener_searches selectors) as HL.
  induction fuel as [|fuel IH]; simpl.
  - apply emits_bind; [emits_auto |]. intros now. destruct (_ <? _)%nat; [|emits_auto].
    intros st r st' [= <- <-]. exists []. by rewrite app_nil_r.
  - apply emits_bind; [emits_auto |]. intros now. destruct (_ <? _)%nat; [|emits_auto].
    apply emits_bind; [by apply emits_try_selectors |]. intros [s|]; [emits_auto |].
    apply emits_bind; [by apply emits_wait_for_timeout | done].
Qed.

(** A search touches only the locators of the selectors it is given. *)
Lemma emits_click_first_visible (selectors : list string) (timeout : nat) :
  emits (searches selectors) (click_first_visible env selectors timeout).
Proof.
  unfold click_first_visible. apply emits_bind; [emits_auto |]. intros now.
  apply emits_click_poll.
Qed.

(** A search that finds nothing has lasted until its deadline. *)
Lemma click_poll_none (selectors : list string) (fuel deadline : nat) st st' :
  click_poll env fuel deadline selectors st = (Ok None, st') ->
  (deadline <= clock st')%nat.
Proof.
  revert st. induction fuel as [|fuel IH]; intros st; simpl.
  - unfold bind, time_time, get. destruct (clock st <? deadline)%nat eqn:Hlt; [done |].
    intros [= <-]. by apply Nat.ltb_ge.
  - unfold bind at 1. unfold time_time, get.
    destruct (clock st <? deadline)%nat eqn:Hlt;
      [|intros [= <-]; by apply Nat.ltb_ge].
    intros ([s|] & st1 & H1 & H2)%bind_Ok_inv; [done |].
    apply bind_Ok_inv in H2 as ([] & st2 & _ & H3). eauto.
Qed.

Lemma click_first_visible_none (selectors : list string) (timeout : nat) st st' :
  click_first_visible env selectors timeout st = (Ok None, st') ->
  (clock st + timeout <= clock st')%nat.
Proof.
  unfold click_first_visible, bind at 1, time_time, get. apply click_poll_none.
Qed.

(** A search that returns a selector has clicked a visible target of it. *)
Lemma try_selectors_some (l : list string) st s st' :
  try_selectors env l st = (Ok (Some s), st') -> s ∈ l.
Proof.
  revert st. induction l as [|x l IH]; intros st; simpl; [done |].
  intros ([] & st1 & _ & H)%bind_Ok_inv.
  - injection H as <- <-. by left.
  - right. eauto.
Qed.

Lemma click_first_visible_some (selectors : list string) (timeout : nat) st s st' :
  click_first_visible env selectors timeout st = (Ok (Some s), st') -> s ∈ selectors.
Proof.
  unfold click_first_visible, bind at 1, time_time, get.
  generalize (timeout / 250 + 1)%nat (clock st + timeout)%nat. intros fuel deadline.
  revert st. induction fuel as [|fuel IH]; intros st; simpl.
  - unfold bind, time_time, get. by destruct (_ <? _)%nat.
  - unfold bind at 1. unfold time_time, get. destruct (_ <? _)%nat; [|done].
    intros ([x|] & st1 & H1 & H2)%bind_Ok_inv.
    + injection H2 as <- <-. eauto using try_selectors_some.
    + apply bind_Ok_inv in H2 as ([] & st2 & _ & H3). eauto.
Qed.

(** *** What a search does on the page *)

Lemma counted_app (t1 t2 : list request) : counted (t1 ++ t2) = counted t1 ++ counted t2.
Proof. apply omap_app. Qed.

Lemma counted_listener (t : list request) : Forall listener_request t -> counted t = [].
Proof.
  induction 1 as [|req t Hreq _ IH]; [done |].
  by destruct req.
Qed.

Lemma rounds_S (k : nat) (selectors : list string) :
  rounds (S k) selectors = selectors ++ rounds k selectors.
Proof. done. Qed.

(** A call on the page is recorded, and after it only the listener is at
    work. *)
Lemma page_call_trace (req : request) st r st' :
  page_call env req st = (r, st') ->
  exists tl, trace st' = trace st ++ req :: tl /\ Forall listener_request tl.
Proof.
  unfold page_call. destruct (call env req st) as [r1 st1] eqn:H1.
  assert (trace st1 = trace st ++ [req]) as Ht1.
  { unfold call in H1. destruct (perform env _ _). by injection H1 as _ <-. }
  destruct (deliver env st1) as [r2 st2] eqn:H2.
  apply emits_deliver in H2 as (tl & Htl & Hl).
  intros H. assert (st' = st2) as -> by (by destruct r2 as [[]| |]; injection H).
  exists tl. by rewrite Htl, Ht1, <- app_assoc.
Qed.

Lemma wait_for_timeout_trace (ms : nat) st r st' :
  wait_for_timeout env ms st = (r, st') ->
  exists tl, trace st' = trace st ++ WaitForTimeout ms :: tl /\ Forall listener_request tl.
Proof.
  unfold wait_for_timeout.
  intros [(v & st1 & H1 & H2) | [(e & H1 & _) | [H1 _]]]%bind_inv;
    apply page_call_trace in H1 as (tl & Ht & Hl); exists tl; [|done..].
  by injection H2 as _ <-.
Qed.

Lemma as_bool_state (v : value) (st : St W) r st' : as_bool v st = (r, st') -> st' = st.
Proof. destruct v; by intros [= _ <-]. Qed.

Lemma as_int_state (v : value) (st : St W) r st' : as_int v st = (r, st') -> st' = st.
Proof. destruct v; by intros [= _ <-]. Qed.

(** The targets of a selector are looked at in order; a click ends it. *)
Lemma click_first_target_trace (selector : string) (n : nat) :
  forall i st r st',
    click_first_target env selector n i st = (r, st') ->
    exists t, trace st' = trace st ++ t /\ counted t = [] /\
      (r = Ok true ->
       exists j t0 tl, (j < i + n)%nat /\ t = t0 ++ Click (Nth selector j) 1500 :: tl /\
                       Forall listener_request tl).
Proof.
  induction n as [|n IH]; intros i st r st'; simpl.
  - intros [= <- <-]. exists []. by rewrite app_nil_r.
  - intros [(v & st1 & H1 & H) | [(e & H1 & ->) | [H1 ->]]]%bind_inv;
      apply page_call_trace in H1 as (tl1 & Ht1 & Hl1).
    2,3: exists (IsVisible (Nth selector i) :: tl1); split; [done |];
         split; [by apply (counted_listener tl1) | done].
    apply bind_inv in H as [(visible & st2 & Hv & H) | [(e & Hv & ->) | [Hv ->]]].
    2,3: apply as_bool_state in Hv as ->;
         exists (IsVisible (Nth selector i) :: tl1); split; [done |];
         split; [by apply (counted_listener tl1) | done].
    apply as_bool_state in Hv as ->.
    destruct visible.
    + apply bind_inv in H as [(v2 & st3 & H2 & H) | [(e & H2 & ->) | [H2 ->]]];
        apply page_call_trace in H2 as (tl2 & Ht2 & Hl2).
      * injection H as <- <-.
        exists (IsVisible (Nth selector i) :: tl1 ++ Click (Nth selector i) 1500 :: tl2).
        split; [by rewrite Ht2, Ht1, <- app_assoc |].
        split.
        { change (counted (IsVisible (Nth selector i) :: ?t)) with (counted t).
          rewrite counted_app, (counted_listener tl1 Hl1).
          by apply (counted_listener tl2). }
        intros _. exists i, (IsVisible (Nth selector i) :: tl1), tl2.
        split; [lia | done].
      * exists (IsVisible (Nth selector i) :: tl1 ++ Click (Nth selector i) 1500 :: tl2).
        split; [by rewrite Ht2, Ht1, <- app_assoc |].
        split; [|done].
        change (counted (IsVisible (Nth selector i) :: ?t)) with (counted t).
        rewrite counted_app, (counted_listener tl1 Hl1).
        by apply (counted_listener tl2).
      * exists (IsVisible (Nth selector i) :: tl1 ++ Click (Nth selector i) 1500 :: tl2).
        split; [by rewrite Ht2, Ht1, <- app_assoc |].
        split; [|done].
        change (counted (IsVisible (Nth selector i) :: ?t)) with (counted t).
        rewrite counted_app, (counted_listener tl1 Hl1).
        by apply (counted_listener tl2).
    + apply IH in H as (t & Ht & Hc & Hclick).
      exists (IsVisible (Nth selector i) :: tl1 ++ t).
      split; [by rewrite Ht, Ht1, <- app_assoc |].
      split.
      { change (counted (IsVisible (Nth selector i) :: ?t)) with (counted t).
        by rewrite counted_app, (counted_listener tl1 Hl1), Hc. }
      intros Hr. destruct (Hclick Hr) as (j & t0 & tl & Hj & -> & Hl).
      exists j, (IsVisible (Nth selector i) :: tl1 ++ t0), tl.
      split; [lia |]. split; [|done]. by rewrite <- app_comm_cons, <- app_assoc.
Qed.

(** One selector: it is counted once, and a click ends it. *)
Lemma try_selector_trace (selector : string) st r st' :
  try_selector env selector st = (r, st') ->
  exists t, trace st' = trace st ++ t /\ counted t = [selector] /\
    (r = Ok true ->
     exists j t0 tl, (j < 8)%nat /\ t = t0 ++ Click (Nth selector j) 1500 :: tl /\
                     Forall listener_request tl).
Proof.
  unfold try_selector, try_except.
  set (body := bind _ _).
  assert (forall r1 st1, body st = (r1, st1) ->
    exists t, trace st1 = trace st ++ t /\ counted t = [selector] /\
      (r1 = Ok true ->
       exists j t0 tl, (j < 8)%nat /\ t = t0 ++ Click (Nth selector j) 1500 :: tl /\
                       Forall listener_request tl)) as Hbody.
  { intros r1 st1. unfold body.
    intros [(v & st2 & H1 & H) | [(e & H1 & ->) | [H1 ->]]]%bind_inv;
      apply page_call_trace in H1 as (tl1 & Ht1 & Hl1).
    2,3: exists (Count (Locator selector) :: tl1); split; [done |];
         split; [by rewrite <- (counted_listener tl1 Hl1) | done].
    apply bind_inv in H as [(count & st3 & Hv & H) | [(e & Hv & ->) | [Hv ->]]].
    2,3: apply as_int_state in Hv as ->;
         exists (Count (Locator selector) :: tl1); split; [done |];
         split; [by rewrite <- (counted_listener tl1 Hl1) | done].
    apply as_int_state in Hv as ->.
    destruct (count <=? 0) eqn:Hc.
    - injection H as <- <-. exists (Count (Locator selector) :: tl1). split; [done |].
      split; [by rewrite <- (counted_listener tl1 Hl1) | done].
    - apply click_first_target_trace in H as (t & Ht & Hcnt & Hclick).
      exists (Count (Locator selector) :: tl1 ++ t).
      split; [by rewrite Ht, Ht1, <- app_assoc |].
      split.
      { change (counted (Count (Locator selector) :: ?t)) with (selector :: counted t).
        by rewrite counted_app, (counted_listener tl1 Hl1), Hcnt. }
      intros Hr. destruct (Hclick Hr) as (j & t0 & tl & Hj & -> & Hl).
      exists j, (Count (Locator selector) :: tl1 ++ t0), tl.
      split; [lia |]. split; [|done]. by rewrite <- app_comm_cons, <- app_assoc. }
  destruct (body st) as [[b|e|] st1] eqn:Hb.
  - intros [= <- <-]. by apply Hbody.
  - destruct (Hbody _ _ eq_refl) as (t & Ht & Hcnt & _).
    destruct (is_PlaywrightError e); intros [= <- <-]; by exists t.
  - intros [= <- <-]. destruct (Hbody _ _ eq_refl) as (t & Ht & Hcnt & _). by exists t.
Qed.

(** A round over the selectors counts them in order, and stops at the one
    whose target it clicks. *)
Lemma try_selectors_trace (l : list string) st r st' :
  try_selectors env l st = (r, st') ->
  exists t, trace st' = trace st ++ t /\
    match r with
    | Ok None => counted t = l
    | Ok (Some s) =>
        exists pre post j t0 tl,
          l = pre ++ s :: post /\ counted t = pre ++ [s] /\ (j < 8)%nat /\
          t = t0 ++ Click (Nth s j) 1500 :: tl /\ Forall listener_request tl
    | _ => True
    end.
Proof.
  revert st. induction l as [|s l IH]; intros st; simpl.
  - intros [= <- <-]. exists []. by rewrite app_nil_r.
  - intros [(clicked & st1 & H1 & H) | [(e & H1 & ->) | [H1 ->]]]%bind_inv;
      apply try_selector_trace in H1 as (t1 & Ht1 & Hc1 & Hclick).
    2,3: by exists t1.
    destruct clicked.
    + injection H as <- <-. exists t1. split; [done |].
      destruct (Hclick eq_refl) as (j & t0 & tl & Hj & -> & Hl).
      by exists [], l, j, t0, tl.
    + apply IH in H as (t & Ht & Hr). exists (t1 ++ t).
      split; [by rewrite Ht, Ht1, <- app_assoc |].
      destruct r as [[s'|]|e|]; [| |done..].
      * destruct Hr as (pre & post & j & t0 & tl & -> & Hc & Hj & -> & Hl).
        exists (s :: pre), post, j, (t1 ++ t0), tl.
        split; [done |]. split; [by rewrite counted_app, Hc1, Hc |].
        split; [done |]. split; [by rewrite <- app_assoc | done].
      * by rewrite counted_app, Hc1, Hr.
Qed.

(** The polling loop makes whole rounds until its deadline. *)
Lemma click_poll_trace (selectors : list string) (fuel deadline : nat) st r st' :
  click_poll env fuel deadline selectors st = (r, st') ->
  exists t, trace st' = trace st ++ t /\
    match r with
    | Ok None =>
        exists k, counted t = rounds k selectors /\ (k <= fuel)%nat /\
                  ((clock st < deadline)%nat -> (0 < k)%nat)
    | Ok (Some s) =>
        exists k pre post j t0 tl,
          (k < fuel)%nat /\ selectors = pre ++ s :: post /\
          counted t = rounds k selectors ++ pre ++ [s] /\ (j < 8)%nat /\
          t = t0 ++ Click (Nth s j) 1500 :: tl /\ Forall listener_request tl
    | _ => True
    end.
Proof.
  revert st. induction fuel as [|fuel IH]; intros st; simpl.
  - unfold bind, time_time, get. destruct (clock st <? deadline)%nat eqn:Hlt.
    + intros [= <- <-]. exists []. by rewrite app_nil_r.
    + intros [= <- <-]. exists []. rewrite app_nil_r. split; [done |].
      exists 0%nat. apply Nat.ltb_ge in Hlt. split; [done |]. split; lia.
  - unfold bind at 1. unfold time_time, get. destruct (clock st <? deadline)%nat eqn:Hlt.
    2:{ intros [= <- <-]. exists []. rewrite app_nil_r. split; [done |].
        exists 0%nat. apply Nat.ltb_ge in Hlt. split; [done |]. split; lia. }
    intros [(found & st1 & H1 & H) | [(e & H1 & ->) | [H1 ->]]]%bind_inv;
      apply try_selectors_trace in H1 as (t1 & Ht1 & Hr1).
    2,3: by exists t1.
    destruct found as [s|].
    + injection H as <- <-. exists t1. split; [done |].
      destruct Hr1 as (pre & post & j & t0 & tl & Hsel & Hc & Hj & Ht & Hl).
      exists 0%nat, pre, post, j, t0, tl. split; [lia |]. done.
    + apply bind_inv in H as [([] & st2 & H2 & H) | [(e & H2 & ->) | [H2 ->]]];
        apply wait_for_timeout_trace in H2 as (tl2 & Ht2 & Hl2).
      2,3: exists (t1 ++ WaitForTimeout 250 :: tl2);
           split; [by rewrite Ht2, Ht1, <- app_assoc | done].
      apply IH in H as (t & Ht & Hr).
      exists (t1 ++ (WaitForTimeout 250 :: tl2) ++ t).
      split; [by rewrite Ht, Ht2, Ht1, <- !app_assoc |].
      assert (counted (t1 ++ (WaitForTimeout 250 :: tl2) ++ t) = selectors ++ counted t) as Hc.
      { rewrite !counted_app, Hr1.
        change (counted (WaitForTimeout 250 :: tl2)) with (counted tl2).
        by rewrite (counted_listener tl2 Hl2). }
      destruct r as [[s'|]|e|]; [| |done..].
      * destruct Hr as (k & pre & post & j & t0 & tl & Hk & Hsel & Hcnt & Hj & -> & Hl).
        exists (S k), pre, post, j, (t1 ++ (WaitForTimeout 250 :: tl2) ++ t0), tl.
        split; [lia |]. split; [done |].
        split; [by rewrite Hc, Hcnt, rounds_S, <- app_assoc |].
        split; [done |]. split; [by rewrite <- !app_assoc | done].
      * destruct Hr as (k & Hcnt & Hk & _). exists (S k).
        split; [by rewrite Hc, Hcnt, rounds_S |]. split; lia.
Qed.

(** [click_first_visible] searches the selectors as [searched] says. *)
Lemma click_first_visible_searched (selectors : list string) (timeout : nat) st r st' :
  click_first_visible env selectors timeout st = (r, st') ->
  searched selectors timeout st st' r.
Proof.
  intros H. destruct (emits_click_first_visible selectors timeout _ _ _ H) as (t & Ht & Hall).
  exists t. split; [done |]. split; [done |].
  pose proof (tame_click_first_visible selectors timeout _ _ _ H) as (_ & _ & _ & Hdiv).
  pose proof H as H'. unfold click_first_visible, bind at 1, time_time, get in H'.
  apply click_poll_trace in H' as (t' & Ht' & Hr).
  assert (t' = t) as -> by (rewrite Ht in Ht'; by apply app_inv_head in Ht').
  destruct r as [[s|]|e|]; [| |done..].
  - destruct Hr as (k & pre & post & j & t0 & tl & Hk & Hsel & Hc & Hj & Htt & Hl).
    exists k, pre, post, j. split; [done |]. split; [done |]. split; [done |].
    by exists t0, tl.
  - destruct Hr as (k & Hc & Hk & Hpos). split.
    + exists k. split; [done |]. intros Ht0. apply Hpos. simpl. lia.
    + by apply click_first_visible_none in H.
Qed.

End Monad.

(** ** C8 and C4: the statements *)

Section Extraction.

Context {W : Type} (env : Env W).

Lemma collect_links_NoDup url st r st' :
  collect_links_via_network env url st = (Ok r, st') -> NoDup (links r).
Proof.
  unfold collect_links_via_network.
  intros (v & st1 & _ & H)%bind_Ok_inv.
  apply bind_Ok_inv in H as (l & st2 & _ & H).
  destruct (gather_links l 0 []) as [matched ls]. injection H as <- <-. simpl.
  apply dedupe_links_NoDup.
Qed.

Lemma extract_mod_links_NoDup st r st' :
  extract_mod_links env st = (Ok r, st') -> NoDup r.
Proof.
  unfold extract_mod_links.
  intros (v & st1 & _ & H)%bind_Ok_inv.
  apply bind_Ok_inv in H as (l & st2 & _ & H). injection H as <- <-.
  apply dedupe_links_NoDup.
Qed.

Lemma NoDup_take {A} (n : nat) (l : list A) : NoDup l -> NoDup (take n l).
Proof.
  intros H. rewrite <- (take_drop n l) in H. by apply NoDup_app in H as [? _].
Qed.

(** The queue of a run holds no link twice. *)
Lemma extract_queue_NoDup url max_mods st queue game st' :
  extract_queue env url max_mods st = (Ok (queue, game), st') -> NoDup queue.
Proof.
  unfold extract_queue.
  intros (r & st1 & H1 & H)%bind_Ok_inv. apply collect_links_NoDup in H1.
  apply bind_Ok_inv in H as (? & st2 & _ & H).
  apply bind_Ok_inv in H as (g & st3 & _ & H).
  apply bind_Ok_inv in H as (? & st4 & _ & H).
  apply bind_Ok_inv in H as (ls & st5 & H2 & H).
  apply bind_Ok_inv in H as (? & st6 & _ & H). injection H as <- <- <-.
  assert (NoDup ls) as Hls.
  { destruct (links r) eqn:E.
    - apply bind_Ok_inv in H2 as (dom & st7 & H2 & H3).
      apply extract_mod_links_NoDup in H2.
      apply bind_Ok_inv in H3 as (? & ? & _ & [= <- <-]). done.
    - injection H2 as <- <-. done. }
  destruct (0 <? max_mods); [by apply NoDup_take | done].
Qed.

End Extraction.

(** C8: the entries that [dedupe_links] returns are canonical forms, each
    one its own canonical form, and no two of them are equal; they are the
    first occurrences of the canonical targets in input order, so that
    [dedupe([a,b,a,c]) = [a,b,c]]; the links of an [ExtractionResult], and
    the queue built from them, hold no duplicate. *)
Theorem C8_dedupe_first_seen_unique {W} (env : Env W) :
  (forall links,
     NoDup (dedupe_links links) /\
     Forall (fun x => normalize_mod_target_url x = Some x) (dedupe_links links) /\
     dedupe_links links = keep_first (omap normalize_mod_target_url links) /\
     (forall i j x y,
        dedupe_links links !! i = Some x -> dedupe_links links !! j = Some y ->
        x = y -> i = j)) /\
  (forall a b c,
     normalize_mod_target_url a = Some a ->
     normalize_mod_target_url b = Some b ->
     normalize_mod_target_url c = Some c ->
     a <> b -> a <> c -> b <> c ->
     dedupe_links [a; b; a; c] = [a; b; c]) /\
  (forall url st r st',
     collect_links_via_network env url st = (Ok r, st') -> NoDup (links r)) /\
  (forall url max_mods st queue game st',
     extract_queue env url max_mods st = (Ok (queue, game), st') -> NoDup queue).
Proof.
  split; [|split; [|split]].
  - intros links. split; [apply dedupe_links_NoDup |].
    split.
    { apply Forall_forall. intros x (link & _ & Hx)%dedupe_links_elem.
      by eapply normalize_mod_target_url_idempotent. }
    split; [apply dedupe_links_keep_first |].
    intros i j x y Hi Hj <-. eapply NoDup_lookup; eauto using dedupe_links_NoDup.
  - intros a b c Ha Hb Hc Hab Hac Hbc. rewrite dedupe_links_keep_first. simpl.
    rewrite Ha, Hb, Hc. simpl.
    repeat (rewrite ?filter_cons, ?filter_nil;
            repeat (first [rewrite decide_True by congruence
                          | rewrite decide_False by (intros ?; congruence)])).
    done.
  - apply collect_links_NoDup.
  - apply extract_queue_NoDup.
Qed.

Lemma C8_witness :
  dedupe_links ["https://www.nexusmods.com/skyrim/mods/10";
                "https://www.nexusmods.com/skyrim/mods/20?tab=files&file_id=5";
                "https://www.nexusmods.com/skyrim/mods/10";
                "https://www.nexusmods.com/skyrim/mods/30"]
  = ["https://www.nexusmods.com/skyrim/mods/10";
     "https://www.nexusmods.com/skyrim/mods/20?tab=files&file_id=5";
     "https://www.nexusmods.com/skyrim/mods/30"] /\
  NoDup ["https://www.nexusmods.com/skyrim/mods/10"].
Proof.
  split.
  - apply (proj1 (proj2 (C8_dedupe_first_seen_unique (stateless quiet))));
      first [vm_compute; reflexivity | discriminate].
  - apply (proj1 (proj2 (proj2 (C8_dedupe_first_seen_unique collection_world)))
             "https://www.nexusmods.com/games/skyrim/collections/abc/mods" (start 0)
             {| links := ["https://www.nexusmods.com/skyrim/mods/10"];
                strategy := "network_graphql";
                details := {| payload_candidates_seen := 1; payloads_parsed := 1 |} |}
             (snd (collect_links_via_network collection_world
                     "https://www.nexusmods.com/games/skyrim/collections/abc/mods"
                     (start 0)))).
    apply run_eq. vm_compute. reflexivity.
Defined.

(** C4 (as stated, refuted): two accepted URLs that differ in the letter
    case of the game domain have the same identity triple and different
    canonical strings. *)
Lemma C4_counterexample :
  normalize_mod_target_url "https://nexusmods.com/Skyrim/mods/10"
    = Some "https://www.nexusmods.com/Skyrim/mods/10" /\
  normalize_mod_target_url "https://nexusmods.com/skyrim/mods/10"
    = Some "https://www.nexusmods.com/skyrim/mods/10" /\
  parse_mod_target "https://nexusmods.com/Skyrim/mods/10" = Some (Some "skyrim", Some 10, None) /\
  parse_mod_target "https://nexusmods.com/skyrim/mods/10" = Some (Some "skyrim", Some 10, None) /\
  "https://www.nexusmods.com/Skyrim/mods/10" <> "https://www.nexusmods.com/skyrim/mods/10".
Proof. repeat split; try (vm_compute; reflexivity). discriminate. Qed.

(** C4 (amended): for two URLs that the normalizer accepts, the canonical
    strings are equal if and only if the URLs spell the same path (trailing
    slashes apart) and carry the same positive file id; equal canonical
    strings have equal (domain, modId, fileId) triples. *)
Theorem C4_canonical_iff_same_parts (u1 u2 c1 c2 : string) :
  normalize_mod_target_url u1 = Some c1 ->
  normalize_mod_target_url u2 = Some c2 ->
  (c1 = c2 <-> target_parts u1 = target_parts u2) /\
  (c1 = c2 ->
   exists t, parse_mod_target u1 = Some t /\ parse_mod_target u2 = Some t).
Proof.
  intros H1 H2. split.
  - rewrite normalize_target_parts in H1, H2.
    destruct (target_parts u1) as [[p1 f1]|] eqn:E1; [|done].
    destruct (target_parts u2) as [[p2 f2]|] eqn:E2; [|done].
    injection H1 as <-. injection H2 as <-.
    apply target_parts_path in E1 as [Hp1 Hf1]. apply target_parts_path in E2 as [Hp2 Hf2].
    split; [|by intros [= -> ->]].
    intros Hc. f_equal. by apply canonical_of_inj.
  - intros <-. destruct (parse_mod_target_returns u1) as [t Ht]. exists t.
    split; [done |]. rewrite <- Ht. unfold parse_mod_target. by rewrite H1, H2.
Qed.

Lemma C4_witness :
  ("https://www.nexusmods.com/skyrim/mods/10?tab=files&file_id=7"
     = "https://www.nexusmods.com/skyrim/mods/10?tab=files&file_id=7" <->
   target_parts "http://nexusmods.com/skyrim/mods/10/?file_id=7&x=1"
     = target_parts "https://www.nexusmods.com/skyrim/mods/10?file_id=+7") /\
  ("https://www.nexusmods.com/skyrim/mods/10?tab=files&file_id=7"
     = "https://www.nexusmods.com/skyrim/mods/10?tab=files&file_id=7" ->
   exists t,
     parse_mod_target "http://nexusmods.com/skyrim/mods/10/?file_id=7&x=1" = Some t /\
     parse_mod_target "https://www.nexusmods.com/skyrim/mods/10?file_id=+7" = Some t).
Proof.
  apply C4_canonical_iff_same_parts; vm_compute; reflexivity.
Defined.

(** ** The Download Resolver *)

(** One step of a run: the next computation of a sequence comes to what the
    hypothesis says. *)
Ltac run H := unfold bind, ret; cbv beta iota; rewrite H; cbv beta iota.

Section Resolver.

Context {W : Type} (env : Env W).

(** The direct path makes one resolution call and, when that returns a
    URL, one download call, both under the context it is given. *)
Lemma direct_attempt_trace cookie files_url game file dir fallback ctx st r st' :
  direct_attempt env cookie files_url game file dir fallback ctx st = (r, st') ->
  trace st' = trace st ++ [ResolveDownloadUrl cookie files_url game file ctx] \/
  exists u, trace st' = trace st ++ [ResolveDownloadUrl cookie files_url game file ctx;
                                    DirectDownloadToFolder u dir fallback ctx].
Proof.
  unfold direct_attempt, bind, call.
  destruct (perform env (world st) _) as [[v|e] w1]; simpl; [|intros [= <- <-]; by left].
  destruct v; simpl; try (intros [= <- <-]; by left).
  destruct (perform env w1 _) as [[v|e] w2]; simpl.
  - destruct v; simpl; intros [= <- <-]; right; eexists; by rewrite <- app_assoc.
  - intros [= <- <-]. right. eexists. by rewrite <- app_assoc.
Qed.

Lemma direct_attempt_ok_trace cookie files_url game file dir fallback ctx st d st' :
  direct_attempt env cookie files_url game file dir fallback ctx st = (Ok d, st') ->
  exists u, trace st' = trace st ++ [ResolveDownloadUrl cookie files_url game file ctx;
                                    DirectDownloadToFolder u dir fallback ctx].
Proof.
  unfold direct_attempt, bind, call.
  destruct (perform env (world st) _) as [[v|e] w1]; simpl; [|done].
  destruct v; simpl; try done.
  destruct (perform env w1 _) as [[v|e] w2]; simpl; [|done].
  destruct v; simpl; try done.
  intros [= <- <-]. eexists. simpl. by rewrite <- app_assoc.
Qed.

(** [process_mod] up to the end of the direct path. *)
Lemma process_mod_direct url click_timeout dry_run verify dir download_timeout cookie_header
    game_id t cookie game file mod_id domain_name st :
  parse_mod_target url = Some t ->
  direct_guard verify cookie_header game_id t = Some (cookie, game, file, mod_id, domain_name) ->
  process_mod env url click_timeout dry_run verify dir download_timeout cookie_header game_id st
  = match direct_path env url cookie (files_tab_url url) game file dir
            (fallback_archive_name domain_name mod_id file) st with
    | (Ok (Some item), st1) => (Ok item, st1)
    | (Ok None, st1) =>
        click_fallback env url (files_tab_url url) click_timeout dry_run verify dir
          download_timeout st1
    | (Raise e, st1) => (Raise e, st1)
    | (Diverge, st1) => (Diverge, st1)
    end.
Proof.
  intros Hparse Hguard. unfold process_mod. rewrite Hparse.
  unfold bind at 1. unfold ret at 1. cbv beta iota. rewrite Hguard. unfold bind.
  by destruct (direct_path _ _ _ _ _ _ _ _ _) as [[[item|]|e|] st1].
Qed.

(** [process_mod] when the direct path is not attempted. *)
Lemma process_mod_click url click_timeout dry_run verify dir download_timeout cookie_header
    game_id t st :
  parse_mod_target url = Some t ->
  direct_guard verify cookie_header game_id t = None ->
  process_mod env url click_timeout dry_run verify dir download_timeout cookie_header game_id st
  = click_fallback env url (files_tab_url url) click_timeout dry_run verify dir
      download_timeout st.
Proof.
  intros Hparse Hguard. unfold process_mod. rewrite Hparse.
  unfold bind at 1. unfold ret at 1. cbv beta iota. by rewrite Hguard.
Qed.



Lemma yields_direct_path_status url cookie files_url game file dir fallback :
  yields (direct_path env url cookie files_url game file dir fallback)
    (fun o => forall item, o = Some item -> status item = "ok" \/ status item = "partial").
Proof.
  unfold direct_path.
  repeat first [ apply yields_raise
               | apply yields_bind; intros ?
               | apply yields_try_except; [| intros ?]
               | match goal with
                 | |- yields (if ?b then _ else _) _ => destruct b
                 end ];
    apply yields_ret; intros ? [= <-]; auto.
Qed.

Lemma navigate_goto (n : nat) (url : string) (nav_error : option string) st st' :
  navigate env n url nav_error st = (Ok None, st') ->
  (nav_error = None -> n <> O) ->
  exists t, trace st' = trace st ++ t /\ Goto url ∈ t.
Proof.
  revert nav_error st. induction n as [|n IH]; intros nav_error st; simpl.
  - intros [= -> <-] Hn. by destruct Hn.
  - intros H _. unfold try_except in H.
    destruct (bind _ _ st) as [[o|e|] st1] eqn:H1.
    + injection H as -> ->.
      apply bind_Ok_inv in H1 as (v & st2 & H1 & [= <-]).
      unfold page_call in H1. destruct (call env _ st) as [r0 st0] eqn:H0.
      assert (trace st0 = trace st ++ [Goto url]) as E0.
      { unfold call in H0. destruct (perform env _ _). by injection H0 as <- <-. }
      destruct (deliver env st0) as [r3 st3] eqn:H3.
      apply tame_deliver in H3 as (_ & [k Hk] & _).
      assert (st3 = st2) as -> by (by destruct r3 as [[]| |]; injection H1).
      exists ([Goto url] ++ k). rewrite Hk, E0, <- app_assoc. split; [done |].
      apply elem_of_app. left. by apply list_elem_of_singleton.
    + destruct (is_Exception e); [|done].
      apply bind_Ok_inv in H as ([] & st2 & H2 & H3).
      assert (tame (bind (page_call env (Goto url)) (fun _ => ret (@None string)))) as T
        by (apply tame_bind; [apply tame_page_call | intros; apply tame_ret]).
      apply T in H1 as (_ & [k1 Hk1] & _).
      apply tame_wait_for_timeout in H2 as (_ & [k2 Hk2] & _).
      apply IH in H3 as (t & Ht & Hin); [|done].
      exists (k1 ++ k2 ++ t). rewrite Ht, Hk2, Hk1, <- !app_assoc. split; [done |].
      rewrite !elem_of_app. auto.
    + done.
Qed.

(** C10: [dry_run] gates the click fallback only.  With verification on
    and the cookie header, game id and file id known, the direct download
    is issued with [dry_run] set and the item is [ok] or [partial]; the
    status [dry_run] is returned only after the navigation of the click
    fallback, and only when [dry_run] is set. *)
Theorem C10_dry_run_gates_click_fallback_only url click_timeout dry_run verify dir
    download_timeout cookie_header game_id st :
  (forall t cookie game file mod_id domain_name downloaded st1,
     parse_mod_target url = Some t ->
     direct_guard verify cookie_header game_id t
       = Some (cookie, game, file, mod_id, domain_name) ->
     direct_attempt env cookie (files_tab_url url) game file dir
       (fallback_archive_name domain_name mod_id file) DefaultContext st
       = (Ok downloaded, st1) ->
     process_mod env url click_timeout true verify dir download_timeout cookie_header
       game_id st
     = (Ok (if is_good_archive_name (Path.name downloaded)
            then item_result url "ok" ("direct_download:" +:+ downloaded)
            else item_result url "partial"
                   ("direct_download_suspicious:" +:+ Path.name downloaded)), st1) /\
     exists u,
       trace st1 = trace st ++
         [ResolveDownloadUrl cookie (files_tab_url url) game file DefaultContext;
          DirectDownloadToFolder u dir (fallback_archive_name domain_name mod_id file)
            DefaultContext]) /\
  (forall item st',
     process_mod env url click_timeout dry_run verify dir download_timeout cookie_header
       game_id st = (Ok item, st') ->
     status item = "dry_run" ->
     dry_run = true /\ reason item = "navigation_only" /\
     exists t, trace st' = trace st ++ t /\ Goto (files_tab_url url) ∈ t).
Proof.
  split.
  - intros t cookie game file mod_id domain_name downloaded st1 Hparse Hguard Hdirect.
    split.
    + rewrite (process_mod_direct _ _ _ _ _ _ _ _ _ _ _ _ _ _ _ Hparse Hguard).
      unfold direct_path, try_except, bind. rewrite Hdirect.
      by destruct (is_good_archive_name _).
    + eauto using direct_attempt_ok_trace.
  - intros item st' H Hstatus. unfold process_mod in H.
    apply bind_Ok_inv in H as (t & st0 & H0 & H).
    assert (st0 = st) as -> by (destruct (parse_mod_target url); by injection H0).
    apply bind_Ok_inv in H as (o & st1 & H1 & H).
    assert (trace st `prefix_of` trace st1 /\
            forall i, o = Some i -> status i = "ok" \/ status i = "partial") as [[k1 Hk1] Ho].
    { destruct (direct_guard _ _ _ _) as [[[[[c g] f] m] d]|].
      - split; [by apply tame_direct_path in H1 as (_ & ? & _) |].
        by apply yields_direct_path_status in H1.
      - injection H1 as <- <-. done. }
    destruct o as [i|].
    { injection H as -> ->. destruct (Ho item eq_refl) as [E | E]; by rewrite E in Hstatus. }
    clear Ho H1. unfold click_fallback in H.
    apply bind_Ok_inv in H as (nav & st2 & H2 & H).
    destruct nav as [e|]; [injection H as <- <-; done |].
    apply navigate_goto in H2 as (t2 & Ht2 & Hin); [|done].
    apply bind_Ok_inv in H as (o & st3 & H3 & H).
    apply tame_click_first_visible in H3 as (_ & [k3 Hk3] & _).
    destruct dry_run.
    + injection H as <- <-. split; [done |]. split; [done |].
      exists (k1 ++ t2 ++ k3). rewrite Hk3, Ht2, Hk1, <- !app_assoc. split; [done |].
      rewrite !elem_of_app. auto.
    + exfalso. apply bind_Ok_inv in H as (b & st4 & _ & H).
      apply bind_Ok_inv in H as (? & st5 & _ & H).
      apply bind_Ok_inv in H as (? & st6 & _ & H).
      apply yields_click_sequence in H as (_ & _ & H). rewrite Hstatus in H.
      by inversion H.
Qed.

(** *** Which reasons carry a path for the install stage *)

Lemma find_download_path_saved (p : string) :
  find_download_path ("download_saved:" +:+ p) = Some (Py.strip p).
Proof. reflexivity. Qed.

Lemma find_download_path_direct (p : string) :
  find_download_path ("direct_download:" +:+ p) = Some (Py.strip p).
Proof. reflexivity. Qed.

Lemma find_download_path_insecure (p : string) :
  find_download_path ("direct_download_insecure_ssl:" +:+ p) = Some (Py.strip p).
Proof. reflexivity. Qed.

(** The reasons of an [ok] item, and the path that [find_download_path]
    reads from each. *)
Lemma resolution_ok verify dry_run reason :
  resolution verify dry_run "ok" reason ->
  (verify = true /\
   ((exists p, (reason = "direct_download:" +:+ p \/
                reason = "direct_download_insecure_ssl:" +:+ p \/
                reason = "download_saved:" +:+ p) /\
               find_download_path reason = Some (Py.strip p)) \/
    (exists path, reason = "download_file_detected:" +:+ Path.name path /\
                  is_temp_download path = false /\
                  find_download_path reason = None))) \/
  (verify = false /\ reason = "manual_and_slow_clicked" /\
   find_download_path reason = None).
Proof.
  inversion 1; subst.
  - left. split; [done |]. left. eexists. split; [eauto |]. reflexivity.
  - left. split; [done |]. left. eexists. split; [eauto |]. reflexivity.
  - left. split; [done |]. left. eexists. split; [eauto |]. reflexivity.
  - left. split; [done |]. right. eexists. split; [done |]. split; [done |]. reflexivity.
  - right. done.
Qed.

(** A reason that carries a path belongs to an [ok] item. *)
Lemma resolution_path verify dry_run status reason p :
  resolution verify dry_run status reason ->
  find_download_path reason = Some p -> status = "ok".
Proof. inversion 1; subst; try done; intros [=]. Qed.

Lemma resolution_status verify dry_run status reason :
  resolution verify dry_run status reason -> status ∈ STATUSES.
Proof.
  inversion 1; subst; unfold STATUSES; repeat first [by left | right].
Qed.


(** *** The watch on the downloads directory and temporary files *)

Lemma yields_filter_files (P : string -> Prop) (l : list string) :
  Forall P l -> yields (filter_files env l) (Forall P).
Proof.
  induction 1 as [|p l Hp Hl IH]; simpl; [by apply yields_ret |].
  apply yields_bind. intros f.
  eapply yields_bind_with; [apply IH |]. intros r Hr.
  apply yields_ret. destruct f; [by constructor | done].
Qed.

Lemma filter_none {A} (f : A -> bool) (l : list A) :
  Forall (fun x => f x = false) l -> List.filter f l = [].
Proof. induction 1 as [|x l Hx _ IH]; simpl; [done | by rewrite Hx]. Qed.

Section OnlyTemporaryFiles.

Variable dir : string.

Hypothesis only_temporary :
  forall w l w', perform env w (IterDir dir) = (Returned (VStrs l), w') ->
                 Forall (fun p => is_temp_download p = true) l.

Lemma yields_list_candidate_files_temp :
  yields (list_candidate_files env dir) (Forall (fun p => is_temp_download p = true)).
Proof.
  unfold list_candidate_files. apply yields_bind. intros e.
  destruct (negb e); [by apply yields_ret |].
  eapply (yields_bind_with (Forall (fun p => is_temp_download p = true)));
    [|intros l Hl; by apply yields_filter_files].
  intros st l st'. unfold path_iterdir.
  intros (v & st1 & H1 & H2)%bind_Ok_inv.
  unfold call in H1. destruct (perform env (world st) (IterDir dir)) as [[v0|e0] w'] eqn:Hp;
    [|done].
  injection H1 as <- <-. destruct v0; try done. injection H2 as <- <-. eauto.
Qed.

Lemma download_poll_temp fuel baseline start timeout st r st' :
  download_poll env fuel dir baseline start timeout st = (r, st') ->
  r = Ok None \/ r = Diverge \/ exists e, r = Raise e.
Proof.
  revert st. induction fuel as [|fuel IH]; intros st; simpl; [intros [= <- <-]; auto |].
  intros [(files & st1 & H1 & H) | [(e & _ & ->) | [_ ->]]]%bind_inv; [|eauto..].
  apply yields_list_candidate_files_temp in H1.
  rewrite filter_none in H.
  2: { apply Forall_forall. intros p Hp.
       apply elem_of_elements, elem_of_difference in Hp as [Hp _].
       apply elem_of_list_to_set in Hp. rewrite Forall_forall in H1.
       by rewrite (H1 p Hp). }
  simpl in H. unfold bind, ret, time_time, get in H. simpl in H.
  destruct (timeout <? clock st1 - start)%nat; [injection H as <- <-; auto |].
  destruct (time_sleep env 1000 st1) as [[[]|e|] st2];
    [eauto | injection H as <- <-; eauto..].
Qed.

End OnlyTemporaryFiles.

(** C9: the download-completion poll never returns a file with a temporary
    in-progress extension, and the stability check refuses such a file
    without sampling it; over a downloads directory that holds only such
    files ([report.crdownload]) the poll comes to [None] for every timeout,
    however long its calls take. *)
Theorem C9_temporary_file_never_completed dir baseline timeout st r st' :
  wait_for_new_completed_download env dir baseline timeout st = (r, st') ->
  r <> Diverge /\
  (forall path, r = Ok (Some path) -> is_temp_download path = false) /\
  (forall path checks interval st0,
     is_temp_download path = true ->
     wait_until_file_is_stable env path checks interval st0
     = bind (path_exists env path) (fun _ => ret false) st0) /\
  ((forall w l w', perform env w (IterDir dir) = (Returned (VStrs l), w') ->
                   Forall (fun p => is_temp_download p = true) l) ->
   r = Ok None \/ exists e, r = Raise e).
Proof.
  intros H. pose proof (tame_wait_for_new_completed_download env _ _ _ _ _ _ H) as (_ & _ & _ & Hd).
  split; [done |]. split; [|split].
  - intros path ->. by apply (yields_wait_for_new_completed_download env _ _ _ _ _ _ H).
  - intros path checks interval st0 Htemp. unfold wait_until_file_is_stable.
    rewrite Htemp. unfold bind. destruct (path_exists env path st0) as [[e|e|] st1]; [|done..].
    by rewrite orb_true_r.
  - intros Honly. unfold wait_for_new_completed_download, bind at 1, time_time, get in H.
    apply (download_poll_temp dir Honly) in H as [-> | [-> | ?]]; auto. done.
Qed.

End Resolver.

(** ** The Run Orchestrator *)

Section Orchestrator.

Context {W : Type} (env : Env W).

Lemma keeps_results_tame {A} (m : M W A) : tame m -> keeps_results m.
Proof. intros T st r st' (_ & _ & E & _)%T. by rewrite E. Qed.

Lemma keeps_results_ret {A} (a : A) : keeps_results (W := W) (ret a).
Proof. by intros st r st' [= <- <-]. Qed.

Lemma keeps_results_bind {A B} (m : M W A) (k : A -> M W B) :
  keeps_results m -> (forall a, keeps_results (k a)) -> keeps_results (bind m k).
Proof.
  intros Hm Hk st r st' [(a & st1 & H1 & H2) | [(e & H1 & ->) | [H1 ->]]]%bind_inv.
  - apply Hm in H1. apply Hk in H2. congruence.
  - by apply Hm in H1.
  - by apply Hm in H1.
Qed.

Lemma keeps_results_update (f : RunData -> RunData) :
  (forall r, results (f r) = results r) -> keeps_results (update_run_data (W := W) f).
Proof. intros Hf st r st' [= <- <-]. simpl. apply Hf. Qed.

Lemma tame_collect_links url : tame (collect_links_via_network env url).
Proof.
  unfold collect_links_via_network, type_error.
  apply tame_bind; [apply tame_page_call |]. intros v.
  apply tame_bind; [destruct v; first [apply tame_ret | apply tame_raise] |]. intros l.
  destruct (gather_links l 0 []). apply tame_ret.
Qed.

#[local] Hint Resolve tame_ret tame_raise tame_get tame_call tame_page_call
  tame_wait_for_timeout tame_process_mod tame_path_mkdir tame_path_exists
  tame_as_int tame_type_error tame_collect_links : tame.

Ltac tame_go :=
  repeat first
    [ solve [eauto with tame]
    | apply tame_bind; [| intros ?]
    | apply tame_try_except; [| intros ?]
    | match goal with
      | |- tame (match ?x with _ => _ end) => destruct x
      end ].

Ltac keeps_go :=
  repeat first
    [ solve [apply keeps_results_tame; tame_go]
    | apply keeps_results_ret
    | solve [apply keeps_results_update; intros []; reflexivity]
    | apply keeps_results_bind; [| intros ?]
    | match goal with
      | |- keeps_results (match ?x with _ => _ end) => destruct x
      end ].

Lemma tame_extract_game_id : tame (extract_game_id env).
Proof. unfold extract_game_id. tame_go. Qed.

Lemma tame_extract_mod_links : tame (extract_mod_links env).
Proof. unfold extract_mod_links. tame_go. Qed.

Lemma tame_cookie_header_of_session : tame (cookie_header_of_session env).
Proof. unfold cookie_header_of_session. tame_go. Qed.

#[local] Hint Resolve tame_extract_game_id tame_extract_mod_links
  tame_cookie_header_of_session : tame.

Lemma keeps_results_extract_queue url max_mods :
  keeps_results (extract_queue env url max_mods).
Proof. unfold extract_queue. keeps_go. Qed.

Lemma keeps_results_write_zero_queue_artifacts :
  keeps_results (write_zero_queue_artifacts env).
Proof. unfold write_zero_queue_artifacts. keeps_go. Qed.

(** *** The download stage *)

Lemma gathered_paths_app (l1 l2 : list ItemResult) :
  gathered_paths (l1 ++ l2) = gathered_paths l1 ++ gathered_paths l2.
Proof. apply omap_app. Qed.

(** The loop of the download stage appends one item for each link, each
    one an item of [process_mod] whatever its index, and gathers the paths
    that [find_download_path] reads from the reasons. *)
Lemma download_loop_items settings cookie game total links :
  forall idx acc st paths st',
    download_loop env settings cookie game total idx links acc st = (Ok paths, st') ->
    exists items,
      results (run_data st') = results (run_data st) ++ items /\
      paths = acc ++ gathered_paths items /\
      map mod_url items = links /\
      Forall (fun item =>
                resolution (s_verify_downloads settings) (s_dry_run settings)
                  (status item) (reason item)) items.
Proof.
  induction links as [|link links IH]; intros idx acc st paths st'; simpl.
  - intros [= <- <-]. exists []. by rewrite !app_nil_r.
  - intros (item & st1 & Hitem & H)%bind_Ok_inv.
    apply bind_Ok_inv in H as ([] & st2 & Hupd & H).
    apply bind_Ok_inv in H as ([] & st3 & Hwait & H).
    apply IH in H as (items & Hres & -> & Hurls & Hall).
    pose proof (tame_process_mod env _ _ _ _ _ _ _ _ _ _ _ Hitem) as (_ & _ & Hrd & _).
    apply (yields_process_mod env) in Hitem as (_ & Hurl & Hresolution).
    injection Hupd as <-.
    assert (run_data st3 = run_data (with_run_data (append_result (set_index (Z.of_nat idx) item)) st1))
      as Hrd3.
    { destruct (idx <? total)%nat.
      - by apply tame_wait_for_timeout in Hwait as (_ & _ & ? & _).
      - by injection Hwait as <-. }
    exists (set_index (Z.of_nat idx) item :: items). split; [|split; [|split]].
    + rewrite Hres, Hrd3. simpl. by rewrite Hrd, <- app_assoc.
    + change (gathered_paths (set_index (Z.of_nat idx) item :: items))
        with (match find_download_path (reason (set_index (Z.of_nat idx) item)) with
              | Some p => p :: gathered_paths items
              | None => gathered_paths items
              end).
      change (reason (set_index (Z.of_nat idx) item)) with (reason item).
      destruct (find_download_path (reason item)); [by rewrite <- app_assoc | done].
    + simpl. by rewrite Hurl, Hurls.
    + by constructor.
Qed.

Lemma run_download_stage_items settings st paths st' :
  run_download_stage env settings st = (Ok paths, st') ->
  exists items,
    results (run_data st') = results (run_data st) ++ items /\
    paths = gathered_paths items /\
    Forall (fun item =>
              resolution (s_verify_downloads settings) (s_dry_run settings)
                (status item) (reason item)) items.
Proof.
  unfold run_download_stage.
  intros (v & st1 & H1 & H)%bind_Ok_inv.
  apply bind_Ok_inv in H as (cookie & st2 & H2 & H).
  apply bind_Ok_inv in H as ([links game] & st3 & H3 & H).
  apply (keeps_results_tame _ (tame_page_call env _)) in H1.
  apply (keeps_results_tame _ tame_cookie_header_of_session) in H2.
  apply keeps_results_extract_queue in H3.
  assert (results (run_data st3) = results (run_data st)) as E by congruence.
  destruct links as [|link links].
  - apply bind_Ok_inv in H as ([] & st4 & H4 & [= <- <-]).
    apply keeps_results_write_zero_queue_artifacts in H4.
    exists []. rewrite app_nil_r. split; [congruence | done].
  - apply bind_Ok_inv in H as (paths' & st4 & H4 & H).
    apply bind_Ok_inv in H as ([] & st5 & H5 & [= <- <-]).
    apply download_loop_items in H4 as (items & Hres & -> & _ & Hall).
    apply (keeps_results_tame _ (tame_wait_for_timeout env _)) in H5.
    exists items. split; [congruence | done].
Qed.

(** *** The install stage *)

Lemma unique_loop_keep_first (paths : list string) (seen : gset string) (out : list string) :
  unique_loop paths seen out = out ++ keep_first (filter (fun p => p ∉ seen) paths).
Proof.
  revert seen out. induction paths as [|p paths IH]; intros seen out; simpl.
  - by rewrite app_nil_r.
  - rewrite filter_cons. case_bool_decide as Hp.
    + rewrite decide_False by tauto. apply IH.
    + rewrite decide_True by done. rewrite IH, <- app_assoc. simpl. do 2 f_equal.
      rewrite <- keep_first_filter, list_filter_filter. f_equal.
      apply list_filter_iff. intros y.
      rewrite not_elem_of_union, elem_of_singleton. tauto.
Qed.

Lemma unique_downloads_keep_first (paths : list string) :
  unique_downloads paths = keep_first paths.
Proof.
  unfold unique_downloads. rewrite unique_loop_keep_first. simpl. f_equal.
  apply filter_all. apply Forall_forall. intros x _. apply not_elem_of_empty.
Qed.

(** The install loop reports on each archive it was given, in order. *)
Lemma install_loop_archives archives stage_root install_dir :
  forall acc st summary st',
    install_loop env archives stage_root install_dir acc st = (Ok summary, st') ->
    map archive (install_results summary) = map archive (install_results acc) ++ archives.
Proof.
  induction archives as [|a archives IH]; intros acc st summary st'; simpl.
  - intros [= <- <-]. by rewrite app_nil_r.
  - intros (e & st1 & _ & H)%bind_Ok_inv.
    destruct e; simpl in H.
    + apply bind_Ok_inv in H as (v & st2 & _ & H).
      apply bind_Ok_inv in H as ([ok method] & st3 & _ & H).
      destruct ok; simpl in H.
      * apply bind_Ok_inv in H as (v' & st4 & _ & H).
        apply bind_Ok_inv in H as (copied & st5 & _ & H).
        apply IH in H. rewrite H. simpl. by rewrite map_app, <- app_assoc.
      * apply IH in H. rewrite H. simpl. by rewrite map_app, <- app_assoc.
    + apply IH in H. rewrite H. simpl. by rewrite map_app, <- app_assoc.
Qed.

Lemma install_downloaded_archives_archives paths install_dir log_dir rid st summary st' :
  install_downloaded_archives env paths install_dir log_dir rid st = (Ok summary, st') ->
  map archive (install_results summary) = keep_first paths.
Proof.
  unfold install_downloaded_archives.
  intros (? & st1 & _ & H)%bind_Ok_inv.
  apply bind_Ok_inv in H as (? & st2 & _ & H).
  apply bind_Ok_inv in H as (payload & st3 & Hloop & H).
  apply bind_Ok_inv in H as (? & st4 & _ & [= <- <-]).
  apply install_loop_archives in Hloop. by rewrite Hloop, unique_downloads_keep_first.
Qed.

(** C1 (amended): after the browser check, the paths that the download
    stage returns are the ones [find_download_path] reads from the reasons
    of the items the stage appended to the report, in the order of the
    items; a reason that carries a path belongs to an [ok] item, and an
    [ok] item carries one unless its reason is [manual_and_slow_clicked]
    (verification disabled) or names a detected file.  Unless the run is a
    dry run or the install is skipped, these paths are what the runner
    passes to the install stage, which reports on the first occurrence of
    each path, in order. *)
Theorem C1_handoff_of_recorded_paths settings st0 st1 paths st2 :
  ensure_browser env settings st0 = (Ok tt, st1) ->
  run_download_stage env settings st1 = (Ok paths, st2) ->
  (exists items,
     results (run_data st2) = results (run_data st1) ++ items /\
     paths = gathered_paths items /\
     Forall (fun item =>
       (forall p, find_download_path (reason item) = Some p -> status item = "ok") /\
       (status item = "ok" ->
        (exists p, (reason item = "direct_download:" +:+ p \/
                    reason item = "direct_download_insecure_ssl:" +:+ p \/
                    reason item = "download_saved:" +:+ p) /\
                   find_download_path (reason item) = Some (Py.strip p)) \/
        (exists path, reason item = "download_file_detected:" +:+ Path.name path) \/
        (s_verify_downloads settings = false /\ reason item = "manual_and_slow_clicked" /\
         find_download_path (reason item) = None))) items) /\
  runner_stages env settings st0 =
    (if s_skip_install settings || s_dry_run settings then (Ok tt, st2)
     else bind (install_downloaded_archives env paths (s_install_dir settings)
                  (s_log_dir settings) (run_id (run_data st2)))
            (fun summary => update_run_data (set_install_summary summary)) st2) /\
  (forall install_dir log_dir rid st summary st',
     install_downloaded_archives env paths install_dir log_dir rid st = (Ok summary, st') ->
     map archive (install_results summary) = keep_first paths /\
     NoDup (keep_first paths) /\
     forall p, p ∈ keep_first paths <-> p ∈ paths).
Proof.
  intros Hbrowser Hstage. split; [|split].
  - apply run_download_stage_items in Hstage as (items & Hres & -> & Hall).
    exists items. split; [done |]. split; [done |].
    eapply Forall_impl; [exact Hall |]. intros item Hitem. cbv beta in Hitem. split.
    + intros p Hp. exact (resolution_path _ _ _ _ _ Hitem Hp).
    + intros Hok. rewrite Hok in Hitem.
      apply resolution_ok in Hitem as [[_ [Hp | (path & Hd & _)]] | Hm]; eauto.
  - unfold runner_stages. rewrite (bind_Ok _ _ _ _ _ Hbrowser), (bind_Ok _ _ _ _ _ Hstage).
    unfold install_stage. by destruct (s_skip_install settings || s_dry_run settings).
  - intros install_dir log_dir rid st summary st' Hinstall.
    split; [by eapply install_downloaded_archives_archives |].
    split; [apply keep_first_NoDup |]. intros p. apply keep_first_elem.
Qed.

(** *** Fatal errors of a run *)

Lemma call_Ok req st v st' :
  call env req st = (Ok v, st') ->
  trace st' = trace st ++ [req] /\ run_data st' = run_data st.
Proof.
  unfold call. destruct (perform env (world st) req) as [[v0|e] w']; [|done].
  by intros [= <- <-].
Qed.

Lemma write_run_logs_Ok json txt st u st' :
  write_run_logs env json txt st = (Ok u, st') ->
  trace st' = trace st ++ [WriteJson json (run_data st);
                           WriteText txt (build_summary_lines json (run_data st))] /\
  run_data st' = run_data st.
Proof.
  unfold write_run_logs.
  intros (r & st0 & [= <- <-] & H)%bind_Ok_inv.
  apply bind_Ok_inv in H as (v1 & st1 & [Ht1 Hr1]%call_Ok & H).
  apply bind_Ok_inv in H as (v2 & st2 & [Ht2 Hr2]%call_Ok & [= <- <-]).
  rewrite Ht2, Ht1, Hr2, Hr1, <- app_assoc. done.
Qed.

Lemma runner_write_run_logs_Ok log_dir st u st' :
  runner_write_run_logs env log_dir st = (Ok u, st') ->
  trace st' =
    trace st ++
    [Mkdir log_dir;
     WriteJson (Path.join log_dir ("nexus-collection-batch-" +:+ run_id (run_data st) +:+ ".json"))
       (run_data st);
     WriteText (Path.join log_dir ("nexus-collection-batch-" +:+ run_id (run_data st) +:+ ".txt"))
       (runner_summary log_dir (run_data st))] /\
  run_data st' = run_data st.
Proof.
  unfold runner_write_run_logs, path_mkdir.
  intros (? & st0 & H0 & H)%bind_Ok_inv.
  apply bind_Ok_inv in H0 as (v0 & st0' & [Ht0 Hr0]%call_Ok & [= <- <-]).
  apply bind_Ok_inv in H as (r & st1 & [= <- <-] & H).
  apply bind_Ok_inv in H as (v1 & st1 & [Ht1 Hr1]%call_Ok & H).
  apply bind_Ok_inv in H as (v2 & st2 & [Ht2 Hr2]%call_Ok & [= <- <-]).
  rewrite Ht2, Ht1, Ht0, Hr2, Hr1, Hr0, <- !app_assoc. done.
Qed.

Lemma truthy_str_nonempty (s : string) : s <> "" -> Py.truthy_str s = true.
Proof. by destruct s. Qed.

(** The browser-first script: a fatal error of the run is recorded, both
    logs are written with it, and the exit code is 130 for an interrupt and
    1 for a failure with a message. *)
Lemma main_guarded_fatal args json txt st e st1 st2 :
  main_body env args json txt st = (Raise e, st1) ->
  interrupted (run_data st1) = false ->
  is_KeyboardInterrupt e = true \/ is_Exception e = true /\ exn_str e <> "" ->
  let rd :=
    if is_KeyboardInterrupt e
    then set_fatal_error "Interrupted by user (Ctrl+C)" (set_interrupted (run_data st1))
    else set_fatal_error (exn_str e) (run_data st1) in
  write_run_logs env json txt (with_run_data (fun _ => rd) st1) = (Ok tt, st2) ->
  main_guarded env args json txt st
  = (Ok (if is_KeyboardInterrupt e then 130 else 1), st2) /\
  run_data st2 = rd /\
  trace st2 = trace st1 ++ [WriteJson json rd; WriteText txt (build_summary_lines json rd)].
Proof.
  intros Hbody Hst1 Hcls rd Hlogs.
  pose proof (write_run_logs_Ok _ _ _ _ _ Hlogs) as [Htrace Hrd].
  split; [|done].
  assert (interrupted rd = is_KeyboardInterrupt e /\
          (interrupted rd = false -> fatal_error_truthy rd = true)) as [Hint Hfatal].
  { subst rd. destruct (is_KeyboardInterrupt e) eqn:Hki; [done |].
    destruct Hcls as [[=] | [_ Hmsg]]. split; [done | intros _].
    unfold fatal_error_truthy. simpl. by apply truthy_str_nonempty. }
  unfold main_guarded, bind at 1, try_except2. rewrite Hbody.
  assert ((if is_KeyboardInterrupt e
           then bind (update_run_data set_interrupted)
                  (fun _ => update_run_data
                              (set_fatal_error "Interrupted by user (Ctrl+C)")) st1
           else if is_Exception e
                then update_run_data (set_fatal_error (exn_str e)) st1
                else (Raise e, st1))
          = (Ok tt, with_run_data (fun _ => rd) st1)) as ->.
  { subst rd. destruct Hcls as [-> | [Hex _]]; [done |].
    destruct (is_KeyboardInterrupt e); [done |]. by rewrite Hex. }
  cbv beta iota. unfold bind at 1. rewrite Hlogs.
  unfold bind, get, ret. cbv beta iota. rewrite Hrd. cbn [run_data with_run_data].
  rewrite Hint. destruct (is_KeyboardInterrupt e) eqn:Hki; [done |].
  rewrite Hfatal; [done | by rewrite Hint].
Qed.

(** C7 on the V3 runner: a fatal error of the run is caught and recorded
    under [fatal_error], and both logs are written with it; the exit code is
    1 for an interrupt as it is for a failure with a message. *)
Theorem C7_runner_interrupt_exits_as_failure settings st e st1 st2 :
  runner_stages env settings st = (Raise e, st1) ->
  is_KeyboardInterrupt e = true \/ is_Exception e = true /\ exn_str e <> "" ->
  let msg := if is_KeyboardInterrupt e then "Interrupted by user (Ctrl+C)" else exn_str e in
  let rd := set_fatal_error msg (run_data st1) in
  let log_dir := s_log_dir settings in
  runner_write_run_logs env log_dir (with_run_data (fun _ => rd) st1) = (Ok tt, st2) ->
  runner_guarded env settings st = (Ok 1, st2) /\
  fatal_error (run_data st2) = Some msg /\
  trace st2 =
    trace st1 ++
    [Mkdir log_dir;
     WriteJson (Path.join log_dir ("nexus-collection-batch-" +:+ run_id rd +:+ ".json")) rd;
     WriteText (Path.join log_dir ("nexus-collection-batch-" +:+ run_id rd +:+ ".txt"))
       (runner_summary log_dir rd)].
Proof.
  intros Hbody Hcls msg rd log_dir Hlogs.
  pose proof (runner_write_run_logs_Ok _ _ _ _ Hlogs) as [Htrace Hrd].
  split; [|split; [by rewrite Hrd | done]].
  assert (Py.truthy_str msg = true) as Hmsg.
  { subst msg. destruct Hcls as [-> | [_ Hmsg]]; [done |].
    destruct (is_KeyboardInterrupt e); [done | by apply truthy_str_nonempty]. }
  unfold runner_guarded, bind at 1, try_except2. rewrite Hbody.
  assert ((if is_KeyboardInterrupt e
           then update_run_data (set_fatal_error "Interrupted by user (Ctrl+C)") st1
           else if is_Exception e
                then update_run_data (set_fatal_error (exn_str e)) st1
                else (Raise e, st1))
          = (Ok tt, with_run_data (fun _ => rd) st1)) as ->.
  { subst rd msg. destruct Hcls as [-> | [Hex _]]; [done |].
    destruct (is_KeyboardInterrupt e); [done |]. by rewrite Hex. }
  cbv beta iota. unfold bind at 1. fold log_dir. rewrite Hlogs.
  unfold bind, get, ret. cbv beta iota. rewrite Hrd.
  unfold fatal_error_truthy. simpl. by rewrite Hmsg.
Qed.

End Orchestrator.


(** C1 as stated fails for a run without download verification: the item
    of the one mod is [ok], and the install stage is handed nothing. *)
Lemma C1_counterexample :
  let r := runner_main slow_button_world (Returned (example_settings false)) "run" (start 0) in
  fst r = Ok 0 /\
  map status (results (run_data (snd r))) = ["ok"] /\
  s_dry_run (example_settings false) || s_skip_install (example_settings false) = false /\
  install_summary (run_data (snd r))
  = Some {| installed := 0; failed := 0; install_results := [] |}.
Proof. vm_compute. repeat split; reflexivity. Qed.

Lemma C1_witness :
  let st1 := snd (ensure_browser signed_in_world (example_settings true) (start 0)) in
  let r := run_download_stage signed_in_world (example_settings true) st1 in
  let p := Path.join "downloads" "mod.zip" in
  fst r = Ok [p; p] /\
  map reason (results (run_data (snd r))) = ["direct_download:" +:+ p; "direct_download:" +:+ p] /\
  fst (runner_stages signed_in_world (example_settings true) (start 0)) = Ok tt /\
  option_map (fun s => map archive (install_results s))
    (install_summary
       (run_data (snd (runner_stages signed_in_world (example_settings true) (start 0)))))
  = Some [p].
Proof.
  pose proof (C1_handoff_of_recorded_paths signed_in_world (example_settings true) (start 0)
                (snd (ensure_browser signed_in_world (example_settings true) (start 0)))
                [Path.join "downloads" "mod.zip"; Path.join "downloads" "mod.zip"]
                (snd (run_download_stage signed_in_world (example_settings true)
                        (snd (ensure_browser signed_in_world (example_settings true)
                                (start 0))))))
    as H.
  destruct H as (_ & Hrun & _).
  - apply run_eq. vm_compute. reflexivity.
  - apply run_eq. vm_compute. reflexivity.
  - cbv zeta. rewrite Hrun. vm_compute. repeat split; reflexivity.
Defined.

(** The file that the browser stored on its own is found and the item is
    [ok]; its reason names the file without its directory, and the install
    stage is handed nothing. *)
Lemma detected_file_not_handed_on :
  let r := runner_main file_appears_world (Returned (example_settings true)) "run" (start 0) in
  fst r = Ok 0 /\
  map status (results (run_data (snd r))) = ["ok"] /\
  map reason (results (run_data (snd r))) = ["download_file_detected:mod.zip"] /\
  install_summary (run_data (snd r))
  = Some {| installed := 0; failed := 0; install_results := [] |}.
Proof. vm_compute. repeat split; reflexivity. Qed.

Lemma C7_witness :
  fst (runner_guarded (raising_world KeyboardInterrupt "") (example_settings true) (start 0))
  = Ok 1 /\
  fst (runner_guarded (raising_world OtherException "boom") (example_settings true) (start 0))
  = Ok 1.
Proof.
  split.
  - destruct (C7_runner_interrupt_exits_as_failure (raising_world KeyboardInterrupt "")
                (example_settings true) (start 0)
                {| exn_cls := KeyboardInterrupt; exn_str := "" |}
                (snd (runner_stages (raising_world KeyboardInterrupt "")
                        (example_settings true) (start 0)))
                (snd (runner_guarded (raising_world KeyboardInterrupt "")
                        (example_settings true) (start 0))))
      as [H _].
    + apply run_eq. vm_compute. reflexivity.
    + left. reflexivity.
    + apply run_eq2; vm_compute; reflexivity.
    + rewrite H. reflexivity.
  - destruct (C7_runner_interrupt_exits_as_failure (raising_world OtherException "boom")
                (example_settings true) (start 0)
                {| exn_cls := OtherException; exn_str := "boom" |}
                (snd (runner_stages (raising_world OtherException "boom")
                        (example_settings true) (start 0)))
                (snd (runner_guarded (raising_world OtherException "boom")
                        (example_settings true) (start 0))))
      as [H _].
    + apply run_eq. vm_compute. reflexivity.
    + right. split; [reflexivity | discriminate].
    + apply run_eq2; vm_compute; reflexivity.
    + rewrite H. reflexivity.
Defined.

(** The browser-first script at the same two worlds: 130 for the interrupt,
    1 for the failure. *)
Lemma main_exit_codes :
  fst (main (raising_world KeyboardInterrupt "") example_args "run" (start 0)) = Ok 130 /\
  fst (main (raising_world OtherException "boom") example_args "run" (start 0)) = Ok 1.
Proof. split; vm_compute; reflexivity. Qed.

(** A failure whose message is empty is recorded as [fatal_error] and its
    run exits with 0, in both scripts. *)
Lemma empty_message_exit_code :
  let r := main (raising_world OtherException "") example_args "run" (start 0) in
  let r' := runner_main (raising_world OtherException "") (Returned (example_settings true))
              "run" (start 0) in
  (fst r = Ok 0 /\ fatal_error (run_data (snd r)) = Some "") /\
  (fst r' = Ok 0 /\ fatal_error (run_data (snd r')) = Some "").
Proof. vm_compute. repeat split; reflexivity. Qed.





Lemma C9_witness :
  is_temp_download (Path.join "downloads" "report.crdownload") = true /\
  fst (wait_for_new_completed_download crdownload_world "downloads" ∅ 3000 (start 0))
  = Ok None.
Proof.
  split; [vm_compute; reflexivity |].
  destruct (C9_temporary_file_never_completed crdownload_world "downloads" ∅ 3000 (start 0)
              (fst (wait_for_new_completed_download crdownload_world "downloads" ∅ 3000
                      (start 0)))
              (snd (wait_for_new_completed_download crdownload_world "downloads" ∅ 3000
                      (start 0))))
    as (_ & _ & _ & Honly).
  - apply surjective_pairing.
  - destruct Honly as [H | [e H]].
    + intros w l w' [= <- _]. repeat constructor.
    + exact H.
    + vm_compute in H. discriminate H.
Defined.

Lemma C10_witness :
  fst (process_mod signed_in_world example_url 1000 true true "downloads" 5000
         (Some "sid=1") (Some 110) (start 0))
  = Ok (item_result example_url "ok" ("direct_download:" +:+ Path.join "downloads" "mod.zip")) /\
  reason (item_result "https://www.nexusmods.com/skyrim/mods/10" "dry_run" "navigation_only")
  = "navigation_only".
Proof.
  destruct (C10_dry_run_gates_click_fallback_only signed_in_world example_url 1000 true true
              "downloads" 5000 (Some "sid=1") (Some 110) (start 0)) as [Hdirect _].
  destruct (C10_dry_run_gates_click_fallback_only (stateless quiet)
              "https://www.nexusmods.com/skyrim/mods/10" 1000 true true
              "downloads" 5000 (Some "sid=1") (Some 110) (start 0)) as [_ Hdry].
  split.
  - destruct (Hdirect (Some "skyrim", Some 10, Some 5) "sid=1" 110 5 10 "skyrim"
                (Path.join "downloads" "mod.zip")
                (snd (process_mod signed_in_world example_url 1000 true true "downloads" 5000
                        (Some "sid=1") (Some 110) (start 0))))
      as [Heq _].
    + vm_compute. reflexivity.
    + vm_compute. reflexivity.
    + apply run_eq2; vm_compute; reflexivity.
    + rewrite Heq. vm_compute. reflexivity.
  - destruct (Hdry (item_result "https://www.nexusmods.com/skyrim/mods/10" "dry_run"
                      "navigation_only")
                (snd (process_mod (stateless quiet) "https://www.nexusmods.com/skyrim/mods/10"
                        1000 true true "downloads" 5000 (Some "sid=1") (Some 110) (start 0))))
      as (_ & Hreason & _).
    + apply run_eq. vm_compute. reflexivity.
    + reflexivity.
    + exact Hreason.
Defined.

(** * Further properties of the program *)

(** ** The URL Normalizer *)

Lemma omap_fixed (f : string -> option string) (l : list string) :
  Forall (fun x => f x = Some x) l -> omap f l = l.
Proof.
  induction 1 as [|x l Hx _ IH]; [done |].
  change (omap f (x :: l)) with (match f x with Some y => y :: omap f l | None => omap f l end).
  by rewrite Hx, IH.
Qed.

(** X1: the canonical form of an accepted URL starts with the site base
    [https://www.nexusmods.com/], is accepted in its turn, and is its own
    canonical form. *)
Theorem normalize_canonical_is_fixed (url canonical : string) :
  normalize_mod_target_url url = Some canonical ->
  Py.startswith canonical "https://www.nexusmods.com/" = true /\
  normalize_mod_target_url canonical = Some canonical.
Proof.
  intros H. split; [|by eapply normalize_mod_target_url_idempotent].
  rewrite normalize_target_parts in H.
  destruct (target_parts url) as [[path fid]|] eqn:Hparts; [|done].
  injection H as <-. apply target_parts_canonical in Hparts.
  destruct (canonical_parts_shape _ _ Hparts) as (front & digits & -> & _).
  unfold canonical_of. by destruct fid.
Qed.

Lemma normalize_canonical_is_fixed_witness :
  Py.startswith "https://www.nexusmods.com/Skyrim/mods/10?tab=files&file_id=7"
    "https://www.nexusmods.com/" = true /\
  normalize_mod_target_url "https://www.nexusmods.com/Skyrim/mods/10?tab=files&file_id=7"
  = Some "https://www.nexusmods.com/Skyrim/mods/10?tab=files&file_id=7".
Proof.
  apply (normalize_canonical_is_fixed "http://NexusMods.com/Skyrim/mods/10//?x=1&file_id=+7#top").
  vm_compute. reflexivity.
Defined.

(** X2: [dedupe_links] is idempotent, returns only canonical forms of its
    input, and never returns more links than it was given. *)
Theorem dedupe_links_idempotent (links : list string) :
  dedupe_links (dedupe_links links) = dedupe_links links /\
  (forall c, c ∈ dedupe_links links <->
             exists link, link ∈ links /\ normalize_mod_target_url link = Some c) /\
  (length (dedupe_links links) <= length links)%nat.
Proof.
  split; [|split].
  - rewrite (dedupe_links_keep_first (dedupe_links links)).
    rewrite omap_fixed.
    + apply keep_first_id, dedupe_links_NoDup.
    + apply Forall_forall. intros x (link & _ & Hx)%dedupe_links_elem.
      by eapply normalize_mod_target_url_idempotent.
  - intros c. apply dedupe_links_elem.
  - rewrite dedupe_links_keep_first.
    assert (forall l : list string, (length (keep_first l) <= length l)%nat) as Hk.
    { induction l as [|x l IH]; simpl; [lia |].
      pose proof (length_filter (fun y => y <> x) (keep_first l)). lia. }
    etrans; [apply Hk |].
    induction links as [|link links IH]; [simpl; lia |].
    change (omap normalize_mod_target_url (link :: links))
      with (match normalize_mod_target_url link with
            | Some c => c :: omap normalize_mod_target_url links
            | None => omap normalize_mod_target_url links
            end).
    destruct (normalize_mod_target_url link); simpl; lia.
Qed.

(** ** The Install Stager *)

Section Install.

Context {W : Type} (env : Env W).

Lemma install_counted_record (acc : InstallSummary) (a st reason : string) (copied : option Z) :
  install_counted acc ->
  st = "installed" /\ is_Some copied \/ st = "failed" /\ copied = None ->
  install_counted
    {| installed := installed acc + (if String.eqb st "installed" then 1 else 0);
       failed := failed acc + (if String.eqb st "failed" then 1 else 0);
       install_results := install_results acc ++
         [{| archive := a; install_status := st; install_reason := reason;
             copied_files := copied |}] |}.
Proof.
  intros (Hall & Hi & Hf) Hst. unfold install_counted. cbn [installed failed install_results].
  split; [|split].
  - apply Forall_app. split; [done |]. by constructor.
  - rewrite filter_app, length_app, Hi, filter_cons, filter_nil. cbn [install_status].
    destruct Hst as [[-> _] | [-> _]].
    + rewrite decide_True by done. simpl. lia.
    + rewrite decide_False by done. simpl. lia.
  - rewrite filter_app, length_app, Hf, filter_cons, filter_nil. cbn [install_status].
    destruct Hst as [[-> _] | [-> _]].
    + rewrite decide_False by done. simpl. lia.
    + rewrite decide_True by done. simpl. lia.
Qed.

Lemma install_loop_counted archives stage_root install_dir :
  forall acc st summary st',
    install_counted acc ->
    install_loop env archives stage_root install_dir acc st = (Ok summary, st') ->
    install_counted summary.
Proof.
  induction archives as [|a archives IH]; intros acc st summary st' Hacc; simpl.
  - by intros [= <- <-].
  - intros (e & st1 & _ & H)%bind_Ok_inv.
    destruct e; simpl in H.
    + apply bind_Ok_inv in H as (v & st2 & _ & H).
      apply bind_Ok_inv in H as ([ok method] & st3 & _ & H).
      destruct ok; simpl in H.
      * apply bind_Ok_inv in H as (v' & st4 & _ & H).
        apply bind_Ok_inv in H as (copied & st5 & _ & H).
        eapply IH; [|exact H]. apply install_counted_record; [done |]. left. eauto.
      * eapply IH; [|exact H]. apply install_counted_record; [done |]. by right.
    + eapply IH; [|exact H]. apply install_counted_record; [done |]. by right.
Qed.

Lemma install_counted_total (s : InstallSummary) :
  install_counted s -> installed s + failed s = Z.of_nat (length (install_results s)).
Proof.
  intros (Hall & -> & ->). induction Hall as [|item l Hitem _ IH]; [done |].
  rewrite !filter_cons. cbn [length].
  destruct Hitem as [[Hs _] | [Hs _]]; rewrite Hs.
  - rewrite decide_True, decide_False by done. cbn [length]. lia.
  - rewrite decide_False, decide_True by done. cbn [length]. lia.
Qed.

(** X3: the report of the install stage has one entry for each distinct
    archive path, in order; every entry is [installed] (with the number of
    files copied) or [failed] (without one); the counters [installed] and
    [failed] count the entries of each kind and add up to the number of
    distinct paths; the report is written to the install log as the last
    step. *)
Theorem install_report_counts paths install_dir log_dir rid st summary st' :
  install_downloaded_archives env paths install_dir log_dir rid st = (Ok summary, st') ->
  map archive (install_results summary) = keep_first paths /\
  install_counted summary /\
  installed summary + failed summary = Z.of_nat (length (keep_first paths)) /\
  last (trace st')
  = Some (WriteInstallJson
            (Path.join log_dir ("nexus-collection-batch-install-" +:+ rid +:+ ".json"))
            summary).
Proof.
  intros H. pose proof (install_downloaded_archives_archives env _ _ _ _ _ _ _ H) as Harch.
  unfold install_downloaded_archives in H.
  apply bind_Ok_inv in H as (? & st1 & _ & H).
  apply bind_Ok_inv in H as (? & st2 & _ & H).
  apply bind_Ok_inv in H as (payload & st3 & Hloop & H).
  apply bind_Ok_inv in H as (? & st4 & Hwrite & [= <- <-]).
  apply install_loop_counted in Hloop as Hcounted.
  2: { split; [constructor | done]. }
  split; [done |]. split; [done |]. split.
  - rewrite (install_counted_total _ Hcounted), <- Harch. by rewrite length_map.
  - apply call_Ok in Hwrite as [-> _]. by rewrite last_snoc.
Qed.

End Install.

Lemma install_report_counts_witness :
  let r := install_downloaded_archives (stateless quiet) ["a.zip"; "b.zip"; "a.zip"]
             "mods" "logs" "run" (start 0) in
  map archive (install_results
                 {| installed := 0; failed := 2;
                    install_results :=
                      [{| archive := "a.zip"; install_status := "failed";
                          install_reason := "archive_not_found"; copied_files := None |};
                       {| archive := "b.zip"; install_status := "failed";
                          install_reason := "archive_not_found"; copied_files := None |}] |})
  = ["a.zip"; "b.zip"] /\
  0 + 2 = Z.of_nat (length (keep_first ["a.zip"; "b.zip"; "a.zip"])).
Proof.
  destruct (install_report_counts (stateless quiet) ["a.zip"; "b.zip"; "a.zip"]
              "mods" "logs" "run" (start 0)
              {| installed := 0; failed := 2;
                 install_results :=
                   [{| archive := "a.zip"; install_status := "failed";
                       install_reason := "archive_not_found"; copied_files := None |};
                    {| archive := "b.zip"; install_status := "failed";
                       install_reason := "archive_not_found"; copied_files := None |}] |}
              (snd (install_downloaded_archives (stateless quiet) ["a.zip"; "b.zip"; "a.zip"]
                      "mods" "logs" "run" (start 0))))
    as (H1 & _ & H2 & _).
  - apply run_eq. vm_compute. reflexivity.
  - split; [exact H1 | exact H2].
Defined.

(** ** The queue and the items of a run *)

Section Queue.

Context {W : Type} (env : Env W).

Lemma tame_run_data {A} (m : M W A) st r st' :
  tame m -> m st = (r, st') -> run_data st' = run_data st.
Proof. by intros T (_ & _ & ? & _)%T. Qed.

(** What [extract_queue] leaves in the report. *)
Lemma extract_queue_report url max_mods st queue game st' :
  extract_queue env url max_mods st = (Ok (queue, game), st') ->
  NoDup queue /\
  (0 < max_mods -> Z.of_nat (length queue) <= max_mods) /\
  queue_count (run_data st') = length queue /\
  queue_first_5 (run_data st') = take 5 queue /\
  game_id (run_data st') = game /\
  results (run_data st') = results (run_data st).
Proof.
  intros H. split; [by eapply extract_queue_NoDup |].
  pose proof (keeps_results_extract_queue env url max_mods _ _ _ H) as Hres.
  unfold extract_queue in H.
  apply bind_Ok_inv in H as (extraction & st1 & _ & H).
  apply bind_Ok_inv in H as ([] & st2 & _ & H).
  apply bind_Ok_inv in H as (game' & st3 & _ & H).
  apply bind_Ok_inv in H as ([] & st4 & [= <-] & H).
  apply bind_Ok_inv in H as (found & st5 & Hfound & H).
  apply bind_Ok_inv in H as ([] & st6 & [= <-] & [= <- <- <-]).
  assert (game_id (run_data st5) = game') as Hgame.
  { destruct (links extraction).
    - apply bind_Ok_inv in Hfound as (dom & st4' & Hdom & Hfound).
      apply bind_Ok_inv in Hfound as ([] & st4'' & [= <-] & [= _ <-]).
      apply (tame_run_data _ _ _ _ (tame_extract_mod_links env)) in Hdom.
      cbn. by rewrite Hdom.
    - by injection Hfound as _ <-. }
  cbn [run_data with_run_data set_queue queue_count queue_first_5 game_id].
  split; [|done]. intros Hmax.
  apply Z.ltb_lt in Hmax. rewrite Hmax. rewrite length_take. lia.
Qed.

(** X4: the queue that the extraction builds holds no link twice, holds at
    most [max_mods] links when that is positive, and is what the report
    records: its length as [queue_count], its first five links as
    [queue_first_5], and the game id beside them; the results are left as
    they were. *)
Theorem extract_queue_recorded url max_mods st queue game st' :
  extract_queue env url max_mods st = (Ok (queue, game), st') ->
  NoDup queue /\
  (0 < max_mods -> Z.of_nat (length queue) <= max_mods) /\
  queue_count (run_data st') = length queue /\
  queue_first_5 (run_data st') = take 5 queue /\
  game_id (run_data st') = game /\
  results (run_data st') = results (run_data st).
Proof. apply extract_queue_report. Qed.

Lemma count_status_total (r : RunData) :
  Forall (fun item => status item ∈ STATUSES) (results r) ->
  count_status "ok" r + count_status "partial" r + count_status "fail" r +
  count_status "fallback_needed" r + count_status "dry_run" r
  = Z.of_nat (length (results r)).
Proof.
  unfold count_status. induction 1 as [|item l Hitem _ IH]; [done |].
  cbn [List.filter length].
  unfold STATUSES in Hitem.
  repeat (apply elem_of_cons in Hitem as [-> | Hitem]); [..| by apply elem_of_nil in Hitem];
    cbn [String.eqb Ascii.eqb Bool.eqb]; cbn [length]; lia.
Qed.

(** The loop of the download stage appends its items to the results and
    changes nothing else of the report; the items follow the links, and are
    numbered from [idx] on. *)
Lemma download_loop_numbered settings cookie game total links :
  forall idx acc st paths st',
    download_loop env settings cookie game total idx links acc st = (Ok paths, st') ->
    exists items,
      run_data st' = foldl (fun r item => append_result item r) (run_data st) items /\
      map mod_url items = links /\
      map index items = map Z.of_nat (seq idx (length links)) /\
      Forall (fun item => status item ∈ STATUSES) items.
Proof.
  induction links as [|link links IH]; intros idx acc st paths st'; simpl.
  - intros [= <- <-]. by exists [].
  - intros (item & st1 & Hitem & H)%bind_Ok_inv.
    apply bind_Ok_inv in H as ([] & st2 & [= <-] & H).
    apply bind_Ok_inv in H as ([] & st3 & Hwait & H).
    apply IH in H as (items & Hrd & Hurls & Hidx & Hall).
    pose proof (tame_run_data _ _ _ _ (tame_process_mod env _ _ _ _ _ _ _ _) Hitem) as Hrd1.
    apply (yields_process_mod env) in Hitem as (_ & Hurl & Hresolution).
    assert (run_data st3
            = append_result (set_index (Z.of_nat idx) item) (run_data st)) as Hrd3.
    { destruct (idx <? total)%nat.
      - apply (tame_run_data _ _ _ _ (tame_wait_for_timeout env _)) in Hwait.
        rewrite Hwait. cbn. by rewrite Hrd1.
      - injection Hwait as <-. cbn. by rewrite Hrd1. }
    exists (set_index (Z.of_nat idx) item :: items). split; [|split; [|split]].
    + by rewrite Hrd, Hrd3.
    + simpl. by rewrite Hurl, Hurls.
    + simpl. by rewrite Hidx.
    + constructor; [|done]. simpl. by eapply resolution_status.
Qed.

Lemma foldl_append_result (r : RunData) (items : list ItemResult) :
  results (foldl (fun r item => append_result item r) r items) = results r ++ items /\
  queue_count (foldl (fun r item => append_result item r) r items) = queue_count r /\
  queue_first_5 (foldl (fun r item => append_result item r) r items) = queue_first_5 r.
Proof.
  revert r. induction items as [|item items IH]; intros r; simpl.
  - by rewrite app_nil_r.
  - destruct (IH (append_result item r)) as (-> & -> & ->). simpl.
    by rewrite <- app_assoc.
Qed.

(** X5: a download stage that starts from an empty list of results leaves
    one item for each link of the queue that the extraction returned, the
    whole queue in its order, numbered from 1, each with one of the five
    statuses; the five counts of the summary add up to [queue_count]. *)
Theorem download_stage_items_match_queue settings st paths st' :
  results (run_data st) = [] ->
  run_download_stage env settings st = (Ok paths, st') ->
  let r := run_data st' in
  (exists queue game st0 st1,
     extract_queue env (s_collection_url settings) (s_max_mods settings) st0
     = (Ok (queue, game), st1) /\
     map mod_url (results r) = queue /\
     queue_count r = length queue /\
     queue_first_5 r = take 5 queue) /\
  length (results r) = queue_count r /\
  map index (results r) = map Z.of_nat (seq 1 (queue_count r)) /\
  take 5 (map mod_url (results r)) = queue_first_5 r /\
  NoDup (map mod_url (results r)) /\
  Forall (fun item => status item ∈ STATUSES) (results r) /\
  count_status "ok" r + count_status "partial" r + count_status "fail" r +
  count_status "fallback_needed" r + count_status "dry_run" r
  = Z.of_nat (queue_count r).
Proof.
  intros Hempty H. cbv zeta.
  assert ((exists queue game st0 st1,
             extract_queue env (s_collection_url settings) (s_max_mods settings) st0
             = (Ok (queue, game), st1) /\
             map mod_url (results (run_data st')) = queue /\
             queue_count (run_data st') = length queue /\
             queue_first_5 (run_data st') = take 5 queue) /\
          length (results (run_data st')) = queue_count (run_data st') /\
          map index (results (run_data st'))
          = map Z.of_nat (seq 1 (queue_count (run_data st'))) /\
          take 5 (map mod_url (results (run_data st'))) = queue_first_5 (run_data st') /\
          NoDup (map mod_url (results (run_data st'))) /\
          Forall (fun item => status item ∈ STATUSES) (results (run_data st')))
    as (Hqueue & Hlen & Hidx & Hfirst & Hnodup & Hall).
  2: { repeat (split; [done |]). by rewrite count_status_total, Hlen. }
  unfold run_download_stage in H.
  apply bind_Ok_inv in H as (v & st1 & H1 & H).
  apply bind_Ok_inv in H as (cookie & st2 & H2 & H).
  apply bind_Ok_inv in H as ([links game] & st3 & H3 & H).
  apply (tame_run_data _ _ _ _ (tame_page_call env _)) in H1.
  apply (tame_run_data _ _ _ _ (tame_cookie_header_of_session env)) in H2.
  pose proof H3 as Hextract.
  apply extract_queue_report in H3 as (Hq & _ & Hcount & Hfive & _ & Hres).
  rewrite H2, H1, Hempty in Hres.
  destruct links as [|link links].
  - apply bind_Ok_inv in H as ([] & st4 & H4 & [= <- <-]).
    unfold write_zero_queue_artifacts in H4.
    apply bind_Ok_inv in H4 as (v4 & st4' & H4 & [= <-]).
    apply (tame_run_data _ _ _ _ (tame_page_call env _)) in H4.
    split.
    + exists [], game, st2, st3. cbn. by rewrite H4, Hres, Hcount, Hfive.
    + cbn. rewrite H4, Hres, Hcount, Hfive. repeat split; constructor.
  - apply bind_Ok_inv in H as (paths' & st4 & H4 & H).
    apply bind_Ok_inv in H as ([] & st5 & H5 & [= <- <-]).
    apply (tame_run_data _ _ _ _ (tame_wait_for_timeout env _)) in H5.
    apply download_loop_numbered in H4 as (items & Hrd & Hurls & Hidx & Hall).
    destruct (foldl_append_result (run_data st3) items) as (Hr & Hc & Hf).
    split.
    + exists (link :: links), game, st2, st3.
      rewrite H5, Hrd, Hr, Hc, Hf, Hres, Hcount, Hfive. cbn [app]. by rewrite Hurls.
    + rewrite H5, Hrd, Hr, Hc, Hf, Hres, Hcount, Hfive. cbn [app].
      rewrite Hurls, Hidx. repeat split; try done.
      by rewrite <- Hurls, length_map.
Qed.

End Queue.

Lemma extract_queue_recorded_witness :
  let r := extract_queue signed_in_world
             "https://www.nexusmods.com/games/skyrim/collections/abc/mods" 1 (start 0) in
  fst r = Ok (["https://www.nexusmods.com/skyrim/mods/10?tab=files&file_id=5"], Some 110) /\
  queue_count (run_data (snd r)) = 1%nat.
Proof.
  destruct (extract_queue_recorded signed_in_world
              "https://www.nexusmods.com/games/skyrim/collections/abc/mods" 1 (start 0)
              ["https://www.nexusmods.com/skyrim/mods/10?tab=files&file_id=5"] (Some 110)
              (snd (extract_queue signed_in_world
                      "https://www.nexusmods.com/games/skyrim/collections/abc/mods" 1
                      (start 0))))
    as (_ & _ & Hcount & _).
  - apply run_eq. vm_compute. reflexivity.
  - split; [vm_compute; reflexivity | exact Hcount].
Defined.

Lemma download_stage_items_match_queue_witness :
  let r := run_data (snd (run_download_stage seven_mods_world dry_run_settings (start 0))) in
  map mod_url (results r) = seven_mods /\
  queue_count r = 7%nat /\ queue_first_5 r = take 5 seven_mods /\
  map index (results r) = [1; 2; 3; 4; 5; 6; 7].
Proof.
  destruct (download_stage_items_match_queue seven_mods_world dry_run_settings (start 0) []
              (snd (run_download_stage seven_mods_world dry_run_settings (start 0))))
    as ((queue & game & st0 & st1 & _ & Hurls & Hcount & Hfive) & _ & Hidx & _).
  - reflexivity.
  - apply run_eq. vm_compute. reflexivity.
  - assert (queue = seven_mods) as -> by (rewrite <- Hurls; vm_compute; reflexivity).
    split; [exact Hurls |]. split; [exact Hcount |]. split; [exact Hfive |].
    rewrite Hidx, Hcount. reflexivity.
Defined.

(** ** The Download Resolver *)

Section MoreResolver.

Context {W : Type} (env : Env W).

Lemma requested_later (st st1 st' : St W) (req : request) :
  trace st `prefix_of` trace st1 -> requested st1 st' req -> requested st st' req.
Proof.
  intros [t1 H1] (t & Ht & Hin). exists (t1 ++ t).
  split; [by rewrite Ht, H1, app_assoc | set_solver].
Qed.

Lemma requested_earlier (st st1 st' : St W) (req : request) :
  requested st st1 req -> trace st1 `prefix_of` trace st' -> requested st st' req.
Proof.
  intros (t & Ht & Hin) [t1 H1]. exists (t ++ t1).
  split; [by rewrite H1, Ht, app_assoc | set_solver].
Qed.

Lemma tame_prefix {A} (m : M W A) st r st' :
  tame m -> m st = (r, st') -> trace st `prefix_of` trace st'.
Proof. by intros T (_ & ? & _)%T. Qed.

Lemma page_call_requested (req : request) st r st' :
  page_call env req st = (r, st') -> requested st st' req.
Proof.
  unfold page_call, call.
  destruct (perform env (world st) req) as [r0 w'].
  set (st1 := {| world := w'; clock := (clock st + lag env w')%nat;
                 trace := trace st ++ [req]; locals := locals st;
                 run_data := run_data st |}).
  destruct (deliver env st1) as [o st2] eqn:Hd.
  apply (tame_prefix _ _ _ _ (tame_deliver env)) in Hd as [t Ht]. simpl in Ht.
  intros H. assert (st' = st2) as -> by (by destruct o; injection H).
  exists (req :: t). split; [by rewrite Ht, <- app_assoc | by left].
Qed.

Lemma as_bool_Ok (v : value) (st : St W) b st' :
  as_bool v st = (Ok b, st') -> v = VBool b /\ st' = st.
Proof. destruct v; try done. by intros [= <- <-]. Qed.

Lemma as_int_Ok (v : value) (st : St W) n st' :
  as_int v st = (Ok n, st') -> v = VInt n /\ st' = st.
Proof. destruct v; try done. by intros [= <- <-]. Qed.

Lemma click_first_target_clicked (selector : string) (n i : nat) st st' :
  click_first_target env selector n i st = (Ok true, st') ->
  exists j, (i <= j < i + n)%nat /\ requested st st' (Click (Nth selector j) 1500).
Proof.
  revert i st. induction n as [|n IH]; intros i st; simpl; [done |].
  intros (v & st1 & Hv & H)%bind_Ok_inv.
  apply bind_Ok_inv in H as (visible & st2 & [_ ->]%as_bool_Ok & H).
  destruct visible.
  - apply bind_Ok_inv in H as (v' & st3 & Hclick & [= <-]).
    exists i. split; [lia |]. apply page_call_requested in Hclick.
    eapply requested_later; [|done]. by eapply tame_prefix; [apply tame_page_call |].
  - apply IH in H as (j & Hj & Hreq). exists j. split; [lia |].
    eapply requested_later; [|done]. by eapply tame_prefix; [apply tame_page_call |].
Qed.

Lemma try_selector_clicked (selector : string) st st' :
  try_selector env selector st = (Ok true, st') ->
  exists j, (j < 8)%nat /\ requested st st' (Click (Nth selector j) 1500).
Proof.
  unfold try_selector, try_except.
  destruct (bind _ _ st) as [[b|e|] st1] eqn:Hbody.
  - intros [= -> ->].
    apply bind_Ok_inv in Hbody as (v & st2 & Hv & H).
    apply bind_Ok_inv in H as (count & st3 & [_ ->]%as_int_Ok & H).
    destruct (count <=? 0); [done |].
    apply click_first_target_clicked in H as (j & Hj & Hreq).
    exists j. split; [lia |].
    eapply requested_later; [|done]. by eapply tame_prefix; [apply tame_page_call |].
  - by destruct (is_PlaywrightError e).
  - done.
Qed.

Lemma try_selectors_clicked (selectors : list string) st s st' :
  try_selectors env selectors st = (Ok (Some s), st') ->
  s ∈ selectors /\
  exists j, (j < 8)%nat /\ requested st st' (Click (Nth s j) 1500).
Proof.
  revert st. induction selectors as [|selector selectors IH]; intros st; simpl; [done |].
  intros (clicked & st1 & Hfirst & H)%bind_Ok_inv. destruct clicked.
  - injection H as <- <-. split; [by left |]. by apply try_selector_clicked.
  - apply IH in H as (Hin & j & Hj & Hreq). split; [by right |]. exists j. split; [done |].
    eapply requested_later; [|done]. by eapply tame_prefix; [apply tame_try_selector |].
Qed.

Lemma click_poll_clicked (selectors : list string) (fuel deadline : nat) st s st' :
  (deadline <= clock st + 250 * fuel)%nat ->
  click_poll env fuel deadline selectors st = (Ok (Some s), st') ->
  s ∈ selectors /\
  exists j, (j < 8)%nat /\ requested st st' (Click (Nth s j) 1500).
Proof.
  revert st. induction fuel as [|fuel IH]; intros st Hfuel; simpl.
  - unfold bind, time_time, get. by destruct (clock st <? deadline)%nat.
  - unfold bind at 1. unfold time_time, get.
    destruct (clock st <? deadline)%nat eqn:Hlt; [|done].
    intros ([s'|] & st1 & H1 & H2)%bind_Ok_inv.
    + injection H2 as <- <-. by apply try_selectors_clicked.
    + apply bind_Ok_inv in H2 as ([] & st2 & Hwait & H3).
      pose proof (wait_for_timeout_clock env _ _ _ Hwait).
      pose proof (tame_try_selectors env _ _ _ _ H1) as (? & ? & _).
      apply IH in H3 as (Hin & j & Hj & Hreq); [|lia].
      split; [done |]. exists j. split; [done |].
      eapply requested_later; [|done]. etrans; [done |].
      by eapply tame_prefix; [apply tame_wait_for_timeout |].
Qed.


Lemma calm_ret {A} (P : request -> Prop) (a : A) : calm (W := W) P (ret a).
Proof. intros st r st' Hl [= <- <-]. split; [done |]. exists []. by rewrite app_nil_r. Qed.

Lemma calm_raise {A} (P : request -> Prop) (e : exn) : calm P (@raise W A e).
Proof. intros st r st' Hl [= <- <-]. split; [done |]. exists []. by rewrite app_nil_r. Qed.

Lemma calm_get {A} (P : request -> Prop) (f : St W -> A) : calm (W := W) P (get f).
Proof. intros st r st' Hl [= <- <-]. split; [done |]. exists []. by rewrite app_nil_r. Qed.

Lemma calm_advance (P : request -> Prop) (ms : nat) : calm P (advance (W := W) ms).
Proof.
  intros st r st' Hl [= <- <-]. split; [done |]. exists []. simpl. by rewrite app_nil_r.
Qed.

Lemma calm_modify_locals (P : request -> Prop) (f : Locals -> Locals) :
  (forall x, listener (f x) = listener x) -> calm P (modify (W := W) (with_locals f)).
Proof.
  intros Hf st r st' Hl [= <- <-]. simpl. rewrite Hf. split; [done |].
  exists []. by rewrite app_nil_r.
Qed.

Lemma calm_call (P : request -> Prop) (req : request) : P req -> calm P (call env req).
Proof.
  intros HP st r st' Hl. unfold call. destruct (perform env (world st) req) as [r0 w'].
  intros [= <- <-]. split; [done |]. exists [req]. simpl. by repeat constructor.
Qed.

Lemma calm_bind {A B} (P : request -> Prop) (m : M W A) (k : A -> M W B) :
  calm P m -> (forall a, calm P (k a)) -> calm P (bind m k).
Proof.
  intros Hm Hk st r st' Hl [(a & st1 & H1 & H2) | [(e & H1 & ->) | [H1 ->]]]%bind_inv.
  - apply Hm in H1 as (Hl1 & t1 & E1 & ?); [|done].
    apply Hk in H2 as (Hl2 & t2 & E2 & ?); [|done]. split; [done |].
    exists (t1 ++ t2). rewrite E2, E1, app_assoc. split; [done | by apply Forall_app].
  - by apply Hm in H1.
  - by apply Hm in H1.
Qed.

Lemma calm_try_except {A} (P : request -> Prop) (m : M W A) (c : exn -> bool)
    (h : exn -> M W A) :
  calm P m -> (forall e, calm P (h e)) -> calm P (try_except m c h).
Proof.
  intros Hm Hh st r st' Hl. unfold try_except.
  destruct (m st) as [[a|e|] st1] eqn:H1; apply Hm in H1 as (Hl1 & t1 & Ht1 & ?); try done.
  - intros [= <- <-]. eauto.
  - destruct (c e); [|intros [= <- <-]; eauto].
    intros (Hl2 & t2 & Ht2 & ?)%Hh; [|done]. split; [done |].
    exists (t1 ++ t2). rewrite Ht2, Ht1, app_assoc. split; [done | by apply Forall_app].
  - intros [= <- <-]. eauto.
Qed.

Lemma calm_weaken {A} (P Q : request -> Prop) (m : M W A) :
  (forall req, P req -> Q req) -> calm P m -> calm Q m.
Proof.
  intros HPQ Hm st r st' Hl (Hl' & t & E & Ht)%Hm; [|done]. split; [done |].
  exists t. split; [done |]. eapply Forall_impl; eauto.
Qed.

(** Without a listener, a call on the page is that call and nothing more. *)
Lemma calm_page_call (P : request -> Prop) (req : request) :
  P req -> calm P (page_call env req).
Proof.
  intros HP st r st' Hl. unfold page_call.
  destruct (call env req st) as [r1 st1] eqn:H1.
  apply (calm_call P req HP) in H1 as (Hl1 & t1 & Ht1 & ?); [|done].
  unfold deliver, bind, get. rewrite Hl1. unfold ret.
  intros [= <- <-]. eauto.
Qed.

Lemma calm_wait_for_timeout (P : request -> Prop) (ms : nat) :
  P (WaitForTimeout ms) -> calm P (wait_for_timeout env ms).
Proof.
  intros HP. unfold wait_for_timeout.
  apply calm_bind; [by apply calm_page_call | intros ?; apply calm_advance].
Qed.

Ltac calm_step :=
  first
    [ apply calm_ret | apply calm_raise | apply calm_get | apply calm_advance
    | apply calm_call; solve [simpl; auto]
    | apply calm_page_call; solve [simpl; auto]
    | apply calm_wait_for_timeout; solve [simpl; auto]
    | apply calm_modify_locals; solve [intros []; reflexivity]
    | solve [eauto]
    | apply calm_bind; [| intros ?]
    | apply calm_try_except; [| intros ?]
    | match goal with
      | |- calm _ (match ?x with _ => _ end) => destruct x
      end ].

Ltac calm_auto := repeat calm_step.

Lemma calm_click_first_target (selectors : list string) (selector : string) (n i : nat) :
  selector ∈ selectors -> calm (polls selectors) (click_first_target env selector n i).
Proof.
  intros Hin. revert i. induction n as [|n IH]; intros i; simpl; [calm_auto |].
  unfold as_bool, type_error. calm_auto.
Qed.

Lemma calm_try_selector (selectors : list string) (selector : string) :
  selector ∈ selectors -> calm (polls selectors) (try_selector env selector).
Proof.
  intros Hin. pose proof (calm_click_first_target selectors selector) as Hc.
  unfold try_selector, as_int, type_error. calm_auto.
Qed.

Lemma calm_try_selectors (selectors l : list string) :
  l ⊆ selectors -> calm (polls selectors) (try_selectors env l).
Proof.
  induction l as [|s l IH]; intros Hsub; simpl; [calm_auto |].
  apply calm_bind.
  - apply calm_try_selector. apply Hsub. by left.
  - intros []; [calm_auto |]. apply IH. intros x Hx. apply Hsub. by right.
Qed.

Lemma calm_click_poll (selectors : list string) (fuel deadline : nat) :
  calm (polls selectors) (click_poll env fuel deadline selectors).
Proof.
  induction fuel as [|fuel IH]; simpl.
  - apply calm_bind; [calm_auto |]. intros now. destruct (_ <? _)%nat; [|calm_auto].
    intros st r st' Hl [= <- <-]. split; [done |]. exists []. by rewrite app_nil_r.
  - apply calm_bind; [calm_auto |]. intros now. destruct (_ <? _)%nat; [|calm_auto].
    apply calm_bind; [by apply calm_try_selectors |]. intros [s|]; calm_auto.
Qed.

Lemma calm_click_first_visible (selectors : list string) (timeout : nat) :
  calm (polls selectors) (click_first_visible env selectors timeout).
Proof.
  unfold click_first_visible. apply calm_bind; [calm_auto |]. intros now.
  apply calm_click_poll.
Qed.


(** X6: [click_first_visible] comes to an end whatever the page answers.
    The selector it returns is one of the given ones, and one of its first
    eight targets was clicked; the calls it makes touch no locator of
    another selector and, without a download listener, are nothing but
    these searches and the waits between them; it gives up no sooner than
    the timeout, and with a timeout of zero it gives up without touching
    the page. *)
Theorem click_first_visible_outcome (selectors : list string) (timeout : nat) st r st' :
  click_first_visible env selectors timeout st = (r, st') ->
  r <> Diverge /\
  (exists t, trace st' = trace st ++ t /\ Forall (searches selectors) t /\
             (listener (locals st) = None ->
              listener (locals st') = None /\ Forall (polls selectors) t)) /\
  (forall s, r = Ok (Some s) ->
     s ∈ selectors /\
     exists j, (j < 8)%nat /\ requested st st' (Click (Nth s j) 1500)) /\
  (r = Ok None -> (clock st + timeout <= clock st')%nat) /\
  (timeout = 0%nat -> r = Ok None /\ st' = st).
Proof.
  intros H. split; [|split; [|split; [|split]]].
  - by apply (tame_click_first_visible env) in H as (_ & _ & _ & ?).
  - pose proof (emits_click_first_visible env _ _ _ _ _ H) as (t & Ht & Hall).
    exists t. split; [done |]. split; [done |]. intros Hl.
    apply calm_click_first_visible in H as (Hl' & t' & Ht' & Hall'); [|done].
    split; [done |]. rewrite Ht in Ht'. by apply app_inv_head in Ht' as ->.
  - intros s ->. unfold click_first_visible, bind at 1, time_time, get in H.
    apply click_poll_clicked in H; [done |].
    pose proof (Nat.div_mod_eq timeout 250). pose proof (Nat.mod_upper_bound timeout 250).
    lia.
  - intros ->. by apply (click_first_visible_none env) in H.
  - intros ->. unfold click_first_visible, bind, time_time, get in H. simpl in H.
    unfold bind, time_time, get in H. rewrite Nat.add_0_r, Nat.ltb_irrefl in H.
    by injection H as <- <-.
Qed.


Lemma calm_direct_attempt (P : request -> Prop) cookie files_url game file dir fallback ctx :
  (forall u, P (ResolveDownloadUrl cookie files_url game file ctx) /\
             P (DirectDownloadToFolder u dir fallback ctx)) ->
  calm P (direct_attempt env cookie files_url game file dir fallback ctx).
Proof.
  intros HP. unfold direct_attempt, as_str, type_error.
  apply calm_bind; [apply calm_call, (HP "") |]. intros v.
  apply calm_bind; [calm_auto |]. intros u.
  apply calm_bind; [apply calm_call, (HP u) | intros ?; calm_auto].
Qed.

Lemma calm_direct_path (P : request -> Prop) url cookie files_url game file dir fallback :
  (forall u ctx, P (ResolveDownloadUrl cookie files_url game file ctx) /\
                 P (DirectDownloadToFolder u dir fallback ctx)) ->
  calm P (direct_path env url cookie files_url game file dir fallback).
Proof.
  intros HP. unfold direct_path.
  apply calm_try_except.
  - apply calm_bind; [apply calm_direct_attempt; intros u; apply HP |]. intros d. calm_auto.
  - intros e. destruct (is_ssl_verify_error e); [|calm_auto].
    apply calm_try_except; [|intros ?; calm_auto].
    apply calm_bind; [apply calm_direct_attempt; intros u; apply HP |]. intros d. calm_auto.
Qed.

Lemma calm_navigate (P : request -> Prop) (n : nat) (files_url : string)
    (nav_error : option string) :
  P (Goto files_url) -> P (WaitForTimeout 1200) ->
  calm P (navigate env n files_url nav_error).
Proof.
  intros HG HW. revert nav_error. induction n as [|n IH]; intros nav_error; simpl; calm_auto.
Qed.

Lemma calm_filter_files (P : request -> Prop) (l : list string) :
  (forall p, P (IsFile p)) -> calm P (filter_files env l).
Proof.
  intros HP. induction l as [|p l IH]; simpl; [calm_auto |].
  unfold path_is_file, as_bool, type_error. calm_auto.
Qed.

Lemma calm_list_candidate_files (P : request -> Prop) (dir : string) :
  P (Exists dir) -> P (IterDir dir) -> (forall p, P (IsFile p)) ->
  calm P (list_candidate_files env dir).
Proof.
  intros H1 H2 H3. pose proof (calm_filter_files P) as Hf.
  unfold list_candidate_files, path_exists, path_iterdir, as_bool, as_strs, type_error.
  calm_auto.
Qed.

(** The part of the click fallback before the listener is registered, and
    the whole of it in a dry run. *)
Lemma calm_click_fallback_dry_run url files_url click_timeout verify dir download_timeout :
  calm (dry_run_request false files_url)
    (click_fallback env url files_url click_timeout true verify dir download_timeout).
Proof.
  unfold click_fallback.
  apply calm_bind; [by apply calm_navigate |]. intros [e|]; [calm_auto |].
  apply calm_bind; [|intros ?; calm_auto].
  eapply calm_weaken; [|apply calm_click_first_visible]. by intros [].
Qed.

Lemma dry_run_request_direct (direct : bool) (files_url : string) (req : request) :
  dry_run_request false files_url req -> dry_run_request direct files_url req.
Proof. destruct req; simpl; try done. by intros []. Qed.

Lemma calm_bind_ret {A B} (P : request -> Prop) (a : A) (k : A -> M W B) :
  calm P (k a) -> calm P (bind (ret a) k).
Proof. intros H st r st' Hl Hrun. by apply (H st r st' Hl). Qed.

Lemma calm_process_mod_dry_run url click_timeout verify dir download_timeout cookie_header
    game_id :
  calm (dry_run_request (direct_path_open verify cookie_header game_id url)
          (files_tab_url url))
    (process_mod env url click_timeout true verify dir download_timeout cookie_header
       game_id).
Proof.
  unfold process_mod, direct_path_open.
  destruct (parse_mod_target url) as [t|]; [|calm_auto].
  apply calm_bind_ret.
  destruct (direct_guard verify cookie_header game_id t)
    as [[[[[cookie game] file] mod_id] domain]|].
  - apply calm_bind; [by apply calm_direct_path |]. intros [item|]; [calm_auto |].
    eapply calm_weaken; [apply dry_run_request_direct | apply calm_click_fallback_dry_run].
  - apply calm_bind; [calm_auto |]. intros [item|]; [calm_auto |].
    apply calm_click_fallback_dry_run.
Qed.

(** X8: in a dry run without a download listener registered before,
    [process_mod] registers none and clicks nothing but a cookie banner: it
    goes to the files tab and looks for the banner.  Only the direct path,
    when it is open, resolves and stores a file; with download verification
    disabled it is closed, and so it is for a link without a file id. *)
Theorem dry_run_only_navigates url click_timeout verify dir download_timeout cookie_header
    game_id st r st' :
  listener (locals st) = None ->
  process_mod env url click_timeout true verify dir download_timeout cookie_header
    game_id st = (r, st') ->
  (listener (locals st') = None /\
   exists t,
     trace st' = trace st ++ t /\
     Forall (dry_run_request (direct_path_open verify cookie_header game_id url)
               (files_tab_url url)) t) /\
  (verify = false \/ (forall t, parse_mod_target url = Some t -> t.2 = None) ->
   direct_path_open verify cookie_header game_id url = false).
Proof.
  intros Hl H. split; [by eapply calm_process_mod_dry_run |].
  unfold direct_path_open. destruct (parse_mod_target url) as [t|]; [|done].
  intros [-> | Hfile].
  - by destruct cookie_header, game_id, t as [[[?|] [?|]] [?|]].
  - specialize (Hfile t eq_refl). destruct t as [[d m] f]. simpl in Hfile. subst f.
    by destruct cookie_header, game_id, d, m.
Qed.

(** *** The download listener *)

Lemma requested_refl_bind {A B} (m : M W A) (k : A -> M W B) (req : request) st b st' :
  tame m ->
  bind m k st = (Ok b, st') ->
  (forall a st1, m st = (Ok a, st1) -> k a st1 = (Ok b, st') -> requested st1 st' req) ->
  requested st st' req.
Proof.
  intros T (a & st1 & H1 & H2)%bind_Ok_inv Hk.
  eapply requested_later; [by eapply tame_prefix | by eapply Hk].
Qed.

Lemma remove_download_listener_requested st r st' :
  remove_download_listener env st = (r, st') -> requested st st' RemoveListener.
Proof.
  unfold remove_download_listener, try_except.
  destruct (bind _ _ st) as [o st1] eqn:Hbody.
  assert (requested st st1 RemoveListener) as Hreq.
  { apply bind_inv in Hbody as [(v & st2 & H1 & H2) | [(e & H1 & _) | [H1 _]]].
    - apply page_call_requested in H1. eapply requested_earlier; [done |].
      by eapply tame_prefix; [apply tame_set_listener |].
    - by apply page_call_requested in H1.
    - by apply page_call_requested in H1. }
  destruct o as [a|e|]; [by intros [= <- <-] | | by intros [= <- <-]].
  destruct (is_Exception e); by intros [= <- <-].
Qed.

Lemma manual_retry_flow st f st' : manual_retry env st = (Ok f, st') -> f = Continue.
Proof.
  unfold manual_retry.
  intros (? & st1 & _ & H)%bind_Ok_inv.
  apply bind_Ok_inv in H as (? & st2 & _ & H).
  apply bind_Ok_inv in H as (? & st3 & _ & H). by injection H as <-.
Qed.

Lemma saved_step_removes url st item st' :
  saved_step env url st = (Ok (Return item), st') -> requested st st' RemoveListener.
Proof.
  unfold saved_step. intros (saved & st1 & [= <- <-] & H)%bind_Ok_inv.
  destruct (last _); [|done].
  apply bind_Ok_inv in H as ([] & st2 & Hrm & [= _ <-]).
  by apply remove_download_listener_requested in Hrm.
Qed.

Lemma seen_step_removes url st item st' :
  seen_step env url st = (Ok (Return item), st') -> requested st st' RemoveListener.
Proof.
  unfold seen_step. intros (seen & st1 & [= <- <-] & H)%bind_Ok_inv.
  destruct (last _) as [name|]; [|done].
  destruct (is_good_archive_name name); [done |].
  apply bind_Ok_inv in H as (used & st2 & [= <- <-] & H).
  destruct (negb _); [by apply manual_retry_flow in H |].
  apply bind_Ok_inv in H as ([] & st2 & Hrm & [= _ <-]).
  by apply remove_download_listener_requested in Hrm.
Qed.

Lemma started_step_flow st f st' :
  started_step env st = (Ok f, st') -> f = Go \/ f = Continue.
Proof.
  unfold started_step, try_except.
  destruct (bind _ _ st) as [[f0|e|] st1] eqn:Hbody; [| |done].
  - intros [= <- <-].
    apply bind_Ok_inv in Hbody as (v & st2 & _ & H).
    apply bind_Ok_inv in H as (count & st3 & _ & H).
    apply bind_Ok_inv in H as (visible & st4 & _ & H).
    destruct visible; [|injection H as <-; by left].
    apply bind_Ok_inv in H as (used & st5 & _ & H).
    destruct (negb _); [right; by eapply manual_retry_flow |].
    injection H as <-. by left.
  - destruct (is_Exception e); [|done]. intros [= <- <-]. by left.
Qed.

Lemma detect_step_removes url dir baseline st item st' :
  detect_step env url dir baseline st = (Ok (Return item), st') ->
  requested st st' RemoveListener.
Proof.
  unfold detect_step. intros H.
  eapply requested_refl_bind; [apply tame_wait_for_new_completed_download | exact H |].
  intros [path|] st1 _ H1.
  - apply bind_Ok_inv in H1 as ([] & st2 & Hrm & [= _ <-]).
    by apply remove_download_listener_requested in Hrm.
  - by apply bind_Ok_inv in H1 as ([] & st2 & _ & [=]).
Qed.

Lemma completion_body_removes url dir baseline st item st' :
  completion_body env url dir baseline st = (Ok (Return item), st') ->
  requested st st' RemoveListener.
Proof.
  unfold completion_body.
  intros [(st1 & H1 & H) | [H _]]%and_then_inv; [|by eapply saved_step_removes].
  apply (tame_prefix _ _ _ _ (tame_saved_step env url)) in H1.
  eapply requested_later; [done |].
  apply and_then_inv in H as [(st2 & H2 & H) | [H _]]; [|by eapply seen_step_removes].
  apply (tame_prefix _ _ _ _ (tame_seen_step env url)) in H2.
  eapply requested_later; [done |].
  apply and_then_inv in H as [(st3 & H3 & H) | [H _]];
    [|by apply started_step_flow in H as [[=] | [=]]].
  apply (tame_prefix _ _ _ _ (tame_started_step env)) in H3.
  eapply requested_later; [done |]. by eapply detect_step_removes.
Qed.

Lemma completion_loop_removes (fuel deadline : nat) url dir baseline st item st' :
  completion_loop env fuel deadline url dir baseline st = (Ok item, st') ->
  requested st st' RemoveListener.
Proof.
  assert (Hafter : forall st item st',
            bind (remove_download_listener env) (fun _ =>
              bind (get (fun st => download_errors (locals st))) (fun errors =>
                match last errors with
                | Some e => ret (item_result url "partial" ("download_save_error:" +:+ e))
                | None => ret (item_result url "partial"
                                 "download_signal_not_detected_in_time")
                end)) st = (Ok item, st') -> requested st st' RemoveListener).
  { clear. intros st item st' ([] & st1 & Hrm & H)%bind_Ok_inv.
    apply remove_download_listener_requested in Hrm.
    apply bind_Ok_inv in H as (errors & st2 & [= <- <-] & H).
    by destruct (last _); injection H as _ <-. }
  revert st. induction fuel as [|fuel IH]; intros st; simpl.
  - unfold bind at 1, time_time, get. destruct (clock st <? deadline)%nat; [done |].
    apply Hafter.
  - unfold bind at 1. unfold time_time, get.
    destruct (clock st <? deadline)%nat; [|apply Hafter].
    intros (f & st1 & Hbody & H)%bind_Ok_inv.
    destruct f as [| |item'].
    + eapply requested_later; [|by apply IH].
      by eapply tame_prefix; [apply tame_completion_body |].
    + eapply requested_later; [|by apply IH].
      by eapply tame_prefix; [apply tame_completion_body |].
    + injection H as <- <-. by eapply completion_body_removes.
Qed.

(** Every item that the click sequence returns comes after a request to
    remove the download listener. *)
Lemma click_sequence_removes url click_timeout verify dir download_timeout baseline
    st item st' :
  click_sequence env url click_timeout verify dir download_timeout baseline st
  = (Ok item, st') ->
  requested st st' RemoveListener.
Proof.
  unfold click_sequence. intros H.
  eapply requested_refl_bind; [apply tame_click_first_visible | exact H |].
  clear H. intros slow st1 _ H.
  assert (forall st2 st3,
            trace st1 `prefix_of` trace st2 ->
            (if verify
             then bind time_time (fun now =>
                    bind (set_manual_retry_used false) (fun _ =>
                      completion_loop env (Nat.max 3000 download_timeout / 500 + 1)
                        (now + Nat.max 3000 download_timeout) url dir baseline))
             else bind (remove_download_listener env) (fun _ =>
                    ret (item_result url "ok" "manual_and_slow_clicked"))) st2
            = (Ok item, st3) ->
            st3 = st' -> requested st1 st' RemoveListener) as Hrest.
  { intros st2 st3 Hpre Hrun <-. eapply requested_later; [done |]. destruct verify.
    - apply bind_Ok_inv in Hrun as (now & st4 & [= <- <-] & Hrun).
      apply bind_Ok_inv in Hrun as ([] & st5 & [= <-] & Hrun).
      apply completion_loop_removes in Hrun. by destruct Hrun as (t & Ht & ?); exists t.
    - apply bind_Ok_inv in Hrun as ([] & st4 & Hrm & [= _ <-]).
      by apply remove_download_listener_requested in Hrm. }
  apply bind_Ok_inv in H as (choice & st2 & Hchoice & H).
  destruct slow as [s|].
  - injection Hchoice as <- <-. by eapply Hrest.
  - apply bind_Ok_inv in Hchoice as (manual & st3 & Hmanual & Hchoice).
    apply (tame_prefix _ _ _ _ (tame_click_first_visible env _ _)) in Hmanual.
    destruct manual as [m|].
    + apply bind_Ok_inv in Hchoice as (slow2 & st4 & Hslow2 & Hchoice).
      apply (tame_prefix _ _ _ _ (tame_click_first_visible env _ _)) in Hslow2.
      destruct slow2 as [s|].
      * injection Hchoice as <- <-. eapply Hrest; [|done..]. by etrans.
      * apply bind_Ok_inv in Hchoice as ([] & st5 & Hrm & [= <- <-]).
        injection H as _ <-. apply remove_download_listener_requested in Hrm.
        eapply requested_later; [by etrans |]. done.
    + apply bind_Ok_inv in Hchoice as ([] & st5 & Hrm & [= <- <-]).
      injection H as _ <-. apply remove_download_listener_requested in Hrm.
      eapply requested_later; [done |]. done.
Qed.

(** What the download listener raises is no [Exception]. *)
Lemma on_download_raises (dir : string) (d : nat) st e st' :
  on_download env dir d st = (Raise e, st') -> is_Exception e = false.
Proof.
  unfold on_download.
  intros [(name & st1 & _ & H) | [(e' & H & [= <-]) | [_ [=]]]]%bind_inv.
  - exfalso.
    apply bind_inv in H as [([] & st2 & _ & H) | [(e' & [=] & _) | [[=] _]]].
    revert H. unfold try_except.
    destruct (bind _ _ st2) as [[a|e2|] st3]; [done | | done].
    cbn [is_BaseException]. by destruct (is_CancelledError e2).
  - revert H. unfold try_except.
    destruct (bind _ _ st) as [[a|e2|] st3]; [done | | done].
    destruct (is_Exception e2) eqn:E; [done |]. by intros [= <- _].
Qed.

Lemma for_each_on_download_raises (dir : string) (ds : list nat) st e st' :
  for_each (on_download env dir) ds st = (Raise e, st') -> is_Exception e = false.
Proof.
  revert st. induction ds as [|d ds IH]; intros st; simpl; [done |].
  intros [(u & st1 & _ & H) | [(e' & H & [= <-]) | [_ [=]]]]%bind_inv.
  - by eapply IH.
  - by eapply on_download_raises.
Qed.

Lemma deliver_raises st e st' :
  deliver env st = (Raise e, st') -> is_Exception e = false.
Proof.
  unfold deliver, bind, get. destruct (listener (locals st)) as [dir|]; [|done].
  destruct (downloads_fired env (world st)) as [ds w']. apply for_each_on_download_raises.
Qed.

(** An [Exception] out of a page call was raised by the call itself. *)
Lemma page_call_Exception (req : request) st e st' :
  page_call env req st = (Raise e, st') -> is_Exception e = true ->
  exists w', perform env (world st) req = (Raised e, w').
Proof.
  unfold page_call, call.
  destruct (perform env (world st) req) as [[v|e0] w'] eqn:Hp.
  - destruct (deliver env _) as [[[]|e1|] st2] eqn:Hd; [done | | done].
    intros [= <- <-] He. apply deliver_raises in Hd. congruence.
  - destruct (deliver env _) as [[[]|e1|] st2] eqn:Hd; [| | done].
    + intros [= <- <-] _. eauto.
    + intros [= <- <-] He. apply deliver_raises in Hd. congruence.
Qed.

Lemma remove_download_listener_unhooks st st' :
  remove_download_listener env st = (Ok tt, st') -> unhooked env st'.
Proof.
  unfold remove_download_listener, try_except.
  destruct (bind _ _ st) as [[[]|e|] st1] eqn:Hbody; [| | done].
  - intros [= <-]. left.
    apply bind_Ok_inv in Hbody as (v & st2 & _ & H). by injection H as <-.
  - destruct (is_Exception e) eqn:He; [|done]. intros [= <-]. right.
    apply bind_inv in Hbody as [(v & st2 & _ & [=]) | [(e' & H & [= <-]) | [_ [=]]]].
    apply page_call_Exception in H as [w' H]; eauto.
Qed.

Lemma saved_step_unhooks url st item st' :
  saved_step env url st = (Ok (Return item), st') -> unhooked env st'.
Proof.
  unfold saved_step. intros (saved & st1 & [= <- <-] & H)%bind_Ok_inv.
  destruct (last _); [|done].
  apply bind_Ok_inv in H as ([] & st2 & Hrm & [= _ <-]).
  by apply remove_download_listener_unhooks in Hrm.
Qed.

Lemma seen_step_unhooks url st item st' :
  seen_step env url st = (Ok (Return item), st') -> unhooked env st'.
Proof.
  unfold seen_step. intros (seen & st1 & [= <- <-] & H)%bind_Ok_inv.
  destruct (last _) as [name|]; [|done].
  destruct (is_good_archive_name name); [done |].
  apply bind_Ok_inv in H as (used & st2 & [= <- <-] & H).
  destruct (negb _); [by apply manual_retry_flow in H |].
  apply bind_Ok_inv in H as ([] & st2 & Hrm & [= _ <-]).
  by apply remove_download_listener_unhooks in Hrm.
Qed.

Lemma detect_step_unhooks url dir baseline st item st' :
  detect_step env url dir baseline st = (Ok (Return item), st') -> unhooked env st'.
Proof.
  unfold detect_step. intros (downloaded & st1 & _ & H)%bind_Ok_inv.
  destruct downloaded as [path|].
  - apply bind_Ok_inv in H as ([] & st2 & Hrm & [= _ <-]).
    by apply remove_download_listener_unhooks in Hrm.
  - by apply bind_Ok_inv in H as ([] & st2 & _ & [=]).
Qed.

Lemma completion_body_unhooks url dir baseline st item st' :
  completion_body env url dir baseline st = (Ok (Return item), st') -> unhooked env st'.
Proof.
  unfold completion_body.
  intros [(st1 & _ & H) | [H _]]%and_then_inv; [|by eapply saved_step_unhooks].
  apply and_then_inv in H as [(st2 & _ & H) | [H _]]; [|by eapply seen_step_unhooks].
  apply and_then_inv in H as [(st3 & _ & H) | [H _]];
    [|by apply started_step_flow in H as [[=] | [=]]].
  by eapply detect_step_unhooks.
Qed.

Lemma completion_loop_unhooks (fuel deadline : nat) url dir baseline st item st' :
  completion_loop env fuel deadline url dir baseline st = (Ok item, st') ->
  unhooked env st'.
Proof.
  assert (Hafter : forall st item st',
            bind (remove_download_listener env) (fun _ =>
              bind (get (fun st => download_errors (locals st))) (fun errors =>
                match last errors with
                | Some e => ret (item_result url "partial" ("download_save_error:" +:+ e))
                | None => ret (item_result url "partial"
                                 "download_signal_not_detected_in_time")
                end)) st = (Ok item, st') -> unhooked env st').
  { clear. intros st item st' ([] & st1 & Hrm & H)%bind_Ok_inv.
    apply remove_download_listener_unhooks in Hrm.
    apply bind_Ok_inv in H as (errors & st2 & [= <- <-] & H).
    by destruct (last _); injection H as _ <-. }
  revert st. induction fuel as [|fuel IH]; intros st; simpl.
  - unfold bind at 1, time_time, get. destruct (clock st <? deadline)%nat; [done |].
    apply Hafter.
  - unfold bind at 1. unfold time_time, get.
    destruct (clock st <? deadline)%nat; [|apply Hafter].
    intros (f & st1 & Hbody & H)%bind_Ok_inv.
    destruct f as [| |item'].
    + by eapply IH.
    + by eapply IH.
    + injection H as <- <-. by eapply completion_body_unhooks.
Qed.

(** Every item that the click sequence returns comes with the listener
    removed, or with a failed request to remove it. *)
Lemma click_sequence_unhooks url click_timeout verify dir download_timeout baseline
    st item st' :
  click_sequence env url click_timeout verify dir download_timeout baseline st
  = (Ok item, st') ->
  unhooked env st'.
Proof.
  unfold click_sequence.
  intros (slow & st1 & _ & H)%bind_Ok_inv.
  apply bind_Ok_inv in H as (choice & st2 & Hchoice & H).
  assert (forall s, choice = inl s -> unhooked env st') as Hrest.
  { intros s ->. destruct verify.
    - apply bind_Ok_inv in H as (now & st4 & [= <- <-] & H).
      apply bind_Ok_inv in H as ([] & st5 & [= <-] & H).
      by apply completion_loop_unhooks in H.
    - apply bind_Ok_inv in H as ([] & st4 & Hrm & [= _ <-]).
      by apply remove_download_listener_unhooks in Hrm. }
  destruct slow as [s|].
  - injection Hchoice as <- <-. by eapply Hrest.
  - apply bind_Ok_inv in Hchoice as (manual & st3 & _ & Hchoice).
    destruct manual as [m|].
    + apply bind_Ok_inv in Hchoice as (slow2 & st4 & _ & Hchoice).
      destruct slow2 as [s|].
      * injection Hchoice as <- <-. by eapply Hrest.
      * apply bind_Ok_inv in Hchoice as ([] & st5 & Hrm & [= <- <-]).
        injection H as _ <-. by apply remove_download_listener_unhooks in Hrm.
    + apply bind_Ok_inv in Hchoice as ([] & st5 & Hrm & [= <- <-]).
      injection H as _ <-. by apply remove_download_listener_unhooks in Hrm.
Qed.

Lemma calm_opening url files_url dir (verify : bool) :
  calm (opening_request files_url dir) (click_first_visible env COOKIE_SELECTORS 2000) /\
  calm (opening_request files_url dir)
    (if verify
     then bind (path_mkdir env dir) (fun _ =>
            bind (list_candidate_files env dir) (fun files =>
              ret (list_to_set files : gset string)))
     else ret (∅ : gset string)) /\
  calm (opening_request files_url dir) (navigate env 2 files_url None) /\
  (forall cookie game file fallback,
     calm (opening_request files_url dir)
       (direct_path env url cookie files_url game file dir fallback)).
Proof.
  split; [|split; [|split]].
  - eapply calm_weaken; [|apply calm_click_first_visible]. by intros [].
  - destruct verify; [|calm_auto]. unfold path_mkdir.
    apply calm_bind; [calm_auto |]. intros ?.
    apply calm_bind; [by apply calm_list_candidate_files | intros ?; calm_auto].
  - by apply calm_navigate.
  - intros cookie game file fallback. by apply calm_direct_path.
Qed.

Lemma page_call_alone (req : request) st r st' :
  listener (locals st) = None -> page_call env req st = (r, st') ->
  trace st' = trace st ++ [req] /\ locals st' = locals st.
Proof.
  intros Hl. unfold page_call, call.
  destruct (perform env (world st) req) as [r0 w'].
  unfold deliver, bind, get. cbn [locals]. rewrite Hl. unfold ret.
  by intros [= <- <-].
Qed.


Lemma wait_for_timeout_alone (ms : nat) st r st' :
  listener (locals st) = None -> wait_for_timeout env ms st = (r, st') ->
  trace st' = trace st ++ [WaitForTimeout ms] /\ locals st' = locals st /\
  (clock st <= clock st')%nat /\ (r = Ok tt -> (clock st + ms <= clock st')%nat).
Proof.
  intros Hl H.
  pose proof (tame_wait_for_timeout env ms _ _ _ H) as (Hclock & _).
  split; [|split; [|split; [done |]]].
  3: { intros ->. by apply wait_for_timeout_clock in H. }
  all: unfold wait_for_timeout in H.
  all: apply bind_inv in H as [(v & st1 & H1 & H2) | [(e & H1 & _) | [H1 _]]];
    apply page_call_alone in H1 as [Ht Hlo]; try done.
  all: by injection H2 as _ <-.
Qed.

(** X10: the files tab is tried twice at most.  A try that fails with an
    [Exception] is followed by a pause of 1.2 seconds, the last one too; the
    error that is kept is the message of the exception that the second try
    raised, whatever the first one raised, and with it the click fallback
    ends in a [fail] item without a further call. *)
Theorem navigate_twice url files_url click_timeout dry_run verify dir download_timeout
    st nav_error st' :
  listener (locals st) = None ->
  navigate env 2 files_url None st = (Ok nav_error, st') ->
  locals st' = locals st /\
  match nav_error with
  | None =>
      trace st' = trace st ++ [Goto files_url] \/
      trace st' = trace st ++ [Goto files_url; WaitForTimeout 1200; Goto files_url] /\
      (clock st + 1200 <= clock st')%nat
  | Some e =>
      trace st' = trace st ++ [Goto files_url; WaitForTimeout 1200;
                               Goto files_url; WaitForTimeout 1200] /\
      (clock st + 2400 <= clock st')%nat /\
      (exists e1 st1 st2 e2 st3,
         page_call env (Goto files_url) st = (Raise e1, st1) /\
         wait_for_timeout env 1200 st1 = (Ok tt, st2) /\
         page_call env (Goto files_url) st2 = (Raise e2, st3) /\
         wait_for_timeout env 1200 st3 = (Ok tt, st') /\
         e = exn_str e2) /\
      click_fallback env url files_url click_timeout dry_run verify dir download_timeout st
      = (Ok (item_result url "fail" ("navigation_error: " +:+ e)), st')
  end.
Proof.
  intros Hl H.
  assert (click_fallback env url files_url click_timeout dry_run verify dir
            download_timeout st
          = match nav_error with
            | Some e => (Ok (item_result url "fail" ("navigation_error: " +:+ e)), st')
            | None =>
                click_fallback env url files_url click_timeout dry_run verify dir
                  download_timeout st
            end) as Hfail.
  { destruct nav_error; [|done]. unfold click_fallback, bind at 1. by rewrite H. }
  revert H. cbn [navigate]. unfold try_except at 1.
  destruct (bind (page_call env (Goto files_url)) _ st) as [[o|e1|] st1] eqn:H1; [| |done].
  { intros [= <- <-]. apply bind_Ok_inv in H1 as (v & st2 & H1 & [= <- <-]).
    apply page_call_alone in H1 as [-> ->]; [|done]. split; [done | by left]. }
  apply bind_inv in H1 as [(v & st2 & _ & [=]) | [(e & H1 & [= <-]) | [_ [=]]]].
  pose proof (tame_page_call env _ _ _ _ H1) as (Hc1 & _).
  pose proof H1 as R1.
  apply page_call_alone in H1 as [Ht1 Hl1]; [|done].
  destruct (is_Exception e1); [|done].
  intros ([] & st2 & Hw1 & H)%bind_Ok_inv.
  pose proof Hw1 as R2.
  apply wait_for_timeout_alone in Hw1 as (Ht2 & Hl2 & _ & Hc2); [|by rewrite Hl1].
  specialize (Hc2 eq_refl).
  revert H. unfold try_except at 1.
  destruct (bind (page_call env (Goto files_url)) _ st2) as [[o|e2|] st3] eqn:H3; [| |done].
  { intros [= <- <-]. apply bind_Ok_inv in H3 as (v & st4 & H3 & [= <- <-]).
    pose proof (tame_page_call env _ _ _ _ H3) as (Hc3 & _).
    apply page_call_alone in H3 as [-> ->]; [|by rewrite Hl2, Hl1].
    split; [by rewrite Hl2, Hl1 |]. right. rewrite Ht2, Ht1, <- !app_assoc.
    split; [done | lia]. }
  apply bind_inv in H3 as [(v & st4 & _ & [=]) | [(e & H3 & [= <-]) | [_ [=]]]].
  pose proof (tame_page_call env _ _ _ _ H3) as (Hc3 & _).
  pose proof H3 as R3.
  apply page_call_alone in H3 as [Ht3 Hl3]; [|by rewrite Hl2, Hl1].
  destruct (is_Exception e2); [|done].
  intros ([] & st4 & Hw2 & [= <- <-])%bind_Ok_inv.
  pose proof Hw2 as R4.
  apply wait_for_timeout_alone in Hw2 as (Ht4 & Hl4 & _ & Hc4); [|by rewrite Hl3, Hl2, Hl1].
  specialize (Hc4 eq_refl).
  split; [by rewrite Hl4, Hl3, Hl2, Hl1 |].
  split; [by rewrite Ht4, Ht3, Ht2, Ht1, <- !app_assoc |]. split; [lia |].
  split; [|done]. by exists e1, st1, st2, e2, st3.
Qed.

End MoreResolver.
Lemma click_first_visible_outcome_witness :
  fst (click_first_visible slow_button_world SLOW_SELECTORS 1000 (start 0))
  = Ok (Some "button:has-text('Slow download'):visible") /\
  "button:has-text('Slow download'):visible" ∈ SLOW_SELECTORS.
Proof.
  destruct (click_first_visible_outcome slow_button_world SLOW_SELECTORS 1000 (start 0)
              (Ok (Some "button:has-text('Slow download'):visible"))
              (snd (click_first_visible slow_button_world SLOW_SELECTORS 1000 (start 0))))
    as (_ & _ & Hsome & _).
  - apply run_eq. vm_compute. reflexivity.
  - split; [vm_compute; reflexivity |]. by destruct (Hsome _ eq_refl).
Defined.

Lemma dry_run_only_navigates_witness :
  trace (snd (process_mod (stateless quiet) "https://www.nexusmods.com/skyrim/mods/10"
                1000 true true "downloads" 5000 (Some "sid=1") (Some 110) (start 0)))
  = [Goto "https://www.nexusmods.com/skyrim/mods/10?tab=files"] ++
    trace (snd (click_first_visible (stateless quiet) COOKIE_SELECTORS 2000 (start 0))) /\
  direct_path_open true (Some "sid=1") (Some 110) "https://www.nexusmods.com/skyrim/mods/10"
  = false.
Proof.
  destruct (dry_run_only_navigates (stateless quiet) "https://www.nexusmods.com/skyrim/mods/10"
              1000 true "downloads" 5000 (Some "sid=1") (Some 110) (start 0)
              (fst (process_mod (stateless quiet) "https://www.nexusmods.com/skyrim/mods/10"
                      1000 true true "downloads" 5000 (Some "sid=1") (Some 110) (start 0)))
              (snd (process_mod (stateless quiet) "https://www.nexusmods.com/skyrim/mods/10"
                      1000 true true "downloads" 5000 (Some "sid=1") (Some 110) (start 0))))
    as [_ Hclosed].
  - reflexivity.
  - apply surjective_pairing.
  - split; [vm_compute; reflexivity |]. apply Hclosed. right.
    intros t Ht. vm_compute in Ht. by injection Ht as <-.
Defined.


Lemma navigate_twice_witness :
  let files_url := "https://www.nexusmods.com/skyrim/mods/10?tab=files" in
  let st' := snd (navigate flaky_site_world 2 files_url None (start 0)) in
  trace st' = [Goto files_url; WaitForTimeout 1200; Goto files_url; WaitForTimeout 1200] /\
  (exists e1 st1 st2 e2 st3,
     page_call flaky_site_world (Goto files_url) (start 0) = (Raise e1, st1) /\
     wait_for_timeout flaky_site_world 1200 st1 = (Ok tt, st2) /\
     page_call flaky_site_world (Goto files_url) st2 = (Raise e2, st3) /\
     wait_for_timeout flaky_site_world 1200 st3 = (Ok tt, st') /\
     exn_str e1 = "net::ERR_NAME_NOT_RESOLVED" /\
     "net::ERR_CONNECTION_REFUSED" = exn_str e2) /\
  fst (click_fallback flaky_site_world "https://www.nexusmods.com/skyrim/mods/10" files_url
         1000 false true "downloads" 5000 (start 0))
  = Ok (item_result "https://www.nexusmods.com/skyrim/mods/10" "fail"
          "navigation_error: net::ERR_CONNECTION_REFUSED").
Proof.
  destruct (navigate_twice flaky_site_world "https://www.nexusmods.com/skyrim/mods/10"
              "https://www.nexusmods.com/skyrim/mods/10?tab=files" 1000 false true
              "downloads" 5000 (start 0) (Some "net::ERR_CONNECTION_REFUSED")
              (snd (navigate flaky_site_world 2
                      "https://www.nexusmods.com/skyrim/mods/10?tab=files" None (start 0))))
    as (_ & Htrace & _ & (e1 & st1 & st2 & e2 & st3 & R1 & R2 & R3 & R4 & He) & Hfail).
  - reflexivity.
  - apply run_eq. vm_compute. reflexivity.
  - split; [exact Htrace |]. split; [|by rewrite Hfail].
    exists e1, st1, st2, e2, st3. repeat (split; [done |]). split; [|done].
    vm_compute in R1. by injection R1 as <- _.
Defined.

Section Watching.

Context {W : Type} (env : Env W).

Lemma time_sleep_clock' (ms : nat) st st' :
  time_sleep env ms st = (Ok tt, st') -> (clock st + ms <= clock st')%nat.
Proof. apply time_sleep_clock. Qed.

Lemma sample_sizes_clock (path : string) (n interval : nat) (sizes : list Z) st l st' :
  sample_sizes env path n interval sizes st = (Ok (Some l), st') ->
  (clock st + n * interval <= clock st')%nat /\
  exists sampled, l = sizes ++ sampled /\ length sampled = n.
Proof.
  revert sizes st. induction n as [|n IH]; intros sizes st; simpl.
  - intros [= <- <-]. split; [lia |]. exists []. by rewrite app_nil_r.
  - intros (e & st1 & He & H)%bind_Ok_inv. destruct e; simpl in H; [|done].
    apply bind_Ok_inv in H as (size & st2 & Hsize & H).
    apply bind_Ok_inv in H as ([] & st3 & Hsleep & H).
    apply (tame_path_exists env) in He as (? & _).
    apply (tame_stat_size env) in Hsize as (? & _).
    apply time_sleep_clock in Hsleep.
    apply IH in H as (? & sampled & -> & <-). split; [lia |].
    exists (size :: sampled). by rewrite <- app_assoc.
Qed.

(** A file is stable when it exists, is not a temporary download, and
    showed one size at each of the checks, which takes the time of the
    checks. *)
Lemma wait_until_file_is_stable_true (path : string) (checks interval : nat) st st' :
  wait_until_file_is_stable env path checks interval st = (Ok true, st') ->
  is_temp_download path = false /\ (0 < checks)%nat /\
  (clock st + checks * interval <= clock st')%nat.
Proof.
  unfold wait_until_file_is_stable.
  intros (e & st1 & He & H)%bind_Ok_inv.
  destruct (negb e || is_temp_download path) eqn:E; [done |].
  apply orb_false_iff in E as [_ E].
  apply bind_Ok_inv in H as ([l|] & st2 & Hs & H); [|done].
  injection H as H <-. apply bool_decide_eq_true in H.
  apply (tame_path_exists env) in He as (? & _).
  apply sample_sizes_clock in Hs as (? & sampled & -> & <-).
  split; [done |]. split; [|lia].
  destruct sampled; [|simpl; lia]. exfalso. revert H.
  change ([] ++ [] : list Z) with ([] : list Z). by rewrite list_to_set_nil, size_empty.
Qed.

Lemma first_stable_found (l : list string) st path st' :
  first_stable env l st = (Ok (Some path), st') ->
  path ∈ l /\ is_temp_download path = false /\ (clock st + 3000 <= clock st')%nat.
Proof.
  revert st. induction l as [|p l IH]; intros st; simpl; [done |].
  intros (stable & st1 & Hs & H)%bind_Ok_inv. destruct stable.
  - injection H as <- <-. apply wait_until_file_is_stable_true in Hs as (? & _ & ?).
    split; [by left |]. split; [done | lia].
  - apply (tame_wait_until_file_is_stable env) in Hs as (? & _).
    apply IH in H as (? & ? & ?). split; [by right |]. split; [done | lia].
Qed.

Lemma with_mtimes_paths (l : list string) st keyed st' :
  with_mtimes env l st = (Ok keyed, st') -> map snd keyed = l.
Proof.
  revert st keyed. induction l as [|p l IH]; intros st keyed; simpl.
  - by intros [= <- <-].
  - intros (t & st1 & _ & H)%bind_Ok_inv.
    apply bind_Ok_inv in H as (r & st2 & Hr & [= <- <-]).
    simpl. by rewrite (IH _ _ Hr).
Qed.

Lemma insert_by_mtime_elem (x y : Z * string) (l : list (Z * string)) :
  y ∈ insert_by_mtime x l <-> y = x \/ y ∈ l.
Proof.
  induction l as [|z l IH]; simpl.
  - rewrite elem_of_cons. tauto.
  - destruct (z.1 <? x.1); rewrite !elem_of_cons; [tauto |]. rewrite IH. tauto.
Qed.

Lemma elem_of_List_filter {A} (f : A -> bool) (l : list A) (x : A) :
  x ∈ List.filter f l -> x ∈ l /\ f x = true.
Proof.
  induction l as [|y l IH]; simpl; [by intros ?%elem_of_nil |].
  destruct (f y) eqn:Hy.
  - intros [-> | Hx]%elem_of_cons; [split; [by left | done] |].
    destruct (IH Hx). split; [by right | done].
  - intros Hx. destruct (IH Hx). split; [by right | done].
Qed.

Lemma sort_newest_first_elem (path : string) (keyed : list (Z * string)) :
  path ∈ sort_newest_first keyed -> path ∈ map snd keyed.
Proof.
  unfold sort_newest_first.
  assert (forall acc y, y ∈ fold_left (fun acc x => insert_by_mtime x acc) keyed acc ->
                        y ∈ acc \/ y ∈ keyed) as Hfold.
  { induction keyed as [|x keyed IH]; intros acc y; simpl; [by left |].
    intros [Hy | Hy]%IH; [|right; by right].
    apply insert_by_mtime_elem in Hy as [-> | Hy]; [right; by left | by left]. }
  intros ((t & p) & -> & Hin)%list_elem_of_fmap.
  apply Hfold in Hin as [Hin | Hin]; [by apply elem_of_nil in Hin |].
  apply list_elem_of_fmap. by exists (t, p).
Qed.

Lemma download_poll_outcome (fuel : nat) (dir : string) (baseline : gset string)
    (start timeout : nat) st found st' :
  download_poll env fuel dir baseline start timeout st = (Ok found, st') ->
  match found with
  | Some path =>
      (path ∉ baseline) /\ is_temp_download path = false /\ (clock st + 3000 <= clock st')%nat
  | None => ((start + timeout)%nat < clock st')%nat
  end.
Proof.
  revert st. induction fuel as [|fuel IH]; intros st; simpl; [done |].
  intros (files & st1 & Hfiles & H)%bind_Ok_inv.
  apply bind_Ok_inv in H as (keyed & st2 & Hkeyed & H).
  apply bind_Ok_inv in H as (first & st3 & Hfirst & H).
  pose proof (tame_list_candidate_files env _ _ _ _ Hfiles) as (? & _).
  pose proof (tame_with_mtimes env _ _ _ _ Hkeyed) as (? & _).
  destruct first as [path|].
  - injection H as <- <-.
    apply first_stable_found in Hfirst as (Hin & Htemp & ?).
    apply sort_newest_first_elem in Hin. rewrite (with_mtimes_paths _ _ _ _ Hkeyed) in Hin.
    apply elem_of_List_filter in Hin as [Hin _].
    apply elem_of_elements, elem_of_difference in Hin as [_ Hin].
    split; [done |]. split; [done | lia].
  - unfold bind at 1, time_time, get in H.
    destruct (timeout <? clock st3 - start)%nat eqn:Hlt.
    + injection H as <- <-. apply Nat.ltb_lt in Hlt. lia.
    + apply bind_Ok_inv in H as ([] & st4 & Hsleep & H).
      apply IH in H. destruct found as [path|]; [|done].
      destruct H as (? & ? & ?). apply time_sleep_clock in Hsleep.
      pose proof (tame_first_stable env _ _ _ _ Hfirst) as (? & _).
      split; [done |]. split; [done | lia].
Qed.

(** X7: the watch on the downloads directory comes to an end.  A file it
    reports is not in the baseline and has no temporary extension, and was
    watched for three seconds at least; it gives up only once more than the
    timeout has passed. *)
Theorem wait_for_new_completed_download_outcome (dir : string) (baseline : gset string)
    (timeout : nat) st r st' :
  wait_for_new_completed_download env dir baseline timeout st = (r, st') ->
  r <> Diverge /\
  (forall path, r = Ok (Some path) ->
     (path ∉ baseline) /\ is_temp_download path = false /\
     (clock st + 3000 <= clock st')%nat) /\
  (r = Ok None -> (clock st + timeout < clock st')%nat).
Proof.
  intros H. split.
  - by apply (tame_wait_for_new_completed_download env) in H as (_ & _ & _ & ?).
  - unfold wait_for_new_completed_download, bind at 1, time_time, get in H.
    split.
    + intros path ->. by apply download_poll_outcome in H.
    + intros ->. by apply download_poll_outcome in H.
Qed.

End Watching.

Lemma wait_for_new_completed_download_outcome_witness :
  (0 + 3000 < clock (snd (wait_for_new_completed_download crdownload_world "downloads" ∅ 3000
                            (start 0))))%nat.
Proof.
  destruct (wait_for_new_completed_download_outcome crdownload_world "downloads" ∅ 3000
              (start 0) (Ok None)
              (snd (wait_for_new_completed_download crdownload_world "downloads" ∅ 3000
                      (start 0))))
    as (_ & _ & Hnone).
  - apply run_eq. vm_compute. reflexivity.
  - by apply Hnone.
Defined.

Section Listener.

Context {W : Type} (env : Env W).

Lemma call_locals (req : request) st r st' :
  call env req st = (r, st') ->
  locals st' = locals st /\ trace st' = trace st ++ [req].
Proof.
  unfold call. destruct (perform env (world st) req) as [r0 w']. by intros [= <- <-].
Qed.

Lemma path_exists_locals (p : string) st r st' :
  path_exists env p st = (r, st') -> locals st' = locals st.
Proof.
  unfold path_exists.
  intros [(v & st1 & [H1 _]%call_locals & H2) | [(e & [H1 _]%call_locals & _) |
          [[H1 _]%call_locals _]]]%bind_inv; try done.
  destruct v; by injection H2 as _ <-.
Qed.

Lemma unique_path_scan_locals (n i : nat) (path : string) st r st' :
  unique_path_scan env n i path st = (r, st') -> locals st' = locals st.
Proof.
  revert i st. induction n as [|n IH]; intros i st; simpl; [by intros [= _ <-] |].
  intros [(e & st1 & H1 & H2) | [(e & H1 & _) | [H1 _]]]%bind_inv;
    apply path_exists_locals in H1; try done.
  destruct (negb e); [by injection H2 as _ <- |]. apply IH in H2. congruence.
Qed.

Lemma unique_path_locals (path : string) st r st' :
  unique_path env path st = (r, st') -> locals st' = locals st.
Proof.
  unfold unique_path.
  intros [(e & st1 & H1 & H2) | [(e & H1 & _) | [H1 _]]]%bind_inv;
    apply path_exists_locals in H1; try done.
  destruct (negb e); [by injection H2 as _ <- |].
  apply unique_path_scan_locals in H2. congruence.
Qed.

(** X11: the download listener never lets a failure of the save escape,
    whatever its class: an event adds its suggested name (or [unknown]) to
    the names seen and then either the path it was saved under, right after
    the [save_as] call, or one error message that starts with the name.  The
    listener raises only when reading the suggested name raises something
    that is not an [Exception], and then it records nothing. *)
Theorem on_download_records (dir : string) (d : nat) st r st' :
  on_download env dir d st = (r, st') ->
  match r with
  | Ok _ => recorded d (locals st) (locals st') (last (trace st'))
  | Raise e =>
      is_Exception e = false /\ locals st' = locals st /\
      trace st' = trace st ++ [SuggestedFilename d]
  | Diverge => False
  end.
Proof.
  unfold on_download. intros H.
  apply bind_inv in H as [(name & st1 & Hname & H) | [(e & Hname & ->) | [Hname ->]]].
  - assert (locals st1 = locals st) as Hl1.
    { revert Hname. unfold try_except.
      destruct (bind _ _ st) as [[a|e|] st0] eqn:Hbody.
      - intros [= <- <-].
        apply bind_Ok_inv in Hbody as (v & st2 & [Hc _]%call_locals & Hs).
        destruct v; try done. by injection Hs as _ <-.
      - assert (locals st0 = locals st).
        { apply bind_inv in Hbody as [(v & st2 & [Hc _]%call_locals & Hs) |
                                      [(e' & [Hc _]%call_locals & _) | [_ [=]]]]; [|done].
          destruct v; by injection Hs as _ <-. }
        destruct (is_Exception e); by intros [= _ <-].
      - done. }
    apply bind_inv in H as [([] & st2 & [= <-] & H) | [(e & [=] & _) | [[=] _]]].
    unfold try_except in H.
    destruct (bind (path_mkdir env dir) _ _) as [[[]|e|] st3] eqn:Hsave.
    + injection H as <- <-.
      apply bind_Ok_inv in Hsave as ([] & st4 & Hmk & Hsave).
      apply bind_Ok_inv in Hmk as (v & st5 & [Hl5 _]%call_locals & [= <-]).
      apply bind_Ok_inv in Hsave as (target & st6 & Hl6%unique_path_locals & Hsave).
      apply bind_Ok_inv in Hsave as (v' & st7 & [Hl7 Ht7]%call_locals & [= <-]).
      cbn [locals with_locals trace]. rewrite Hl7, Hl6, Hl5. cbn [locals with_locals].
      rewrite Hl1. cbn. repeat split. exists name. split; [done |]. left.
      exists target. repeat split. by rewrite Ht7, last_snoc.
    + assert (locals st3 = locals (with_locals
                (fun x => {| listener := listener x;
                             seen_downloads := seen_downloads x ++ [name];
                             saved_downloads := saved_downloads x;
                             download_errors := download_errors x;
                             manual_retry_used := manual_retry_used x |}) st1)) as Hl3.
      { apply bind_inv in Hsave as [([] & st4 & Hmk & Hsave) | [(e' & Hmk & _) | [_ [=]]]].
        2: { apply bind_inv in Hmk as [(v & st5 & _ & [=]) |
                                       [(e'' & [Hc _]%call_locals & _) | [_ [=]]]]. done. }
        apply bind_Ok_inv in Hmk as (v & st5 & [Hl5 _]%call_locals & [= <-]).
        apply bind_inv in Hsave as [(target & st6 & Hl6%unique_path_locals & Hsave) |
                                    [(e' & Hl6%unique_path_locals & _) | [_ [=]]]];
          [|congruence].
        apply bind_inv in Hsave as [(v' & st7 & _ & [=]) |
                                    [(e' & [Hl7 _]%call_locals & _) | [_ [=]]]].
        congruence. }
      cbn [is_BaseException] in H.
      destruct (is_CancelledError e); injection H as <- <-;
        cbn [locals with_locals]; rewrite Hl3; cbn [locals with_locals]; rewrite Hl1; cbn;
        repeat split; exists name; (split; [done |]); right; eauto.
    + exfalso.
      apply bind_inv in Hsave as [([] & st4 & Hmk & Hsave) | [(e' & _ & [=]) | [Hmk _]]].
      2: { by apply (tame_path_mkdir env) in Hmk as (_ & _ & _ & ?). }
      apply bind_inv in Hsave as [(target & st6 & _ & Hsave) | [(e' & _ & [=]) | [Hu _]]].
      2: { by apply (tame_unique_path env) in Hu as (_ & _ & _ & ?). }
      apply bind_inv in Hsave as [(v' & st7 & _ & [=]) | [(e' & _ & [=]) | [Hc _]]].
      by apply (tame_call env) in Hc as (_ & _ & _ & ?).
  - revert Hname. unfold try_except.
    destruct (bind _ _ st) as [[a|e0|] st0] eqn:Hbody; [done | | done].
    destruct (is_Exception e0) eqn:He; [done |]. intros [= <- <-].
    apply bind_inv in Hbody as [(v & st2 & [Hc Ht]%call_locals & Hs) |
                                [(e' & [Hc Ht]%call_locals & [= <-]) | [_ [=]]]]; [|done].
    destruct v; first [done | injection Hs as <- <-; done].
  - revert Hname. unfold try_except.
    destruct (bind _ _ st) as [[a|e0|] st0] eqn:Hbody; [done | by destruct (is_Exception e0) |].
    intros _.
    apply bind_inv in Hbody as [(v & st2 & _ & Hs) | [(e' & _ & [=]) | [Hc _]]].
    + by destruct v.
    + by apply (tame_call env) in Hc as (_ & _ & _ & ?).
Qed.

End Listener.

Lemma on_download_records_witness :
  let st' := snd (on_download (stateless quiet) "downloads" 0 (start 0)) in
  recorded 0 (locals (start 0)) (locals st') (last (trace st')).
Proof.
  apply (on_download_records (stateless quiet) "downloads" 0 (start 0) (Ok tt)).
  apply run_eq. vm_compute. reflexivity.
Defined.

(** ** The Install Stager: directory names *)

Lemma map_chars_forallb (f : ascii -> ascii) (p : ascii -> bool) (s : string) :
  (forall c, p (f c) = true) -> Py.forallb_str p (Url.map_chars f s) = true.
Proof. intros Hf. induction s as [|c s IH]; simpl; [done |]. by rewrite Hf, IH. Qed.

Lemma map_chars_fixed (f : ascii -> ascii) (p : ascii -> bool) (s : string) :
  (forall c, p c = true -> f c = c) -> Py.forallb_str p s = true -> Url.map_chars f s = s.
Proof.
  intros Hf. induction s as [|c s IH]; simpl; [done |].
  intros [Hc Hs]%andb_true_iff. by rewrite (Hf c Hc), IH.
Qed.

Lemma forallb_str_app (p : ascii -> bool) (a b : string) :
  Py.forallb_str p (a +:+ b) = Py.forallb_str p a && Py.forallb_str p b.
Proof. induction a as [|c a IH]; simpl; [done |]. by rewrite IH, andb_assoc. Qed.

Lemma lstrip_set_suffix (p : ascii -> bool) (s : string) :
  exists t, s = t +:+ Py.lstrip_set p s.
Proof.
  induction s as [|c s [t IH]]; simpl; [by exists "" |].
  destruct (p c); [|by exists ""]. exists (String c t). simpl. by rewrite <- IH.
Qed.

Lemma lstrip_set_first (p : ascii -> bool) (s : string) (c : ascii) :
  first_char (Py.lstrip_set p s) = Some c -> p c = false.
Proof.
  induction s as [|x s IH]; simpl; [done |].
  destruct (p x) eqn:Hx; [done |]. simpl. by intros [= <-].
Qed.

Lemma rstrip_set_first (p : ascii -> bool) (s : string) (c : ascii) :
  first_char (Py.rstrip_set p s) = Some c -> first_char s = Some c.
Proof.
  destruct s as [|x s]; simpl; [done |].
  destruct (Py.rstrip_set p s); [by destruct (p x) | done].
Qed.

Lemma last_char_snoc (s : string) (c : ascii) :
  last_char s = Some c -> exists a, s = a +:+ String c "".
Proof.
  induction s as [|x s IH]; [done |]. destruct s as [|y s].
  - intros [= <-]. by exists "".
  - intros H. destruct (IH H) as [a Ha]. exists (String x a). simpl. by rewrite <- Ha.
Qed.

Lemma rstrip_set_last (p : ascii -> bool) (s : string) (c : ascii) :
  last_char (Py.rstrip_set p s) = Some c -> p c = false.
Proof. intros [a Ha]%last_char_snoc. by eapply rstrip_set_end. Qed.

Lemma stem_char_kept (c : ascii) :
  stem_char (if stem_char c then c else "_"%char) = true.
Proof. by destruct (stem_char c) eqn:Hc. Qed.

Lemma first_char_some (s : string) : s <> "" -> exists c, first_char s = Some c.
Proof. destruct s; [done | eauto]. Qed.

Lemma last_char_some (s : string) : s <> "" -> exists c, last_char s = Some c.
Proof.
  induction s as [|x s IH]; [done |]. intros _. destruct s as [|y s]; [by exists x |].
  apply IH. done.
Qed.

Lemma safe_stem_fixed (s : string) : is_safe_stem s -> safe_stem s = s.
Proof.
  intros [Hchars (c & Hfirst & Hc) (d & Hlast & Hd)]. unfold safe_stem.
  rewrite (map_chars_fixed _ stem_char) by (done || by intros x ->).
  assert (Py.lstrip_set dot_or_underscore s = s) as ->.
  { destruct s as [|x s]; [done |]. injection Hfirst as ->. simpl. by rewrite Hc. }
  assert (Py.rstrip_set dot_or_underscore s = s) as ->.
  { apply last_char_snoc in Hlast as [a ->]. clear -Hd.
    induction a as [|x a IH]; simpl; [by rewrite Hd |]. rewrite IH. by destruct a. }
  by destruct s.
Qed.

(** X12: the directory name that the install stage derives from an archive
    name is never empty, holds only letters, digits, hyphens, underscores
    and dots (so no path separator), and neither starts nor ends with a dot
    or an underscore (so it is never [.] or [..]); a name of this kind is
    left as it is, so the derivation is idempotent. *)
Theorem safe_stem_is_safe (name : string) :
  is_safe_stem (safe_stem name) /\
  safe_stem (safe_stem name) = safe_stem name /\
  Py.existsb_str Path.is_sep (safe_stem name) = false.
Proof.
  assert (is_safe_stem (safe_stem name)) as Hsafe.
  { unfold safe_stem.
    set (keep := Url.map_chars _ name).
    assert (Py.forallb_str stem_char keep = true) as Hkeep
      by apply map_chars_forallb, stem_char_kept.
    set (stripped := Py.rstrip_set _ _).
    destruct (Py.truthy_str stripped) eqn:Hne.
    2: { split; [done | by exists "a"%char | by exists "e"%char]. }
    assert (stripped <> "") as Hnonempty by (by destruct stripped).
    split.
    - destruct (lstrip_set_suffix dot_or_underscore keep) as [t Ht].
      destruct (rstrip_set_prefix dot_or_underscore (Py.lstrip_set dot_or_underscore keep))
        as [u Hu].
      fold stripped in Hu. rewrite Ht, Hu, !forallb_str_app in Hkeep.
      by apply andb_true_iff in Hkeep as [_ [? _]%andb_true_iff].
    - destruct (first_char_some _ Hnonempty) as [c Hc]. exists c. split; [done |].
      apply rstrip_set_first in Hc. by eapply lstrip_set_first.
    - destruct (last_char_some _ Hnonempty) as [c Hc]. exists c. split; [done |].
      by eapply rstrip_set_last. }
  split; [done |]. split; [by apply safe_stem_fixed |].
  destruct Hsafe as [Hchars _ _]. revert Hchars. apply forallb_existsb_str.
  intros c. destruct c as [[] [] [] [] [] [] [] []]; try done.
Qed.

(** ** The browser-first script: logs *)

Section Logs.

Context {W : Type} (env : Env W).

Lemma tame_write_run_logs json txt : tame (write_run_logs env json txt).
Proof.
  unfold write_run_logs.
  apply tame_bind; [apply tame_get |]. intros r.
  apply tame_bind; [apply tame_call |]. intros ?.
  apply tame_bind; [apply tame_call |]. intros ?. apply tame_ret.
Qed.

(** Writing the logs starts with the JSON log of the report as it is. *)
Lemma write_run_logs_requested json txt st r st' :
  write_run_logs env json txt st = (r, st') ->
  requested st st' (WriteJson json (run_data st)).
Proof.
  unfold write_run_logs, bind at 1, get. cbv beta iota.
  intros [(v & st1 & H1 & H2) | [(e & H1 & _) | [H1 _]]]%bind_inv.
  - pose proof (call_locals env _ _ _ _ H1) as [_ Ht].
    assert (trace st1 `prefix_of` trace st') as [t Hp].
    { eapply tame_prefix; [|exact H2]. apply tame_bind; [apply tame_call |].
      intros ?. apply tame_ret. }
    exists ([WriteJson json (run_data st)] ++ t). rewrite Hp, Ht, <- app_assoc.
    split; [done |]. apply elem_of_app. left. by left.
  - pose proof (call_locals env _ _ _ _ H1) as [_ Ht].
    exists [WriteJson json (run_data st)]. split; [done | by left].
  - pose proof (call_locals env _ _ _ _ H1) as [_ Ht].
    exists [WriteJson json (run_data st)]. split; [done | by left].
Qed.

(** X13: however the loop over the queue of the browser-first script ends
    (with the queue done, or with an exception in the middle of it), the
    results hold one item for each link handled so far, in order and
    numbered on from [idx], and a write of the JSON log with exactly these
    results was requested after the last of them was added: no item is
    held back from the log. *)
Theorem main_loop_logs_every_item args json txt cookie game total links :
  forall idx st r st',
    main_loop env args json txt cookie game total idx links st = (r, st') ->
    r <> Diverge /\ trace st `prefix_of` trace st' /\
    exists items,
      run_data st' = foldl (fun r item => append_result item r) (run_data st) items /\
      map mod_url items = take (length items) links /\
      map index items = map Z.of_nat (seq idx (length items)) /\
      (items <> [] -> requested st st' (WriteJson json (run_data st'))) /\
      (r = Ok tt -> length items = length links).
Proof.
  induction links as [|link links IH]; intros idx st r st'; simpl.
  - intros [= <- <-]. split; [done |]. split; [done |]. by exists [].
  - intros H.
    apply bind_inv in H as [(item & st1 & Hitem & H) | [(e & Hitem & ->) | [Hitem ->]]].
    2: { apply (tame_process_mod env) in Hitem as (_ & ? & ? & _).
         split; [done |]. split; [done |]. by exists []. }
    2: { by apply (tame_process_mod env) in Hitem as (_ & _ & _ & ?). }
    pose proof (tame_process_mod env _ _ _ _ _ _ _ _ _ _ _ Hitem) as (_ & Hp1 & Hrd1 & _).
    apply (yields_process_mod env) in Hitem as (_ & Hurl & _).
    apply bind_inv in H as [([] & st2 & [= <-] & H) | [(e & [=] & _) | [[=] _]]].
    set (item' := set_index (Z.of_nat idx) item) in *.
    set (st2 := with_run_data (append_result item') st1) in *.
    assert (run_data st2 = append_result item' (run_data st)) as Hrd2
      by (unfold st2; cbn; by rewrite Hrd1).
    assert (forall st3 r3 (st4 : St W),
              write_run_logs env json txt st2 = (r3, st3) ->
              trace st3 `prefix_of` trace st4 -> run_data st4 = run_data st2 ->
              trace st `prefix_of` trace st4 /\
              exists items,
                run_data st4 = foldl (fun r item => append_result item r) (run_data st) items /\
                map mod_url items = take (length items) (link :: links) /\
                map index items = map Z.of_nat (seq idx (length items)) /\
                (items <> [] -> requested st st4 (WriteJson json (run_data st4))) /\
                (length items = 1)%nat) as Hone.
    { intros st3 r3 st4 Hw Hp Hrd.
      pose proof (tame_write_run_logs _ _ _ _ _ Hw) as (_ & Hp3 & _).
      split; [etrans; [exact Hp1 |]; by etrans |].
      exists [item']. rewrite Hrd, Hrd2.
      split; [done |]. split; [by rewrite <- Hurl |]. split; [done |].
      split; [|done]. intros _. rewrite <- Hrd2.
      apply write_run_logs_requested in Hw.
      eapply requested_later; [exact Hp1 |]. by eapply requested_earlier. }
    apply bind_inv in H as [([] & st3 & Hw & H) | [(e & Hw & ->) | [Hw ->]]].
    2: { split; [done |]. pose proof (tame_write_run_logs _ _ _ _ _ Hw) as (_ & _ & Hrd & _).
         destruct (Hone _ _ st' Hw) as (? & items & ? & ? & ? & ? & ?); [done..|].
         split; [done |]. exists items. by repeat split. }
    2: { by apply tame_write_run_logs in Hw as (_ & _ & _ & ?). }
    pose proof (tame_write_run_logs _ _ _ _ _ Hw) as (_ & _ & Hrd3 & _).
    assert (tame (if (idx <? total)%nat then wait_for_timeout env (a_delay args)
                  else ret tt)) as Twait
      by (destruct (idx <? total)%nat; [apply tame_wait_for_timeout | apply tame_ret]).
    apply bind_inv in H as [([] & st4 & Hwait & H) | [(e & Hwait & ->) | [Hwait ->]]].
    2: { split; [done |]. apply Twait in Hwait as (_ & Hp & Hrd & _).
         destruct (Hone _ _ st' Hw) as (? & items & ? & ? & ? & ? & ?); [done | congruence |].
         split; [done |]. exists items. by repeat split. }
    2: { by apply Twait in Hwait as (_ & _ & _ & ?). }
    apply Twait in Hwait as (_ & Hp4 & Hrd4 & _).
    apply IH in H as (Hdiv & Hp5 & items & Hrd & Hurls & Hidx & Hreq & Hlen).
    split; [done |].
    destruct (Hone _ _ st4 Hw Hp4) as (Hp04 & _); [congruence |].
    split; [by etrans |].
    exists (item' :: items).
    split; [by rewrite Hrd, Hrd4, Hrd3, Hrd2 |].
    split; [simpl; by rewrite <- Hurl, Hurls |].
    split; [simpl; by rewrite Hidx |].
    split; [|intros Hr; simpl; by rewrite Hlen].
    intros _. destruct items as [|item2 items].
    + destruct (Hone _ _ st' Hw) as (_ & items1 & ? & ? & ? & Hreq1 & Hlen1).
      * by etrans.
      * simpl in Hrd. congruence.
      * apply Hreq1. by destruct items1.
    + eapply requested_later; [exact Hp04 |]. by apply Hreq.
Qed.

End Logs.

Lemma main_loop_logs_every_item_witness :
  let links := ["https://www.nexusmods.com/skyrim/mods/10?tab=files&file_id=5";
                "https://www.nexusmods.com/skyrim/mods/20?tab=files&file_id=6"] in
  let st' := snd (main_loop signed_in_world example_args "run.json" "run.txt" "sid=1"
                    (Some 110) 2 1 links (start 0)) in
  (Ok tt : outcome unit) <> Diverge /\ trace (start 0) `prefix_of` trace st' /\
  exists items,
    run_data st' = foldl (fun r item => append_result item r) (run_data (start 0)) items /\
    map mod_url items = take (length items) links /\
    map index items = map Z.of_nat (seq 1 (length items)) /\
    (items <> [] -> requested (start 0) st' (WriteJson "run.json" (run_data st'))) /\
    ((Ok tt : outcome unit) = Ok tt -> length items = length links).
Proof.
  apply (main_loop_logs_every_item signed_in_world example_args "run.json" "run.txt" "sid=1"
           (Some 110) 2
           ["https://www.nexusmods.com/skyrim/mods/10?tab=files&file_id=5";
            "https://www.nexusmods.com/skyrim/mods/20?tab=files&file_id=6"] 1 (start 0)).
  apply run_eq. vm_compute. reflexivity.
Defined.

(** ** The URL normalizer: what [parse_mod_target] reads from an accepted URL *)

Lemma accepts_ilit (lit s : string) :
  Re.accepts (Re.ilit lit) s = true -> Py.lower s = Py.lower lit.
Proof.
  revert s. induction lit as [|a lit IH]; intros s; simpl.
  - by intros ->%accepts_Eps.
  - intros (s1 & s2 & -> & (c & -> & Hc%Ascii.eqb_eq)%accepts_Class & H2%IH)%accepts_Seq.
    simpl. by rewrite Hc, H2.
Qed.

Lemma lower_no_slash (s lit : string) :
  Py.lower s = Py.lower lit ->
  Py.existsb_str (Py.is_char "/") (Py.lower lit) = false ->
  Py.existsb_str (Py.is_char "/") s = false.
Proof.
  intros <-. induction s as [|c s IH]; simpl; [done |].
  intros [Hc Hs]%orb_false_iff. rewrite (IH Hs), orb_false_r.
  destruct (Py.is_char "/" c) eqn:E; [|done].
  apply Ascii.eqb_eq in E as <-. done.
Qed.

(** The three segments of a path that [MOD_PATH_RE] matches. *)
Lemma MOD_PATH_RE_segments (path : string) :
  Re.accepts MOD_PATH_RE path = true ->
  exists game kind digits back,
    path = String "/" game +:+ String "/" kind +:+ String "/" digits +:+ back /\
    game <> "" /\ Py.existsb_str (Py.is_char "/") game = false /\
    Py.lower kind = "mods" /\
    digits <> "" /\ Py.forallb_str Py.is_digit digits = true /\
    (back = "" \/ back = "/").
Proof.
  unfold MOD_PATH_RE.
  intros (s0 & r0 & -> & (c0 & -> & Hc0)%accepts_Class & H)%accepts_Seq.
  apply accepts_Seq in H as (s1 & r1 & -> & [Hne1 Hs1]%accepts_Plus_Class & H).
  apply accepts_Seq in H as (s2 & r2 & -> & (c2 & -> & Hc2)%accepts_Class & H).
  apply accepts_Seq in H as (s3 & r3 & -> & Hkind%accepts_ilit & H).
  apply accepts_Seq in H as (s4 & r4 & -> & (c4 & -> & Hc4)%accepts_Class & H).
  apply accepts_Seq in H as (s5 & r5 & -> & [Hne Hdigits]%accepts_Plus_Class & H).
  apply accepts_Opt_Class in H.
  apply Ascii.eqb_eq in Hc0 as <-, Hc2 as <-, Hc4 as <-.
  exists s1, s3, s5, r5. repeat split; try done.
  - eapply forallb_existsb_str; [|exact Hs1]. intros c Hc. by apply negb_true_iff.
  - destruct H as [-> | (c & -> & <-%Ascii.eqb_eq)]; auto.
Qed.

Lemma split_on_app (sep : ascii -> bool) (a b : string) (c : ascii) :
  Py.existsb_str sep a = false -> sep c = true ->
  Py.split_on sep (a +:+ String c b) = a :: Py.split_on sep b.
Proof.
  intros Ha Hc. induction a as [|x a IH]; simpl.
  - by rewrite Hc.
  - simpl in Ha. apply orb_false_iff in Ha as [-> Ha]. by rewrite IH.
Qed.

Lemma uint_of_digits (s : string) :
  Py.forallb_str Py.is_digit s = true -> is_Some (NilEmpty.uint_of_string s).
Proof.
  induction s as [|c s IH]; simpl; [done |].
  intros [Hc [u ->]%IH]%andb_true_iff.
  destruct c as [[] [] [] [] [] [] [] []]; try discriminate Hc; done.
Qed.

Lemma Z_of_uint_nonneg (u : Decimal.uint) : 0 <= Z.of_uint u.
Proof. unfold Z.of_uint. lia. Qed.

(** [int] reads a text of digits unless it is longer than the limit. *)
Lemma py_int_of_digits (s : string) :
  s <> "" -> Py.forallb_str Py.is_digit s = true ->
  if (int_max_str_digits <? String.length s)%nat then py_int s = None
  else exists n, py_int s = Some n /\ 0 <= n.
Proof.
  intros Hne Hd. rewrite py_int_digits by done. unfold int_of_body.
  rewrite int_body_ok_digits by auto.
  rewrite remove_chars_id by (apply digits_without; [set_solver | done]).
  cbv zeta. destruct (_ <? _)%nat; [done |].
  destruct (uint_of_digits s Hd) as [u ->]. simpl. eauto using Z_of_uint_nonneg.
Qed.



(** ** The download listener: free names *)

Section UniquePath.

Context {W : Type} (env : Env W).

Lemma path_exists_inv (p : string) st r st' :
  path_exists env p st = (r, st') ->
  trace st' = trace st ++ [Exists p] /\ r <> Diverge /\
  forall b, r = Ok b -> perform env (world st) (Exists p) = (Returned (VBool b), world st').
Proof.
  unfold path_exists, bind, call.
  destruct (perform env (world st) (Exists p)) as [[v|e] w'] eqn:Hp.
  - destruct v; intros [= <- <-]; cbn; repeat split; try done. by intros ? [= <-].
  - intros [= <- <-]. by cbn.
Qed.

Lemma unique_path_scan_outcome (path : string) (n : nat) :
  forall i st r st',
    unique_path_scan env n (S i) path st = (r, st') ->
    match r with
    | Ok p =>
        exists k, (i < k <= i + n)%nat /\ p = unique_candidate path k /\
          trace st' = trace st ++ map (fun j => Exists (unique_candidate path j))
                                    (seq (S i) (k - i)) /\
          exists w, perform env w (Exists p) = (Returned (VBool false), world st')
    | Raise e =>
        e = RuntimeError ("Could not create unique path for " +:+ path) /\
        trace st' = trace st ++ map (fun j => Exists (unique_candidate path j)) (seq (S i) n)
        \/
        exists k, (i < k <= i + n)%nat /\
          trace st' = trace st ++ map (fun j => Exists (unique_candidate path j))
                                    (seq (S i) (k - i))
    | Diverge => False
    end.
Proof.
  induction n as [|n IH]; intros i st r st'.
  - simpl. intros [= <- <-]. left. by rewrite app_nil_r.
  - change (unique_path_scan env (S n) (S i) path)
      with (bind (path_exists env (unique_candidate path (S i)))
              (fun e => if negb e then ret (unique_candidate path (S i))
                        else unique_path_scan env n (S (S i)) path)).
    intros [(e & st1 & H1 & H2) | [(e & H1 & ->) | [H1 ->]]]%bind_inv;
      apply path_exists_inv in H1 as (Ht & Hd & Hb); [| |done].
    + destruct e; cbn [negb] in H2.
      * apply IH in H2. destruct r as [p|e|]; [| |done].
        -- destruct H2 as (k & Hk & -> & Ht2 & Hw).
           exists k. split; [lia |]. split; [done |]. split; [|done].
           rewrite Ht2, Ht, <- app_assoc. f_equal.
           replace (k - i)%nat with (S (k - S i)) by lia. done.
        -- destruct H2 as [[-> Ht2] | (k & Hk & Ht2)].
           ++ left. split; [done |]. by rewrite Ht2, Ht, <- app_assoc.
           ++ right. exists k. split; [lia |].
              rewrite Ht2, Ht, <- app_assoc. f_equal.
              replace (k - i)%nat with (S (k - S i)) by lia. done.
      * injection H2 as <- <-. exists (S i). split; [lia |]. split; [done |].
        replace (S i - i)%nat with 1%nat by lia. split; [done |]. eauto.
    + right. exists (S i). split; [lia |].
      by replace (S i - i)%nat with 1%nat by lia.
Qed.

(** X15: [unique_path] asks about the path itself and then about
    [stem (1)suffix], [stem (2)suffix], ... beside it, in this order and
    without a gap, and returns the first of them that the file system
    reports as missing: this answer is the last thing it asked for.  After
    the path and 9999 numbered names it gives up with a [RuntimeError]. *)
Theorem unique_path_outcome (path : string) st r st' :
  unique_path env path st = (r, st') ->
  match r with
  | Ok p =>
      exists k, (k <= 9 * 1111)%nat /\ p = unique_candidate path k /\
        trace st' = trace st ++ map (fun j => Exists (unique_candidate path j)) (seq 0 (S k)) /\
        exists w, perform env w (Exists p) = (Returned (VBool false), world st')
  | Raise e =>
      e = RuntimeError ("Could not create unique path for " +:+ path) /\
      trace st' = trace st ++ map (fun j => Exists (unique_candidate path j))
                                (seq 0 (S (9 * 1111)))
      \/
      exists k, (k <= 9 * 1111)%nat /\
        trace st' = trace st ++ map (fun j => Exists (unique_candidate path j)) (seq 0 (S k))
  | Diverge => False
  end.
Proof.
  unfold unique_path.
  intros [(e & st1 & H1 & H2) | [(e & H1 & ->) | [H1 ->]]]%bind_inv;
    apply path_exists_inv in H1 as (Ht & Hd & Hb); [| |done].
  - destruct e; cbn [negb] in H2.
    + apply unique_path_scan_outcome in H2.
      destruct r as [p|e|]; [| |done].
      * destruct H2 as (k & Hk & -> & Ht2 & Hw).
        exists k. split; [lia |]. split; [done |]. split; [|done].
        by rewrite Ht2, Ht, <- app_assoc, Nat.sub_0_r, <- cons_seq.
      * destruct H2 as [[-> Ht2] | (k & Hk & Ht2)].
        -- left. split; [done |]. by rewrite Ht2, Ht, <- app_assoc, <- cons_seq.
        -- right. exists k. split; [lia |].
           by rewrite Ht2, Ht, <- app_assoc, Nat.sub_0_r, <- cons_seq.
    + injection H2 as <- <-. exists 0%nat. split; [lia |]. split; [done |].
      split; [done |]. eauto.
  - right. exists 0%nat. split; [lia | done].
Qed.

End UniquePath.

Lemma unique_path_outcome_witness :
  let st' := snd (unique_path taken_world "downloads/mod.zip" (start 0)) in
  exists k, (k <= 9 * 1111)%nat /\
    "downloads/mod (2).zip" = unique_candidate "downloads/mod.zip" k /\
    trace st' = trace (start 0) ++ map (fun j => Exists (unique_candidate "downloads/mod.zip" j))
                                     (seq 0 (S k)) /\
    exists w, perform taken_world w (Exists "downloads/mod (2).zip")
              = (Returned (VBool false), world st').
Proof.
  apply (unique_path_outcome taken_world "downloads/mod.zip" (start 0)
           (Ok "downloads/mod (2).zip")).
  apply run_eq. vm_compute. reflexivity.
Defined.

(** ** The browser-first script: exit codes *)

Section ExitCodes.

Context {W : Type} (env : Env W).

Lemma steady_tame {A} (m : M W A) : tame m -> steady m.
Proof. intros T st r st' (_ & ? & -> & _)%T. done. Qed.

Lemma steady_bind {A B} (m : M W A) (k : A -> M W B) :
  steady m -> (forall a, steady (k a)) -> steady (bind m k).
Proof.
  intros Hm Hk st r st' [(a & st1 & H1 & H2) | [(e & H1 & ->) | [H1 ->]]]%bind_inv.
  - apply Hm in H1 as (? & ? & ?). apply Hk in H2 as (? & ? & ?).
    split; [by etrans | split; congruence].
  - by eapply Hm.
  - by eapply Hm.
Qed.

Lemma steady_update_run_data (f : RunData -> RunData) :
  (forall r, interrupted (f r) = interrupted r /\ fatal_error (f r) = fatal_error r) ->
  steady (W := W) (update_run_data f).
Proof. intros Hf st r st' [= _ <-]. split; [done | apply Hf]. Qed.

Lemma steady_try_except {A} (m : M W A) (c : exn -> bool) (h : exn -> M W A) :
  steady m -> (forall e, steady (h e)) -> steady (try_except m c h).
Proof.
  intros Hm Hh st r st'. unfold try_except.
  destruct (m st) as [[a|e|] st1] eqn:H1; apply Hm in H1 as (? & ? & ?).
  - by intros [= _ <-].
  - destruct (c e); [|by intros [= _ <-]]. intros (? & ? & ?)%Hh.
    split; [by etrans | split; congruence].
  - by intros [= _ <-].
Qed.

Lemma steady_extract_queue url max_mods : steady (extract_queue env url max_mods).
Proof.
  unfold extract_queue.
  apply steady_bind; [apply steady_tame, tame_collect_links |]. intros extraction.
  apply steady_bind; [by apply steady_update_run_data |]. intros _.
  apply steady_bind; [apply steady_tame, tame_extract_game_id |]. intros game.
  apply steady_bind; [by apply steady_update_run_data |]. intros _.
  apply steady_bind.
  - destruct (links extraction); [|apply steady_tame, tame_ret].
    apply steady_bind; [apply steady_tame, tame_extract_mod_links |]. intros dom.
    apply steady_bind; [by apply steady_update_run_data |]. intros _.
    apply steady_tame, tame_ret.
  - intros links.
    apply steady_bind; [by apply steady_update_run_data |]. intros _.
    apply steady_tame, tame_ret.
Qed.

Lemma steady_main_loop args json txt cookie game total links :
  forall idx, steady (main_loop env args json txt cookie game total idx links).
Proof.
  induction links as [|link links IH]; intros idx; simpl; [apply steady_tame, tame_ret |].
  apply steady_bind; [apply steady_tame, tame_process_mod |]. intros item.
  apply steady_bind; [by apply steady_update_run_data |]. intros _.
  apply steady_bind; [apply steady_tame, tame_write_run_logs |]. intros _.
  apply steady_bind; [|intros _; apply IH].
  destruct (idx <? total)%nat; apply steady_tame;
    [apply tame_wait_for_timeout | apply tame_ret].
Qed.

Lemma steady_main_body args json txt : steady (main_body env args json txt).
Proof.
  unfold main_body.
  apply steady_bind; [apply steady_tame, tame_page_call |]. intros _.
  apply steady_bind; [apply steady_tame, tame_cookie_header_of_session |]. intros cookie.
  apply steady_bind; [apply steady_tame, tame_get |]. intros r.
  apply steady_bind; [apply steady_extract_queue |]. intros [links game].
  apply steady_bind.
  - destruct links; [|apply steady_tame, tame_ret].
    unfold write_zero_queue_artifacts.
    apply steady_bind; [apply steady_tame, tame_page_call |]. intros _.
    by apply steady_update_run_data.
  - intros _. apply steady_bind; [apply steady_main_loop |]. intros _.
    apply steady_try_except; [|intros _; apply steady_tame, tame_ret].
    apply steady_bind; [apply steady_tame, tame_page_call |]. intros _.
    apply steady_tame, tame_ret.
Qed.

(** X16: the exit code of the browser-first script.  With a collection URL
    of the wrong format the code is 2 and nothing at all was requested, not
    even the log directory.  Any other code is returned only after both
    logs were written with the report as it stands at the end, as the last
    two requests of the run.  The code is 0 when the run came to its end
    and 130 when a [KeyboardInterrupt] stopped it; an [Exception] is
    recorded as [fatal_error] and gives 1, unless its message is empty:
    then the code is 0 as for a run without a failure. *)
Theorem main_exit_code (args : Args) (stamp : string) st code st' :
  main env args stamp st = (Ok code, st') ->
  if Re.re_match COLLECTION_URL_RE (Py.strip (a_collection_url args)) then
    let json := Path.join (a_log_dir args) ("browser-first-" +:+ stamp +:+ ".json") in
    let txt := Path.join (a_log_dir args) ("browser-first-" +:+ stamp +:+ ".txt") in
    (exists t, trace st' = trace st ++ Mkdir (a_log_dir args) :: t ++
                 [WriteJson json (run_data st');
                  WriteText txt (build_summary_lines json (run_data st'))]) /\
    exists cleaned st0 r0 st1,
      clean_collection_url (a_collection_url args) = Some cleaned /\
      run_data st0 = initial_run_data stamp cleaned /\
      main_body env args json txt st0 = (r0, st1) /\
      match r0 with
      | Ok _ =>
          code = 0 /\ run_data st' = run_data st1 /\ fatal_error (run_data st') = None
      | Raise e =>
          if is_KeyboardInterrupt e
          then code = 130 /\ interrupted (run_data st') = true /\
               fatal_error (run_data st') = Some "Interrupted by user (Ctrl+C)"
          else is_Exception e = true /\ interrupted (run_data st') = false /\
               fatal_error (run_data st') = Some (exn_str e) /\
               code = (if Py.truthy_str (exn_str e) then 1 else 0)
      | Diverge => False
      end
  else code = 2 /\ st' = st.
Proof.
  unfold main. destruct (Re.re_match _ _); cbn [negb]; [|by intros [= <- <-]].
  intros (u & st1 & H1 & H)%bind_Ok_inv.
  assert (trace st1 = trace st ++ [Mkdir (a_log_dir args)]) as Ht1.
  { unfold path_mkdir in H1. apply bind_Ok_inv in H1 as (v & st0 & Hc & [= _ <-]).
    by apply call_Ok in Hc as [? _]. }
  apply bind_Ok_inv in H as (cleaned & st2 & H2 & H).
  assert (clean_collection_url (a_collection_url args) = Some cleaned /\ st2 = st1)
    as [Hclean ->].
  { destruct (clean_collection_url _); [by injection H2 as <- <- | done]. }
  apply bind_Ok_inv in H as ([] & st3 & [= <-] & H).
  set (st0 := with_run_data (fun _ => initial_run_data stamp cleaned) st1) in *.
  unfold main_guarded in H.
  apply bind_Ok_inv in H as ([] & st4 & H4 & H).
  apply bind_Ok_inv in H as ([] & st5 & Hw & H).
  apply write_run_logs_Ok in Hw as [Ht5 Hrd5].
  unfold bind, get, ret in H. cbv beta iota in H. rewrite Hrd5 in H.
  assert (st' = st5 /\
          code = if interrupted (run_data st4) then 130
                 else if fatal_error_truthy (run_data st4) then 1 else 0) as [-> Hcode]
    by (destruct (interrupted (run_data st4)), (fatal_error_truthy (run_data st4));
        by injection H).
  clear H. rewrite Hrd5 in *.
  set (json := Path.join (a_log_dir args) ("browser-first-" +:+ stamp +:+ ".json")) in *.
  set (txt := Path.join (a_log_dir args) ("browser-first-" +:+ stamp +:+ ".txt")) in *.
  destruct (main_body env args json txt st0) as [r0 st6] eqn:Hbody.
  pose proof (steady_main_body _ _ _ _ _ _ Hbody) as (Hp & Hi & Hf).
  change (interrupted (run_data st0)) with false in Hi.
  change (fatal_error (run_data st0)) with (@None string) in Hf.
  unfold try_except2 in H4. rewrite Hbody in H4.
  assert (trace st1 `prefix_of` trace st4 /\
          match r0 with
          | Ok _ => st4 = st6
          | Raise e =>
              if is_KeyboardInterrupt e
              then run_data st4 = set_fatal_error "Interrupted by user (Ctrl+C)"
                                    (set_interrupted (run_data st6))
              else is_Exception e = true /\
                   run_data st4 = set_fatal_error (exn_str e) (run_data st6)
          | Diverge => False
          end) as [[t Ht4] Hr0].
  { destruct r0 as [[]|e|]; [by injection H4 as <- | | done].
    destruct (is_KeyboardInterrupt e); [by injection H4 as <- |].
    destruct (is_Exception e); [by injection H4 as <- | done]. }
  split.
  - exists t. rewrite Ht5, Ht4, Ht1. by rewrite <- !app_assoc.
  - exists cleaned, st0, r0, st6. split; [done |]. split; [done |]. split; [done |].
    destruct r0 as [[]|e|]; [| |done].
    + subst st6. unfold fatal_error_truthy in Hcode. by rewrite Hi, Hf in Hcode.
    + destruct (is_KeyboardInterrupt e).
      * rewrite Hr0 in *. done.
      * destruct Hr0 as [Hex Hr0]. rewrite Hr0 in *. cbn in Hcode |- *.
        by rewrite Hi in *.
Qed.

End ExitCodes.

Lemma main_exit_code_witness :
  let world := raising_world OtherException "" in
  let st' := snd (main world example_args "run" (start 0)) in
  let json := Path.join (a_log_dir example_args) ("browser-first-" +:+ "run" +:+ ".json") in
  let txt := Path.join (a_log_dir example_args) ("browser-first-" +:+ "run" +:+ ".txt") in
  (exists t, trace st' = trace (start 0) ++ Mkdir (a_log_dir example_args) :: t ++
               [WriteJson json (run_data st');
                WriteText txt (build_summary_lines json (run_data st'))]) /\
  exists cleaned st0 r0 st1,
    clean_collection_url (a_collection_url example_args) = Some cleaned /\
    run_data st0 = initial_run_data "run" cleaned /\
    main_body world example_args json txt st0 = (r0, st1) /\
    match r0 with
    | Ok _ => 0 = 0 /\ run_data st' = run_data st1 /\ fatal_error (run_data st') = None
    | Raise e =>
        if is_KeyboardInterrupt e
        then 0 = 130 /\ interrupted (run_data st') = true /\
             fatal_error (run_data st') = Some "Interrupted by user (Ctrl+C)"
        else is_Exception e = true /\ interrupted (run_data st') = false /\
             fatal_error (run_data st') = Some (exn_str e) /\
             0 = (if Py.truthy_str (exn_str e) then 1 else 0)
    | Diverge => False
    end.
Proof.
  pose proof (main_exit_code (raising_world OtherException "") example_args "run"
                (start 0) 0) as H.
  assert (Re.re_match COLLECTION_URL_RE (Py.strip (a_collection_url example_args)) = true)
    as E by (vm_compute; reflexivity).
  rewrite E in H. apply H. apply run_eq. vm_compute. reflexivity.
Defined.

(** ** The browser-first script: the collection URL *)

Lemma endswith_app (a b : string) : Py.endswith (a +:+ b) b = true.
Proof.
  induction a as [|c a IH].
  - destruct b; simpl; by rewrite ?Ascii.eqb_refl, ?String.eqb_refl.
  - change (Py.endswith (String c a +:+ b) b)
      with (String.eqb (String c (a +:+ b)) b || Py.endswith (a +:+ b) b).
    by rewrite IH, orb_true_r.
Qed.

Lemma span_until_fst (p : ascii -> bool) (s : string) :
  Py.existsb_str p (fst (Url.span_until p s)) = false.
Proof.
  induction s as [|c s IH]; simpl; [done |].
  destruct (p c) eqn:Hc; [done |].
  destruct (Url.span_until p s) as [a b]. simpl in *. by rewrite Hc.
Qed.

Lemma existsb_str_weaken (p q : ascii -> bool) (s : string) :
  (forall c, q c = true -> p c = true) ->
  Py.existsb_str p s = false -> Py.existsb_str q s = false.
Proof.
  intros Hpq. induction s as [|c s IH]; simpl; [done |].
  intros [Hc Hs]%orb_false_iff. rewrite (IH Hs), orb_false_r.
  destruct (q c) eqn:E; [|done]. apply Hpq in E. congruence.
Qed.

Lemma split_netloc_fst (url : string) :
  Py.existsb_str Url.netloc_end (fst (Url.split_netloc url)) = false.
Proof.
  unfold Url.split_netloc. destruct (Py.startswith url "//"); [|done].
  apply span_until_fst.
Qed.

Lemma scheme_char_lower (c : ascii) :
  Url.scheme_char c = true -> Url.netloc_end (Py.lower_char c) = false.
Proof. destruct c as [[] [] [] [] [] [] [] []]; try discriminate; intros _; reflexivity. Qed.

Lemma split_scheme_fst (url : string) :
  Py.existsb_str Url.netloc_end (fst (Url.split_scheme url)) = false.
Proof.
  unfold Url.split_scheme.
  destruct (Py.split_once _ url) as [[|c0 pre] [rest|]]; try done.
  destruct (Url.is_ascii_alpha c0 && _) eqn:H; [|done].
  apply andb_true_iff in H as [_ H]. cbn [fst]. revert H.
  generalize (String c0 pre). intros s.
  induction s as [|c s IH]; simpl; [done |].
  intros [Hc Hs]%andb_true_iff. by rewrite (scheme_char_lower c Hc), IH.
Qed.

Lemma urlparse_head_chars (url : string) (parsed : Url.ParseResult) :
  Url.urlparse url = Some parsed ->
  Py.existsb_str Url.netloc_end (Url.scheme parsed) = false /\
  Py.existsb_str Url.netloc_end (Url.netloc parsed) = false.
Proof.
  unfold Url.urlparse, Url.urlsplit.
  set (u := Py.remove_chars _ _).
  pose proof (split_scheme_fst u) as Hs.
  destruct (Url.split_scheme u) as [scheme u1].
  pose proof (split_netloc_fst u1) as Hn.
  destruct (Url.split_netloc u1) as [netloc u2].
  destruct (Url.bad_brackets netloc); [done |].
  destruct (Py.split_once (Py.is_char "#") u2) as [a [b|]];
    destruct (Py.split_once (Py.is_char "?") a) as [a' [b'|]];
    destruct (_ && _); try destruct (Url.split_params _); by intros [= <-].
Qed.

(** X17: the collection URL that the report records never carries a query
    or a fragment and always ends with [/mods], whatever was given: the
    query and the fragment of the given URL are dropped, trailing slashes
    too, and [/mods] is added unless the text already ends with it. *)
Theorem clean_collection_url_shape (url base : string) :
  clean_collection_url url = Some base ->
  Py.endswith base "/mods" = true /\
  Py.existsb_str (Py.is_char "?") base = false /\
  Py.existsb_str (Py.is_char "#") base = false.
Proof.
  unfold clean_collection_url.
  destruct (Url.urlparse (Py.strip url)) as [parsed|] eqn:Hp; [|done].
  set (b := Py.rstrip_set _ _).
  assert (forall q, q = Py.is_char "?" \/ q = Py.is_char "#" ->
                    Py.existsb_str q b = false) as Hb.
  { intros q Hq. apply rstrip_set_chars.
    destruct (urlparse_head_chars _ _ Hp) as [Hs Hn].
    assert (forall c, q c = true -> Url.netloc_end c = true) as Hw.
    { intros c Hc. unfold Url.netloc_end. destruct Hq as [-> | ->]; rewrite Hc;
        by rewrite ?orb_true_r. }
    rewrite !existsb_str_app.
    rewrite (existsb_str_weaken _ _ _ Hw Hs), (existsb_str_weaken _ _ _ Hw Hn).
    assert (Py.existsb_str q (Url.path parsed) = false) as ->
      by (eapply urlparse_path_chars; [|done]; destruct Hq; auto).
    by destruct Hq as [-> | ->]. }
  destruct (negb (Py.endswith b "/mods")) eqn:He; intros [= <-].
  - split; [apply endswith_app |].
    rewrite !existsb_str_app, !Hb by auto. done.
  - apply negb_false_iff in He. split; [done |]. split; apply Hb; auto.
Qed.

Lemma clean_collection_url_shape_witness :
  Py.endswith "https://www.nexusmods.com/games/skyrim/collections/abc/mods" "/mods" = true /\
  Py.existsb_str (Py.is_char "?")
    "https://www.nexusmods.com/games/skyrim/collections/abc/mods" = false /\
  Py.existsb_str (Py.is_char "#")
    "https://www.nexusmods.com/games/skyrim/collections/abc/mods" = false.
Proof.
  apply (clean_collection_url_shape
           "  HTTPS://www.nexusmods.com/games/skyrim/collections/abc/?tab=comments#top ").
  vm_compute. reflexivity.
Defined.

(** ** The configuration file *)

Lemma strip_blank_or_kept (p : string) :
  Py.strip p = p -> p <> "" -> Py.truthy_str (Py.strip p) = true.
Proof. intros -> Hp. by apply truthy_str_nonempty. Qed.

(** X18: what comes back from a configuration that was saved, when the
    file is read back as the payload that was written.  The collection URL
    comes back as a text in every case, the empty text for a configuration
    without one; the CDP address comes back as it was; a directory that is
    not set comes back as not set, and one that is set comes back as it was
    when its text is not empty and has no white space around it. *)
Theorem config_round_trip (config : Config.AppConfig) :
  exists loaded,
    Config.load_config true (Some (Config.JObject (Config.payload config))) = Some loaded /\
    Config.collection_url loaded = Some (default "" (Config.collection_url config)) /\
    Config.cdp_url loaded = Config.cdp_url config /\
    (Config.downloads_dir config = None -> Config.downloads_dir loaded = None) /\
    (Config.install_dir config = None -> Config.install_dir loaded = None) /\
    (forall p, Config.downloads_dir config = Some p -> Py.strip p = p -> p <> "" ->
               Config.downloads_dir loaded = Some p) /\
    (forall p, Config.install_dir config = Some p -> Py.strip p = p -> p <> "" ->
               Config.install_dir loaded = Some p).
Proof.
  destruct config as [url downloads install cdp].
  assert (Config.payload (Config.Build_AppConfig url downloads install cdp) !! "collection_url"
          = Some (Config.JString (default "" url))) as H1.
  { unfold Config.payload. rewrite lookup_insert_eq. cbn.
    destruct url as [[|c u]|]; done. }
  assert (Config.payload (Config.Build_AppConfig url downloads install cdp) !! "downloads_dir"
          = Some (Config.JString (default "" downloads))) as H2.
  { unfold Config.payload. rewrite lookup_insert_ne by done. rewrite lookup_insert_eq.
    by destruct downloads. }
  assert (Config.payload (Config.Build_AppConfig url downloads install cdp) !! "install_dir"
          = Some (Config.JString (default "" install))) as H3.
  { unfold Config.payload. do 2 (rewrite lookup_insert_ne by done). rewrite lookup_insert_eq.
    by destruct install. }
  assert (Config.payload (Config.Build_AppConfig url downloads install cdp) !! "cdp_url"
          = Some (Config.JString cdp)) as H4.
  { unfold Config.payload. do 3 (rewrite lookup_insert_ne by done).
    by rewrite lookup_insert_eq. }
  eexists. split; [reflexivity |].
  cbn [Config.load_config Config.collection_url Config.cdp_url Config.downloads_dir
       Config.install_dir negb].
  rewrite H1, H2, H3, H4.
  cbn [Config.str_or Config.path_or_none from_option id default].
  repeat split.
  - by intros ->.
  - by intros ->.
  - intros p -> Hs Hp. cbn [from_option id]. by rewrite (strip_blank_or_kept p Hs Hp), Hs.
  - intros p -> Hs Hp. cbn [from_option id]. by rewrite (strip_blank_or_kept p Hs Hp), Hs.
Qed.

Lemma config_round_trip_witness :
  let config :=
    {| Config.collection_url := Some "https://www.nexusmods.com/games/skyrim/collections/abc";
       Config.downloads_dir := Some "D:/Downloads"; Config.install_dir := None;
       Config.cdp_url := "http://127.0.0.1:9222" |} in
  Config.load_config true (Some (Config.JObject (Config.payload config))) = Some config.
Proof.
  intros config.
  destruct (config_round_trip config) as (loaded & -> & Hu & Hc & _ & Hi & Hd & _).
  destruct loaded as [u d i c]. cbn in Hu, Hc, Hi, Hd.
  rewrite Hu, Hc, (Hi eq_refl), (Hd "D:/Downloads" eq_refl); [done | by vm_compute | done].
Defined.
